(** * The .NET scripting bridge of the engine (Source/Engine/Scripting/Runtime/DotNet.cpp)

    A shallow embedding of the native side of the bridge: the memoised
    entry-point resolver, the handle-to-wrapper identity maps, the reflection
    mirror (class, method, field, property wrappers) with its populate-once
    member caches, invocation, weak GC handles and the exception marshaler.

    The managed runtime is outside the program.  It is a parameter of every
    definition: a record that says what each bootstrap entry point answers.
    Every call that crosses the boundary is appended to a log kept in the
    bridge state, so that "no further call" is a statement about that log. *)

From stdpp Require Import gmap strings list fin_maps.
From Stdlib Require Import ZArith Lia.

Open Scope string_scope.
Open Scope Z_scope.

(** ** Pointers, handles, outcomes *)

(** The [void *] values handed out by the managed runtime (type handles, method
    handles, object references, GC handles).  They are never dereferenced
    natively; [nullptr] is 0. *)
Definition handle := Z.
Definition nullptr : handle := 0.

(** A [const char *]: a managed-allocated C string, or the null pointer. *)
Definition cstring := option string.

(** The [StringAnsi] made from a [const char *]: a null pointer gives the
    empty string. *)
Definition StringAnsi (text : cstring) : string := default EmptyString text.

(** Why a native call does not return. *)
Inductive Failure :=
| AssertFailed   (* ASSERT(...) *)
| CrashMacro     (* CRASH *)
| FatalLog       (* LOG(Fatal, ...) *)
| NullDeref      (* a member access through a null or dangling pointer *)
| OutOfFuel.     (* the model's recursion bound, not a behaviour of the code *)

Inductive Outcome (A : Type) :=
| Ok (a : A)
| Fail (f : Failure).
Arguments Ok {A} a.
Arguments Fail {A} f.

(** ** Attribute bitmasks (System.Reflection.*Attributes) *)

Module MTypeAttributes.
Definition VisibilityMask : Z := 0x00000007.
Definition NotPublic : Z := 0x00000000.
Definition Public : Z := 0x00000001.
Definition NestedPublic : Z := 0x00000002.
Definition NestedPrivate : Z := 0x00000003.
Definition NestedFamily : Z := 0x00000004.
Definition NestedAssembly : Z := 0x00000005.
Definition NestedFamANDAssem : Z := 0x00000006.
Definition NestedFamORAssem : Z := 0x00000007.
Definition ClassSemanticsMask : Z := 0x00000020.
Definition Interface : Z := 0x00000020.
Definition Abstract : Z := 0x00000080.
Definition Sealed : Z := 0x00000100.
End MTypeAttributes.

Module MMethodAttributes.
Definition MemberAccessMask : Z := 0x0007.
Definition PrivateScope : Z := 0x0000.
Definition Private : Z := 0x0001.
Definition FamANDAssem : Z := 0x0002.
Definition Assembly : Z := 0x0003.
Definition Family : Z := 0x0004.
Definition FamORAssem : Z := 0x0005.
Definition Public : Z := 0x0006.
Definition Static : Z := 0x0010.
End MMethodAttributes.

Module MFieldAttributes.
Definition FieldAccessMask : Z := 0x0007.
Definition PrivateScope : Z := 0x0000.
Definition Private : Z := 0x0001.
Definition FamANDAssem : Z := 0x0002.
Definition Assembly : Z := 0x0003.
Definition Family : Z := 0x0004.
Definition FamORAssem : Z := 0x0005.
Definition Public : Z := 0x0006.
Definition Static : Z := 0x0010.
End MFieldAttributes.

(** The visibility levels the constructors assign ([MVisibility], declared in
    the engine's MTypes.h). *)
Inductive MVisibility :=
| Private
| PrivateProtected
| Internal
| Protected
| ProtectedInternal
| Public.

(** Modelled from the spec: the [CRASH] macro (not among the sources).  An
    unexpected attribute value is a programming error and crashes the process
    at once. *)
Definition CRASH {A} : Outcome A := Fail CrashMacro.

(** The [switch] of [MClass::MClass] on [attributes & VisibilityMask]. *)
Definition class_visibility (attributes : Z) : Outcome MVisibility :=
  let v := Z.land attributes MTypeAttributes.VisibilityMask in
  if (v =? MTypeAttributes.NotPublic) || (v =? MTypeAttributes.NestedPrivate) then Ok Private
  else if (v =? MTypeAttributes.Public) || (v =? MTypeAttributes.NestedPublic) then Ok Public
  else if (v =? MTypeAttributes.NestedFamily) || (v =? MTypeAttributes.NestedAssembly) then Ok Internal
  else if v =? MTypeAttributes.NestedFamORAssem then Ok ProtectedInternal
  else if v =? MTypeAttributes.NestedFamANDAssem then Ok PrivateProtected
  else CRASH.

(** The [switch] of [MMethod::MMethod] on [attributes & MemberAccessMask]. *)
Definition method_visibility (attributes : Z) : Outcome MVisibility :=
  let v := Z.land attributes MMethodAttributes.MemberAccessMask in
  if v =? MMethodAttributes.Private then Ok Private
  else if v =? MMethodAttributes.FamANDAssem then Ok PrivateProtected
  else if v =? MMethodAttributes.Assembly then Ok Internal
  else if v =? MMethodAttributes.Family then Ok Protected
  else if v =? MMethodAttributes.FamORAssem then Ok ProtectedInternal
  else if v =? MMethodAttributes.Public then Ok Public
  else CRASH.

(** The [switch] of [MField::MField] on [attributes & FieldAccessMask]. *)
Definition field_visibility (attributes : Z) : Outcome MVisibility :=
  let v := Z.land attributes MFieldAttributes.FieldAccessMask in
  if v =? MFieldAttributes.Private then Ok Private
  else if v =? MFieldAttributes.FamANDAssem then Ok PrivateProtected
  else if v =? MFieldAttributes.Assembly then Ok Internal
  else if v =? MFieldAttributes.Family then Ok Protected
  else if v =? MFieldAttributes.FamORAssem then Ok ProtectedInternal
  else if v =? MFieldAttributes.Public then Ok Public
  else CRASH.

(** ** Records crossing the boundary

    The fixed-shape structures the managed side fills in.  An array of them
    is a list; its element count is the length of the list. *)

Module NativeClassDefinitions.
Record t := mk {
  typeHandle : handle;
  name : cstring;
  fullname : cstring;
  namespace_ : cstring;
  typeAttributes : Z
}.
End NativeClassDefinitions.

Module NativeMethodDefinitions.
Record t := mk {
  name : cstring;
  numParameters : Z;
  handle_ : handle;
  methodAttributes : Z
}.
End NativeMethodDefinitions.

Module NativeFieldDefinitions.
Record t := mk {
  name : cstring;
  fieldHandle : handle;
  fieldType : handle;
  fieldAttributes : Z
}.
End NativeFieldDefinitions.

Module NativePropertyDefinitions.
Record t := mk {
  name : cstring;
  getterHandle : handle;
  setterHandle : handle;
  getterAttributes : Z;
  setterAttributes : Z
}.
End NativePropertyDefinitions.

(** ** The reflection mirror's objects

    Native wrapper objects are identified by the order of their creation: a
    pointer to an [MClass] or an [MAssembly] is [Some id], or [None] for
    [nullptr].  A class owns its member wrappers, so they are held by value. *)

Module MMethod.
Record t := mk {
  _handle : handle;
  _paramsCount : Z;
  _parentClass : nat;
  _name : string;
  _visibility : MVisibility;
  _isStatic : bool;
  _hasCachedAttributes : bool;
  _hasCachedSignature : bool
}.
End MMethod.

Module MField.
Record t := mk {
  _handle : handle;
  _type : handle;
  _parentClass : nat;
  _name : string;
  _visibility : MVisibility;
  _isStatic : bool;
  _hasCachedAttributes : bool
}.
End MField.

Module MProperty.
Record t := mk {
  _parentClass : nat;
  _name : string;
  _hasCachedAttributes : bool;
  _hasGetMethod : bool;
  _getMethod : option MMethod.t;
  _hasSetMethod : bool;
  _setMethod : option MMethod.t
}.
End MProperty.

Module MClass.
Record t := mk {
  _handle : handle;
  _name : string;
  _namespace_ : string;
  _assembly : option nat;
  _fullname : string;
  _hasCachedProperties : bool;
  _hasCachedFields : bool;
  _hasCachedMethods : bool;
  _hasCachedAttributes : bool;
  _hasCachedEvents : bool;
  _hasCachedInterfaces : bool;
  _visibility : MVisibility;
  _isStatic : bool;
  _isSealed : bool;
  _isAbstract : bool;
  _isInterface : bool;
  _isValueType : bool;
  _isEnum : bool;
  _methods : list MMethod.t;
  _fields : list MField.t;
  _properties : list MProperty.t
}.

Definition set_methods (ms : list MMethod.t) (c : t) : t :=
  mk (_handle c) (_name c) (_namespace_ c) (_assembly c) (_fullname c)
     (_hasCachedProperties c) (_hasCachedFields c) (_hasCachedMethods c)
     (_hasCachedAttributes c) (_hasCachedEvents c) (_hasCachedInterfaces c)
     (_visibility c) (_isStatic c) (_isSealed c) (_isAbstract c) (_isInterface c)
     (_isValueType c) (_isEnum c) ms (_fields c) (_properties c).

Definition set_fields (fs : list MField.t) (c : t) : t :=
  mk (_handle c) (_name c) (_namespace_ c) (_assembly c) (_fullname c)
     (_hasCachedProperties c) (_hasCachedFields c) (_hasCachedMethods c)
     (_hasCachedAttributes c) (_hasCachedEvents c) (_hasCachedInterfaces c)
     (_visibility c) (_isStatic c) (_isSealed c) (_isAbstract c) (_isInterface c)
     (_isValueType c) (_isEnum c) (_methods c) fs (_properties c).

Definition set_properties (ps : list MProperty.t) (c : t) : t :=
  mk (_handle c) (_name c) (_namespace_ c) (_assembly c) (_fullname c)
     (_hasCachedProperties c) (_hasCachedFields c) (_hasCachedMethods c)
     (_hasCachedAttributes c) (_hasCachedEvents c) (_hasCachedInterfaces c)
     (_visibility c) (_isStatic c) (_isSealed c) (_isAbstract c) (_isInterface c)
     (_isValueType c) (_isEnum c) (_methods c) (_fields c) ps.

Definition set_hasCachedMethods (b : bool) (c : t) : t :=
  mk (_handle c) (_name c) (_namespace_ c) (_assembly c) (_fullname c)
     (_hasCachedProperties c) (_hasCachedFields c) b
     (_hasCachedAttributes c) (_hasCachedEvents c) (_hasCachedInterfaces c)
     (_visibility c) (_isStatic c) (_isSealed c) (_isAbstract c) (_isInterface c)
     (_isValueType c) (_isEnum c) (_methods c) (_fields c) (_properties c).

Definition set_hasCachedFields (b : bool) (c : t) : t :=
  mk (_handle c) (_name c) (_namespace_ c) (_assembly c) (_fullname c)
     (_hasCachedProperties c) b (_hasCachedMethods c)
     (_hasCachedAttributes c) (_hasCachedEvents c) (_hasCachedInterfaces c)
     (_visibility c) (_isStatic c) (_isSealed c) (_isAbstract c) (_isInterface c)
     (_isValueType c) (_isEnum c) (_methods c) (_fields c) (_properties c).

Definition set_hasCachedProperties (b : bool) (c : t) : t :=
  mk (_handle c) (_name c) (_namespace_ c) (_assembly c) (_fullname c)
     b (_hasCachedFields c) (_hasCachedMethods c)
     (_hasCachedAttributes c) (_hasCachedEvents c) (_hasCachedInterfaces c)
     (_visibility c) (_isStatic c) (_isSealed c) (_isAbstract c) (_isInterface c)
     (_isValueType c) (_isEnum c) (_methods c) (_fields c) (_properties c).

(** [_methods.Add(method)], [_fields.Add(field)], [_properties.Add(property)] *)
Definition add_method (m : MMethod.t) (c : t) : t := set_methods (_methods c ++ [m]) c.
Definition add_field (f : MField.t) (c : t) : t := set_fields (_fields c ++ [f]) c.
Definition add_property (p : MProperty.t) (c : t) : t := set_properties (_properties c ++ [p]) c.
End MClass.

(** [_isLoaded] is what [IsLoaded()] reads (MAssembly.h, not among the
    sources). *)
Module MAssembly.
Record t := mk {
  _handle : handle;
  _isLoaded : bool;
  _hasCachedClasses : bool;
  _classes : gmap string nat
}.

Definition set_classes (d : gmap string nat) (a : t) : t :=
  mk (_handle a) (_isLoaded a) (_hasCachedClasses a) d.
Definition set_hasCachedClasses (b : bool) (a : t) : t :=
  mk (_handle a) (_isLoaded a) b (_classes a).
End MAssembly.

(** An exception record: message, stack trace and the owned pointer to the
    next inner record ([None] at the end of the chain). *)
Module MException.
Record t := mk {
  Message : string;
  StackTrace : string;
  InnerException : option nat
}.
End MException.

(** ** The managed runtime, seen from the native side

    What each entry point of the bootstrap catalogue answers.  Out-parameters
    are returned as extra components. *)
Record Runtime := {
  (** [get_function_pointer(type, method, ..., &fun)]: the status code and
      the pointer stored in [fun]. *)
  get_function_pointer : string -> Z * handle;
  (** "describe type": the class descriptor and the owning assembly handle. *)
  GetManagedClassFromType : handle -> NativeClassDefinitions.t * handle;
  TypeIsValueType : handle -> bool;
  TypeIsEnum : handle -> bool;
  GetManagedClasses : handle -> list NativeClassDefinitions.t;
  GetClassMethods : handle -> list NativeMethodDefinitions.t;
  GetClassFields : handle -> list NativeFieldDefinitions.t;
  GetClassProperties : handle -> list NativePropertyDefinitions.t;
  GetObjectType : handle -> handle;
  (** [InvokeMethod(instance, method, params, exception)]: the returned
      object, and what the exception slot holds afterwards ([None] when the
      caller gave no slot). *)
  InvokeMethod : handle -> handle -> option (list handle) -> option handle -> handle * option handle;
  NewGCHandleWeak : handle -> bool -> handle
}.

(** One call across the boundary. *)
Inductive Call :=
| Lookup (methodName : string)                  (* get_function_pointer *)
| Managed (methodName : string) (args : list handle).

#[global] Instance Call_eq_dec : EqDecision Call.
Proof. solve_decision. Defined.

(** ** The bridge state: the globals of the translation unit and the native
    objects they point to *)
Record Bridge := mkBridge {
  CachedFunctions : gmap string handle;      (* Dictionary<String, void*> *)
  classHandles : gmap handle nat;            (* Dictionary<void*, MClass*> *)
  assemblyHandles : gmap handle nat;         (* Dictionary<void*, MAssembly*> *)
  classObjects : list MClass.t;
  assemblyObjects : list MAssembly.t;
  exceptionObjects : gmap nat MException.t;
  nextException : nat;
  calls : list Call                          (* most recent first *)
}.

Definition set_CachedFunctions (d : gmap string handle) (s : Bridge) : Bridge :=
  mkBridge d (classHandles s) (assemblyHandles s) (classObjects s) (assemblyObjects s)
           (exceptionObjects s) (nextException s) (calls s).
Definition set_classHandles (d : gmap handle nat) (s : Bridge) : Bridge :=
  mkBridge (CachedFunctions s) d (assemblyHandles s) (classObjects s) (assemblyObjects s)
           (exceptionObjects s) (nextException s) (calls s).
Definition set_classObjects (l : list MClass.t) (s : Bridge) : Bridge :=
  mkBridge (CachedFunctions s) (classHandles s) (assemblyHandles s) l (assemblyObjects s)
           (exceptionObjects s) (nextException s) (calls s).
Definition set_assemblyObjects (l : list MAssembly.t) (s : Bridge) : Bridge :=
  mkBridge (CachedFunctions s) (classHandles s) (assemblyHandles s) (classObjects s) l
           (exceptionObjects s) (nextException s) (calls s).
Definition set_exceptionObjects (d : gmap nat MException.t) (s : Bridge) : Bridge :=
  mkBridge (CachedFunctions s) (classHandles s) (assemblyHandles s) (classObjects s)
           (assemblyObjects s) d (nextException s) (calls s).
Definition set_nextException (n : nat) (s : Bridge) : Bridge :=
  mkBridge (CachedFunctions s) (classHandles s) (assemblyHandles s) (classObjects s)
           (assemblyObjects s) (exceptionObjects s) n (calls s).
Definition set_calls (l : list Call) (s : Bridge) : Bridge :=
  mkBridge (CachedFunctions s) (classHandles s) (assemblyHandles s) (classObjects s)
           (assemblyObjects s) (exceptionObjects s) (nextException s) l.

(** The state at process start: nothing resolved, nothing mirrored. *)
Definition initial : Bridge := mkBridge ∅ ∅ ∅ [] [] ∅ 0%nat [].

(** ** Native code as state transformers that may fail *)

Definition M (A : Type) : Type := Bridge -> Outcome (A * Bridge).

Definition ret {A} (a : A) : M A := fun s => Ok (a, s).
Definition bind {A B} (m : M A) (k : A -> M B) : M B :=
  fun s => match m s with
           | Ok (a, s') => k a s'
           | Fail f => Fail f
           end.
Definition fail {A} (f : Failure) : M A := fun _ => Fail f.
Definition lift {A} (o : Outcome A) : M A :=
  fun s => match o with
           | Ok a => Ok (a, s)
           | Fail f => Fail f
           end.
Definition gets {A} (f : Bridge -> A) : M A := fun s => Ok (f s, s).
Definition modify (f : Bridge -> Bridge) : M unit := fun s => Ok (tt, f s).

Notation "'let*' x ':=' m 'in' k" := (bind m (fun x => k))
  (at level 10, x pattern, m at level 100, k at level 200).

(** Modelled from the spec: the [ASSERT] macro (not among the sources).  A
    violated assertion is a programming error and stops the process. *)
Definition ASSERT (cond : bool) : M unit := if cond then ret tt else fail AssertFailed.

(** Modelled from the spec: [LOG(Fatal, ...)] (Engine/Core/Log.h, not among
    the sources).  A fatal failure is logged and the process aborts; there is
    no recovery path. *)
Definition LOG_Fatal : M unit := fail FatalLog.

(** Member access through a pointer that may be null. *)
Definition deref {A} (p : option A) : M A :=
  match p with
  | Some a => ret a
  | None => fail NullDeref
  end.

Definition log (c : Call) : M unit := modify (fun s => set_calls (c :: calls s) s).

(** Modelled from the spec: [Dictionary] (Engine/Core/Collections/Dictionary.h)
    is not among the sources.  The identity maps hold one wrapper per handle;
    [Add] inserts a key that is not present yet and asserts otherwise. *)
Definition Dictionary_Add `{Countable K} {V} (key : K) (value : V) (d : gmap K V) : Outcome (gmap K V) :=
  match d !! key with
  | None => Ok (<[key := value]> d)
  | Some _ => Fail AssertFailed
  end.

Definition deref_class (klass : nat) : M MClass.t :=
  let* found := gets (fun s => classObjects s !! klass) in deref found.
Definition update_class (klass : nat) (f : MClass.t -> MClass.t) : M unit :=
  let* c := deref_class klass in
  modify (fun s => set_classObjects (<[klass := f c]> (classObjects s)) s).
Definition deref_assembly (assembly : nat) : M MAssembly.t :=
  let* found := gets (fun s => assemblyObjects s !! assembly) in deref found.
Definition update_assembly (assembly : nat) (f : MAssembly.t -> MAssembly.t) : M unit :=
  let* a := deref_assembly assembly in
  modify (fun s => set_assemblyObjects (<[assembly := f a]> (assemblyObjects s)) s).

(** ** The bridge itself *)

Section Bridge.

(** The managed half the native code is running against. *)
Context (rt : Runtime).

(** [MUtils::ToString] on an [MString] pointer (declared in
    Engine/Scripting/ManagedCLR/MUtils.h, not among the sources): the text of
    a managed string. *)
Context (MUtils_ToString : handle -> string).

(** *** Managed call gateway *)

(** [void* GetStaticMethodPointer(const String& methodName)] *)
Definition GetStaticMethodPointer (methodName : string) : M handle :=
  let* cached := gets (fun s => CachedFunctions s !! methodName) in
  match cached with
  | Some fn => ret fn
  | None =>
      let* _ := log (Lookup methodName) in
      let '(rc, fn) := get_function_pointer rt methodName in
      let* _ := (if rc =? 0 then ret tt else LOG_Fatal) in
      let* d := gets CachedFunctions in
      let* d' := lift (Dictionary_Add methodName fn d) in
      let* _ := modify (set_CachedFunctions d') in
      ret fn
  end.

(** The pattern
    [static void* XPtr = GetStaticMethodPointer(TEXT("X"));
     CallStaticMethod<...>(XPtr, args...)].
    The initialiser of the function-local static runs on the first pass
    only.  [CachedFunctions] memoises by name and is never shrunk, so
    running the resolution on every pass gives the same pointer, the same
    lookups and the same state.  [answer] is what the runtime returns. *)
Definition CallStaticMethod {A} (methodName : string) (args : list handle) (answer : A) : M A :=
  let* _ := GetStaticMethodPointer methodName in
  let* _ := log (Managed methodName args) in
  ret answer.

(** [MCore::GC::FreeMemory(void* ptr, bool coTaskMem = false)]; [None] is
    the null pointer. *)
Definition MCore_GC_FreeMemory {A} (ptr : option A) : M unit :=
  match ptr with
  | None => ret tt
  | Some _ => CallStaticMethod "FreeMemory" [] tt
  end.

(** *** Constructors of the member wrappers *)

(** [MMethod::MMethod(parentClass, name, handle, paramsCount, attributes)];
    the profiler name filled in under COMPILE_WITH_PROFILER is left out. *)
Definition MMethod_ctor (parentClass : nat) (name : string) (handle_ : handle)
    (paramsCount : Z) (attributes : Z) : Outcome MMethod.t :=
  match method_visibility attributes with
  | Ok visibility =>
      Ok (MMethod.mk handle_ paramsCount parentClass name visibility
            (Z.land attributes MMethodAttributes.Static =? MMethodAttributes.Static)
            false false)
  | Fail f => Fail f
  end.

(** [MField::MField(parentClass, handle, name, type, attributes)] *)
Definition MField_ctor (parentClass : nat) (handle_ : handle) (name : cstring)
    (type : handle) (attributes : Z) : Outcome MField.t :=
  match field_visibility attributes with
  | Ok visibility =>
      Ok (MField.mk handle_ type parentClass (StringAnsi name) visibility
            (Z.land attributes MFieldAttributes.Static =? MFieldAttributes.Static)
            false)
  | Fail f => Fail f
  end.

(** One accessor of a property: [New<MMethod>(...)] when the handle is not
    null, [nullptr] otherwise. *)
Definition accessor (parentClass : nat) (prefix : string) (_name : string)
    (accessorHandle : handle) (attributes : Z) : Outcome (option MMethod.t) :=
  if negb (accessorHandle =? nullptr) then
    match MMethod_ctor parentClass (prefix +:+ _name) accessorHandle 1 attributes with
    | Ok m => Ok (Some m)
    | Fail f => Fail f
    end
  else Ok None.

(** [MProperty::MProperty(parentClass, name, getterHandle, setterHandle,
    getterAttributes, setterAttributes)] *)
Definition MProperty_ctor (parentClass : nat) (name : cstring)
    (getterHandle setterHandle : handle) (getterAttributes setterAttributes : Z)
    : Outcome MProperty.t :=
  let _name := StringAnsi name in
  let _hasGetMethod := negb (getterHandle =? nullptr) in
  match accessor parentClass "get_" _name getterHandle getterAttributes with
  | Ok _getMethod =>
      let _hasSetMethod := negb (setterHandle =? nullptr) in
      match accessor parentClass "set_" _name setterHandle setterAttributes with
      | Ok _setMethod =>
          Ok (MProperty.mk parentClass _name false _hasGetMethod _getMethod
                _hasSetMethod _setMethod)
      | Fail f => Fail f
      end
  | Fail f => Fail f
  end.

(** *** [MClass] *)

(** The flags [MClass::MClass] derives from the attribute bitmask. *)
Definition staticClassFlags : Z := Z.lor MTypeAttributes.Abstract MTypeAttributes.Sealed.
Definition class_isStatic (attributes : Z) : bool :=
  Z.land attributes staticClassFlags =? staticClassFlags.
Definition class_isSealed (attributes : Z) : bool :=
  negb (class_isStatic attributes)
  && (Z.land attributes MTypeAttributes.Sealed =? MTypeAttributes.Sealed).
Definition class_isAbstract (attributes : Z) : bool :=
  negb (class_isStatic attributes)
  && (Z.land attributes MTypeAttributes.Abstract =? MTypeAttributes.Abstract).
Definition class_isInterface (attributes : Z) : bool :=
  Z.land attributes MTypeAttributes.ClassSemanticsMask =? MTypeAttributes.Interface.

(** [MClass::MClass(parentAssembly, handle, name, fullname, namespace_,
    attributes)], for the object at [this]. *)
Definition MClass_ctor (this : nat) (parentAssembly : option nat) (handle_ : handle)
    (name fullname namespace_ : cstring) (attributes : Z) : M MClass.t :=
  let* _ := ASSERT (negb (handle_ =? nullptr)) in
  let* _visibility := lift (class_visibility attributes) in
  let _isStatic := class_isStatic attributes in
  let _isSealed := class_isSealed attributes in
  let _isAbstract := class_isAbstract attributes in
  let _isInterface := class_isInterface attributes in
  let* _isValueType := CallStaticMethod "TypeIsValueType" [handle_] (TypeIsValueType rt handle_) in
  let* _isEnum := CallStaticMethod "TypeIsEnum" [handle_] (TypeIsEnum rt handle_) in
  let* d := gets classHandles in
  let* d' := lift (Dictionary_Add handle_ this d) in
  let* _ := modify (set_classHandles d') in
  ret (MClass.mk handle_ (StringAnsi name) (StringAnsi namespace_) parentAssembly
         (StringAnsi fullname) false false false false false false
         _visibility _isStatic _isSealed _isAbstract _isInterface _isValueType _isEnum
         [] [] []).

(** [New<MClass>(...)]: the new object is the next one in creation order. *)
Definition New_MClass (parentAssembly : option nat) (handle_ : handle)
    (name fullname namespace_ : cstring) (attributes : Z) : M nat :=
  let* this := gets (fun s => length (classObjects s)) in
  let* c := MClass_ctor this parentAssembly handle_ name fullname namespace_ attributes in
  let* _ := modify (fun s => set_classObjects (classObjects s ++ [c]) s) in
  ret this.

(** [klass->GetFullName()] *)
Definition MClass_GetFullName (this : nat) : M string :=
  let* c := deref_class this in ret (MClass._fullname c).

(** *** Assemblies and the identity maps *)

(** [MAssembly* GetAssembly(void* assemblyHandle)] *)
Definition GetAssembly (assemblyHandle : handle) : M (option nat) :=
  gets (fun s => assemblyHandles s !! assemblyHandle).

(** [_classes.Add(fullName, klass)] on the class map of an assembly. *)
Definition MAssembly_classes_Add (this : nat) (fullName : string) (klass : nat) : M unit :=
  let* a := deref_assembly this in
  let* d' := lift (Dictionary_Add fullName klass (MAssembly._classes a)) in
  update_assembly this (MAssembly.set_classes d').

(** The loop of [MAssembly::GetClasses] over the descriptors the runtime
    returned. *)
Fixpoint cache_classes (this : nat) (managedClasses : list NativeClassDefinitions.t) : M unit :=
  match managedClasses with
  | [] => ret tt
  | managedClass :: rest =>
      let* klass := New_MClass (Some this)
                      (NativeClassDefinitions.typeHandle managedClass)
                      (NativeClassDefinitions.name managedClass)
                      (NativeClassDefinitions.fullname managedClass)
                      (NativeClassDefinitions.namespace_ managedClass)
                      (NativeClassDefinitions.typeAttributes managedClass) in
      let* fullName := MClass_GetFullName klass in
      let* _ := MAssembly_classes_Add this fullName klass in
      let* _ := MCore_GC_FreeMemory (NativeClassDefinitions.name managedClass) in
      let* _ := MCore_GC_FreeMemory (NativeClassDefinitions.fullname managedClass) in
      let* _ := MCore_GC_FreeMemory (NativeClassDefinitions.namespace_ managedClass) in
      cache_classes this rest
  end.

(** [const ClassesDictionary& MAssembly::GetClasses() const].  The run is
    sequential, so the re-check of [_hasCachedClasses] under the lock sees
    the value of the first check. *)
Definition MAssembly_GetClasses (this : nat) : M (gmap string nat) :=
  let* a := deref_assembly this in
  if MAssembly._hasCachedClasses a || negb (MAssembly._isLoaded a) then
    ret (MAssembly._classes a)
  else
    let* _ := ASSERT (bool_decide (MAssembly._classes a = ∅)) in
    let* managedClasses :=
      CallStaticMethod "GetManagedClasses" [MAssembly._handle a]
        (GetManagedClasses rt (MAssembly._handle a)) in
    let* _ := cache_classes this managedClasses in
    let* _ := MCore_GC_FreeMemory (Some managedClasses) in
    let* _ := update_assembly this (MAssembly.set_hasCachedClasses true) in
    let* a' := deref_assembly this in
    ret (MAssembly._classes a').

(** [MClass* GetClass(void* typeHandle)]: the result of [TryGet] is left
    in the local and [nullptr] is returned. *)
Definition GetClass (typeHandle : handle) : M (option nat) :=
  let* klass := gets (fun s => classHandles s !! typeHandle) in
  ret None.

(** [MClass* GetOrCreateClass(void* typeHandle)].  The identity map holds
    wrappers only, so the closing [ASSERT(klass != nullptr)] always passes. *)
Definition GetOrCreateClass (typeHandle : handle) : M (option nat) :=
  if typeHandle =? nullptr then ret None
  else
    let* found := gets (fun s => classHandles s !! typeHandle) in
    match found with
    | Some klass => ret (Some klass)
    | None =>
        let* (classInfo, assemblyHandle) :=
          CallStaticMethod "GetManagedClassFromType" [typeHandle]
            (GetManagedClassFromType rt typeHandle) in
        let* assembly := GetAssembly assemblyHandle in
        let* klass := New_MClass assembly
                        (NativeClassDefinitions.typeHandle classInfo)
                        (NativeClassDefinitions.name classInfo)
                        (NativeClassDefinitions.fullname classInfo)
                        (NativeClassDefinitions.namespace_ classInfo)
                        (NativeClassDefinitions.typeAttributes classInfo) in
        let* _ := match assembly with
                  | Some a =>
                      let* _ := MAssembly_GetClasses a in
                      let* fullName := MClass_GetFullName klass in
                      MAssembly_classes_Add a fullName klass
                  | None => ret tt
                  end in
        let* classInfo :=
          (if negb (typeHandle =? NativeClassDefinitions.typeHandle classInfo) then
             let* (again, _) :=
               CallStaticMethod "GetManagedClassFromType" [typeHandle]
                 (GetManagedClassFromType rt typeHandle) in
             ret again
           else ret classInfo) in
        let* _ := MCore_GC_FreeMemory (NativeClassDefinitions.name classInfo) in
        let* _ := MCore_GC_FreeMemory (NativeClassDefinitions.fullname classInfo) in
        let* _ := MCore_GC_FreeMemory (NativeClassDefinitions.namespace_ classInfo) in
        ret (Some klass)
    end.

(** *** Member caches *)

Fixpoint cache_methods (this : nat) (methods : list NativeMethodDefinitions.t) : M unit :=
  match methods with
  | [] => ret tt
  | definition :: rest =>
      let* method := lift (MMethod_ctor this
                             (StringAnsi (NativeMethodDefinitions.name definition))
                             (NativeMethodDefinitions.handle_ definition)
                             (NativeMethodDefinitions.numParameters definition)
                             (NativeMethodDefinitions.methodAttributes definition)) in
      let* _ := update_class this (MClass.add_method method) in
      let* _ := MCore_GC_FreeMemory (NativeMethodDefinitions.name definition) in
      cache_methods this rest
  end.

(** [const Array<MMethod*>& MClass::GetMethods() const] *)
Definition MClass_GetMethods (this : nat) : M (list MMethod.t) :=
  let* c := deref_class this in
  if MClass._hasCachedMethods c then ret (MClass._methods c)
  else
    let* methods :=
      CallStaticMethod "GetClassMethods" [MClass._handle c]
        (GetClassMethods rt (MClass._handle c)) in
    let* _ := cache_methods this methods in
    let* _ := MCore_GC_FreeMemory (Some methods) in
    let* _ := update_class this (MClass.set_hasCachedMethods true) in
    let* c' := deref_class this in
    ret (MClass._methods c').

Fixpoint cache_fields (this : nat) (fields : list NativeFieldDefinitions.t) : M unit :=
  match fields with
  | [] => ret tt
  | definition :: rest =>
      let* field := lift (MField_ctor this
                            (NativeFieldDefinitions.fieldHandle definition)
                            (NativeFieldDefinitions.name definition)
                            (NativeFieldDefinitions.fieldType definition)
                            (NativeFieldDefinitions.fieldAttributes definition)) in
      let* _ := update_class this (MClass.add_field field) in
      let* _ := MCore_GC_FreeMemory (NativeFieldDefinitions.name definition) in
      cache_fields this rest
  end.

(** [const Array<MField*>& MClass::GetFields() const] *)
Definition MClass_GetFields (this : nat) : M (list MField.t) :=
  let* c := deref_class this in
  if MClass._hasCachedFields c then ret (MClass._fields c)
  else
    let* fields :=
      CallStaticMethod "GetClassFields" [MClass._handle c]
        (GetClassFields rt (MClass._handle c)) in
    let* _ := cache_fields this fields in
    let* _ := MCore_GC_FreeMemory (Some fields) in
    let* _ := update_class this (MClass.set_hasCachedFields true) in
    let* c' := deref_class this in
    ret (MClass._fields c').

Fixpoint cache_properties (this : nat) (foundProperties : list NativePropertyDefinitions.t) : M unit :=
  match foundProperties with
  | [] => ret tt
  | definition :: rest =>
      let* property := lift (MProperty_ctor this
                               (NativePropertyDefinitions.name definition)
                               (NativePropertyDefinitions.getterHandle definition)
                               (NativePropertyDefinitions.setterHandle definition)
                               (NativePropertyDefinitions.getterAttributes definition)
                               (NativePropertyDefinitions.setterAttributes definition)) in
      let* _ := update_class this (MClass.add_property property) in
      let* _ := MCore_GC_FreeMemory (NativePropertyDefinitions.name definition) in
      cache_properties this rest
  end.

(** [const Array<MProperty*>& MClass::GetProperties() const] *)
Definition MClass_GetProperties (this : nat) : M (list MProperty.t) :=
  let* c := deref_class this in
  if MClass._hasCachedProperties c then ret (MClass._properties c)
  else
    let* foundProperties :=
      CallStaticMethod "GetClassProperties" [MClass._handle c]
        (GetClassProperties rt (MClass._handle c)) in
    let* _ := cache_properties this foundProperties in
    let* _ := MCore_GC_FreeMemory (Some foundProperties) in
    let* _ := update_class this (MClass.set_hasCachedProperties true) in
    let* c' := deref_class this in
    ret (MClass._properties c').

(** [MProperty* MClass::GetProperty(const char* name) const]: the first
    property of that name, or [nullptr]. *)
Definition MClass_GetProperty (this : nat) (name : string) : M (option MProperty.t) :=
  let* _properties := MClass_GetProperties this in
  ret (List.find (fun p => String.eqb (MProperty._name p) name) _properties).

(** [MMethod* MProperty::GetGetMethod() const] *)
Definition MProperty_GetGetMethod (this : MProperty.t) : option MMethod.t :=
  MProperty._getMethod this.

(** [MMethod* MProperty::GetSetMethod() const] *)
Definition MProperty_GetSetMethod (this : MProperty.t) : option MMethod.t :=
  MProperty._setMethod this.

(** *** Invocation *)

(** [MObject* MMethod::Invoke(void* instance, void** params,
    MObject** exception) const].  [params] and [exception] may be null
    ([None]); a given slot is passed with its current content.  The result
    is the returned object and the content of the slot afterwards. *)
Definition MMethod_Invoke (this : MMethod.t) (instance : handle)
    (params : option (list handle)) (exception : option handle)
    : M (handle * option handle) :=
  CallStaticMethod "InvokeMethod" [instance; MMethod._handle this]
    (InvokeMethod rt instance (MMethod._handle this) params exception).

(** [MObject* MMethod::InvokeVirtual(MObject* instance, void** params,
    MObject** exception) const] *)
Definition MMethod_InvokeVirtual (this : MMethod.t) (instance : handle)
    (params : option (list handle)) (exception : option handle)
    : M (handle * option handle) :=
  MMethod_Invoke this instance params exception.

(** *** GC handles *)

(** [MGCHandle MCore::GCHandle::NewWeak(MObject* obj, bool trackResurrection)] *)
Definition MCore_GCHandle_NewWeak (obj : handle) (trackResurrection : bool) : M handle :=
  CallStaticMethod "NewGCHandleWeak" [obj] (NewGCHandleWeak rt obj trackResurrection).

(** [MObject* MCore::GCHandle::GetTarget(const MGCHandle& handle)]: the
    handle itself, cast to an object pointer. *)
Definition MCore_GCHandle_GetTarget (handle_ : handle) : handle := handle_.

(** [MClass* MCore::Object::GetClass(MObject* obj)] *)
Definition MCore_Object_GetClass (obj : handle) : M (option nat) :=
  let* classHandle := CallStaticMethod "GetObjectType" [obj] (GetObjectType rt obj) in
  GetOrCreateClass classHandle.

(** *** Exception marshaling *)

(** Storage for one exception record; [Delete] gives it back. *)
Definition alloc_exception : M nat :=
  let* p := gets nextException in
  let* _ := modify (set_nextException (S p)) in
  ret p.
Definition free_exception (p : nat) : M unit :=
  modify (fun s => set_exceptionObjects (delete p (exceptionObjects s)) s).
Definition deref_exception (p : nat) : M MException.t :=
  let* found := gets (fun s => exceptionObjects s !! p) in deref found.

(** The three reads of the constructor share one shape:
    [prop = exceptionClass->GetProperty(name); getter = prop->GetGetMethod();
     getter->Invoke(exception, nullptr, nullptr)]. *)
Definition get_exception_property (exceptionClass : option nat) (exception : handle)
    (name : string) : M handle :=
  let* klass := deref exceptionClass in
  let* prop := MClass_GetProperty klass name in
  let* prop := deref prop in
  let* getter := deref (MProperty_GetGetMethod prop) in
  let* (result, _) := MMethod_Invoke getter exception None None in
  ret result.

(** [MException::MException(MObject* exception)] for the record at [this].
    The chain of inner exceptions belongs to the runtime, so the recursion
    is bounded by [fuel]. *)
Fixpoint MException_ctor (fuel : nat) (this : nat) (exception : handle) : M unit :=
  match fuel with
  | O => fail OutOfFuel
  | S fuel' =>
      let* _ := ASSERT (negb (exception =? nullptr)) in
      let* exceptionClass := MCore_Object_GetClass exception in
      let* exceptionMsg := get_exception_property exceptionClass exception "Message" in
      let Message := MUtils_ToString exceptionMsg in
      let* exceptionStackTrace := get_exception_property exceptionClass exception "StackTrace" in
      let StackTrace := MUtils_ToString exceptionStackTrace in
      let* innerException := get_exception_property exceptionClass exception "InnerException" in
      let* InnerException :=
        (if negb (innerException =? nullptr) then
           let* p := alloc_exception in
           let* _ := MException_ctor fuel' p innerException in
           ret (Some p)
         else ret None) in
      modify (fun s => set_exceptionObjects
                         (<[this := MException.mk Message StackTrace InnerException]>
                            (exceptionObjects s)) s)
  end.

(** [New<MException>(exception)] *)
Definition New_MException (fuel : nat) (exception : handle) : M nat :=
  let* p := alloc_exception in
  let* _ := MException_ctor fuel p exception in
  ret p.

(** [MException::~MException()] *)
Fixpoint MException_dtor (fuel : nat) (this : nat) : M unit :=
  match fuel with
  | O => fail OutOfFuel
  | S fuel' =>
      let* r := deref_exception this in
      match MException.InnerException r with
      | Some inner =>
          let* _ := MException_dtor fuel' inner in
          free_exception inner
      | None => ret tt
      end
  end.

(** [Delete(exception)]: run the destructor, release the storage. *)
Definition Delete_MException (fuel : nat) (p : nat) : M unit :=
  let* _ := MException_dtor fuel p in
  free_exception p.

End Bridge.

(** ** Reading an outcome *)

Definition is_ok {A} (o : Outcome A) : Prop := exists a, o = Ok a.

(** A name the runtime's catalogue knows: the lookup reports success. *)
Definition resolves (rt : Runtime) (methodName : string) : Prop :=
  (get_function_pointer rt methodName).1 = 0.

(** How often [get_function_pointer] was asked for a name so far. *)
Definition lookups (methodName : string) (s : Bridge) : nat :=
  length (filter (fun c => c = Lookup methodName) (calls s)).

(** How often a managed entry point was called with these arguments. *)
Definition managed_calls (methodName : string) (args : list handle) (s : Bridge) : nat :=
  length (filter (fun c => c = Managed methodName args) (calls s)).

(** The cache and the log agree: a name was looked up once if it is cached
    and never otherwise. *)
Definition memo_inv (s : Bridge) : Prop :=
  forall n, lookups n s = match CachedFunctions s !! n with
                          | Some _ => 1%nat
                          | None => 0%nat
                          end.

(** The state right after a successful resolution of a name, and after a
    managed call through it. *)
Definition after_resolve (rt : Runtime) (methodName : string) (s : Bridge) : Bridge :=
  match CachedFunctions s !! methodName with
  | Some _ => s
  | None =>
      set_CachedFunctions
        (<[methodName := (get_function_pointer rt methodName).2]> (CachedFunctions s))
        (set_calls (Lookup methodName :: calls s) s)
  end.

Definition after_call (rt : Runtime) (methodName : string) (args : list handle) (s : Bridge) : Bridge :=
  set_calls (Managed methodName args :: calls (after_resolve rt methodName s))
            (after_resolve rt methodName s).

(** [after_call] when the pointer is freed only if it is not null. *)
Definition after_free (rt : Runtime) {A} (ptr : option A) (s : Bridge) : Bridge :=
  match ptr with
  | None => s
  | Some _ => after_call rt "FreeMemory" [] s
  end.

Arguments after_resolve : simpl never.
Arguments after_call : simpl never.
Arguments after_free : simpl never.

(** ** A runtime to run the bridge against

    One class, [System.Exception] under handle 100, with three read-only
    properties; three exception objects 1001, 1002, 1003 chained through
    [InnerException]; and a type handle 10 that the runtime describes under
    its canonical handle 20. *)

Definition sample_describe (h : handle) : NativeClassDefinitions.t :=
  if h =? 10 then
    NativeClassDefinitions.mk 20 (Some "List`1") (Some "System.Collections.Generic.List`1")
      (Some "System.Collections.Generic") 0x102001
  else
    NativeClassDefinitions.mk h (Some "Exception") (Some "System.Exception")
      (Some "System") 0x102001.

Definition sample_runtime : Runtime := {|
  get_function_pointer := fun n =>
    if String.eqb n "Unknown" then (-2146233069, 0)
    else (0, 4096 + Z.of_nat (String.length n));
  GetManagedClassFromType := fun h => (sample_describe h, 0);
  TypeIsValueType := fun _ => false;
  TypeIsEnum := fun _ => false;
  GetManagedClasses := fun _ => [];
  GetClassMethods := fun _ => [NativeMethodDefinitions.mk (Some "ToString") 0 301 0x00c6];
  GetClassFields := fun _ => [NativeFieldDefinitions.mk (Some "_message") 401 402 0x0001];
  GetClassProperties := fun _ =>
    [NativePropertyDefinitions.mk (Some "Message") 201 0 0x0946 0;
     NativePropertyDefinitions.mk (Some "StackTrace") 202 0 0x0946 0;
     NativePropertyDefinitions.mk (Some "InnerException") 203 0 0x0886 0];
  GetObjectType := fun _ => 100;
  InvokeMethod := fun instance method _ slot =>
    (if method =? 203 then
       (if instance =? 1001 then 1002 else if instance =? 1002 then 1003 else 0)
     else instance * 10 + (method - 200),
     slot);
  NewGCHandleWeak := fun obj _ => obj + 1
|}.

Definition sample_ToString (str : handle) : string :=
  if str =? 10011 then "outer" else if str =? 10012 then "at A"
  else if str =? 10021 then "middle" else if str =? 10022 then "at B"
  else if str =? 10031 then "inner" else if str =? 10032 then "at C"
  else "?".

(** ** What the member caches should hold

    The wrappers a descriptor array decodes to, computed without the bridge
    state; [None]-free only when no constructor takes the crash path. *)

Fixpoint build_properties (this : nat) (foundProperties : list NativePropertyDefinitions.t)
    : Outcome (list MProperty.t) :=
  match foundProperties with
  | [] => Ok []
  | definition :: rest =>
      match MProperty_ctor this (NativePropertyDefinitions.name definition)
              (NativePropertyDefinitions.getterHandle definition)
              (NativePropertyDefinitions.setterHandle definition)
              (NativePropertyDefinitions.getterAttributes definition)
              (NativePropertyDefinitions.setterAttributes definition),
            build_properties this rest with
      | Ok p, Ok ps => Ok (p :: ps)
      | Fail f, _ => Fail f
      | _, Fail f => Fail f
      end
  end.

(** Two states that differ at most in the gateway cache, the call log and
    the class objects. *)
Definition same_objects (s s' : Bridge) : Prop :=
  classHandles s' = classHandles s
  /\ assemblyHandles s' = assemblyHandles s
  /\ assemblyObjects s' = assemblyObjects s
  /\ exceptionObjects s' = exceptionObjects s
  /\ nextException s' = nextException s.

(** A class object keeps what it had cached: the same handle, and every
    populated member cache still populated with the same sequence. *)
Definition caches_kept (c c' : MClass.t) : Prop :=
  MClass._handle c' = MClass._handle c
  /\ (MClass._hasCachedMethods c = true ->
      MClass._hasCachedMethods c' = true /\ MClass._methods c' = MClass._methods c)
  /\ (MClass._hasCachedFields c = true ->
      MClass._hasCachedFields c' = true /\ MClass._fields c' = MClass._fields c)
  /\ (MClass._hasCachedProperties c = true ->
      MClass._hasCachedProperties c' = true /\ MClass._properties c' = MClass._properties c).

Definition classes_kept (s s' : Bridge) : Prop :=
  forall k c, classObjects s !! k = Some c ->
              exists c', classObjects s' !! k = Some c' /\ caches_kept c c'.

(** ** A managed exception, seen through the boundary *)

(** The attributes of every non-null accessor of a property descriptor are
    among the six access levels, so its wrapper can be built. *)
Definition decodable (d : NativePropertyDefinitions.t) : Prop :=
  (NativePropertyDefinitions.getterHandle d <> nullptr ->
   is_ok (method_visibility (NativePropertyDefinitions.getterAttributes d)))
  /\ (NativePropertyDefinitions.setterHandle d <> nullptr ->
      is_ok (method_visibility (NativePropertyDefinitions.setterAttributes d))).

(** The getter the runtime describes for the first property of that name of
    a class, if there is such a property and it has a getter. *)
Definition described_getter (rt : Runtime) (classHandle : handle) (name : string) : option handle :=
  match List.find (fun d => String.eqb (StringAnsi (NativePropertyDefinitions.name d)) name)
          (GetClassProperties rt classHandle) with
  | Some d =>
      if NativePropertyDefinitions.getterHandle d =? nullptr then None
      else Some (NativePropertyDefinitions.getterHandle d)
  | None => None
  end.

(** What the runtime answers when that getter is invoked on the object with
    no arguments and no exception slot. *)
Definition managed_property (rt : Runtime) (obj : handle) (name : string) : option handle :=
  match described_getter rt (GetObjectType rt obj) name with
  | Some getter => Some (InvokeMethod rt obj getter None None).1
  | None => None
  end.

(** [obj] is a managed exception with this message, this stack trace and
    this inner exception ([nullptr] for none). *)
Definition managed_exception (rt : Runtime) (ToString : handle -> string)
    (obj : handle) (message stackTrace : string) (inner : handle) : Prop :=
  obj <> nullptr
  /\ GetObjectType rt obj <> nullptr
  /\ Forall decodable (GetClassProperties rt (GetObjectType rt obj))
  /\ ToString <$> managed_property rt obj "Message" = Some message
  /\ ToString <$> managed_property rt obj "StackTrace" = Some stackTrace
  /\ managed_property rt obj "InnerException" = Some inner.

(** A chain of managed exceptions starting at [obj], outermost first, each
    with its message and stack trace; the last one has no inner exception. *)
Fixpoint managed_chain (rt : Runtime) (ToString : handle -> string) (obj : handle)
    (chain : list (handle * string * string)) : Prop :=
  match chain with
  | [] => obj = nullptr
  | (o, message, stackTrace) :: rest =>
      obj = o
      /\ exists inner, managed_exception rt ToString o message stackTrace inner
                       /\ managed_chain rt ToString inner rest
  end.

(** The native records such a chain is marshaled to when the first record
    is stored at [p]: consecutive records, each owning the next. *)
Fixpoint native_chain (p : nat) (chain : list (handle * string * string))
    : gmap nat MException.t :=
  match chain with
  | [] => ∅
  | (_, message, stackTrace) :: rest =>
      <[p := MException.mk message stackTrace
               (match rest with [] => None | _ :: _ => Some (S p) end)]>
        (native_chain (S p) rest)
  end.

(** Storage not handed out yet holds no record. *)
Definition heap_fresh (s : Bridge) : Prop :=
  forall q, (nextException s <= q)%nat -> exceptionObjects s !! q = None.

(** The property cache of a class object agrees with what the runtime
    describes for its handle: empty before population, the decoded
    descriptors after. *)
Definition consistent (rt : Runtime) (k : nat) (c : MClass.t) : Prop :=
  if MClass._hasCachedProperties c then
    build_properties k (GetClassProperties rt (MClass._handle c)) = Ok (MClass._properties c)
  else MClass._properties c = [].

(** The class of that handle has its wrapper in the identity map. *)
Definition mirrored (rt : Runtime) (s : Bridge) (classHandle : handle) : Prop :=
  exists k c, classHandles s !! classHandle = Some k
              /\ classObjects s !! k = Some c
              /\ MClass._handle c = classHandle
              /\ consistent rt k c.

(** The state in which the sample runtime's exception class is mirrored. *)
Definition sample_mirrored : Bridge :=
  match GetOrCreateClass sample_runtime 100 initial with
  | Ok (_, s) => s
  | Fail _ => initial
  end.

(** ** Class relations, member lookup and assembly images

    Further entry points of the bootstrap catalogue, with what each one
    answers. *)
Record RuntimeMore := {
  GetClassParent : handle -> handle;
  TypeIsSubclassOf : handle -> handle -> bool -> bool;
  TypeIsAssignableFrom : handle -> handle -> bool;
  (** [NativeSizeOf] answers a C# [int]. *)
  NativeSizeOf : handle -> Z;
  GetMethodUnmanagedFunctionPointer : handle -> handle;
  (** [LoadAssemblyImage(data, len, path, &name, &fullname)]: the assembly
      handle and the two names written through the out-parameters. *)
  LoadAssemblyImage : list Z -> string -> handle * cstring * cstring
}.

Definition set_assemblyHandles (d : gmap handle nat) (s : Bridge) : Bridge :=
  mkBridge (CachedFunctions s) (classHandles s) d (classObjects s) (assemblyObjects s)
           (exceptionObjects s) (nextException s) (calls s).

(** The assignment [_handle = ...] on an assembly object. *)
Definition MAssembly_set_handle (h : handle) (a : MAssembly.t) : MAssembly.t :=
  MAssembly.mk h (MAssembly._isLoaded a) (MAssembly._hasCachedClasses a) (MAssembly._classes a).

(** [Dictionary::Remove(key)] (Engine/Core/Collections/Dictionary.h, not
    among the sources): the entry of that key is dropped if there is one. *)
Definition Dictionary_Remove `{Countable K} {V} (key : K) (d : gmap K V) : gmap K V :=
  delete key d.

(** The value of a C# [int] read as [uint32]. *)
Definition to_uint32 (v : Z) : Z := v mod 2 ^ 32.

Section BridgeMore.

Context (rt : Runtime) (rx : RuntimeMore).

(** [File::ReadAllBytes] (Engine/Platform/File.h, not among the sources):
    the content of the file at a path. *)
Context (File_ReadAllBytes : string -> list Z).

(** *** Member lookup *)

(** [MMethod* MClass::GetMethod(const char* name, int32 numParams) const] *)
Definition MClass_GetMethod (this : nat) (name : string) (numParams : Z) : M (option MMethod.t) :=
  let* _methods := MClass_GetMethods rt this in
  ret (List.find (fun m => String.eqb (MMethod._name m) name
                           && (MMethod._paramsCount m =? numParams)) _methods).

(** [MField* MClass::GetField(const char* name) const] *)
Definition MClass_GetField (this : nat) (name : string) : M (option MField.t) :=
  let* _fields := MClass_GetFields rt this in
  ret (List.find (fun f => String.eqb (MField._name f) name) _fields).

(** *** Class relations *)

(** [MClass* MClass::GetBaseClass() const] *)
Definition MClass_GetBaseClass (this : nat) : M (option nat) :=
  let* c := deref_class this in
  let* parentHandle :=
    CallStaticMethod rt "GetClassParent" [MClass._handle c]
      (GetClassParent rx (MClass._handle c)) in
  GetOrCreateClass rt parentHandle.

(** [bool MClass::IsSubClassOf(const MClass* klass, bool checkInterfaces)
    const].  The function-local static is initialised on entry, before
    [klass] is tested; the call itself is behind the [&&]. *)
Definition MClass_IsSubClassOf (this : nat) (klass : option nat) (checkInterfaces : bool) : M bool :=
  let* _ := GetStaticMethodPointer rt "TypeIsSubclassOf" in
  match klass with
  | None => ret false
  | Some k =>
      let* c := deref_class this in
      let* kc := deref_class k in
      CallStaticMethod rt "TypeIsSubclassOf" [MClass._handle c; MClass._handle kc]
        (TypeIsSubclassOf rx (MClass._handle c) (MClass._handle kc) checkInterfaces)
  end.

(** [bool MClass::HasInterface(const MClass* klass) const] *)
Definition MClass_HasInterface (this : nat) (klass : option nat) : M bool :=
  let* _ := GetStaticMethodPointer rt "TypeIsAssignableFrom" in
  match klass with
  | None => ret false
  | Some k =>
      let* c := deref_class this in
      let* kc := deref_class k in
      CallStaticMethod rt "TypeIsAssignableFrom" [MClass._handle c; MClass._handle kc]
        (TypeIsAssignableFrom rx (MClass._handle c) (MClass._handle kc))
  end.

(** [bool MClass::IsInstanceOfType(MObject* object) const] *)
Definition MClass_IsInstanceOfType (this : nat) (object : handle) : M bool :=
  if object =? nullptr then ret false
  else
    let* objectClass := MCore_Object_GetClass rt object in
    MClass_IsSubClassOf this objectClass false.

(** [uint32 MClass::GetInstanceSize() const].  [_size] is a member declared
    in MClass.h; the class record above does not carry it, so it is threaded
    through: its value before the call comes in, the result and its value
    after the call go out. *)
Definition MClass_GetInstanceSize (this : nat) (_size : Z) : M (Z * Z) :=
  if negb (_size =? 0) then ret (_size, _size)
  else
    let* c := deref_class this in
    let* size :=
      CallStaticMethod rt "NativeSizeOf" [MClass._handle c]
        (NativeSizeOf rx (MClass._handle c)) in
    ret (to_uint32 size, to_uint32 size).

(** [MClass::~MClass()]: [ClearDelete] deletes the wrappers of an array and
    empties it.  Events are not part of the class record. *)
Definition MClass_dtor (this : nat) : M unit :=
  let* _ := update_class this (MClass.set_methods []) in
  let* _ := update_class this (MClass.set_fields []) in
  let* _ := update_class this (MClass.set_properties []) in
  let* c := deref_class this in
  modify (fun s => set_classHandles (Dictionary_Remove (MClass._handle c) (classHandles s)) s).

(** [::String MCore::Type::ToString(MType* type)] *)
Definition MCore_Type_ToString (type : handle) : M string :=
  let* klass := GetOrCreateClass rt type in
  let* klass := deref klass in
  MClass_GetFullName klass.

(** *** Methods and properties *)

(** [void* MMethod::GetThunk()], with the member [_cachedThunk] (declared in
    MMethod.h) threaded through like [_size] above. *)
Definition MMethod_GetThunk (this : MMethod.t) (_cachedThunk : handle) : M (handle * handle) :=
  if _cachedThunk =? nullptr then
    let* thunk :=
      CallStaticMethod rt "GetMethodUnmanagedFunctionPointer" [MMethod._handle this]
        (GetMethodUnmanagedFunctionPointer rx (MMethod._handle this)) in
    ret (thunk, thunk)
  else ret (_cachedThunk, _cachedThunk).

(** [MObject* MProperty::GetValue(MObject* instance, MObject** exception)
    const].  The macro [CHECK_RETURN(expression, value)] is not among the
    sources; it is taken as its name and arguments say: when the expression
    is false the function returns [value] at once. *)
Definition MProperty_GetValue (this : MProperty.t) (instance : handle)
    (exception : option handle) : M (handle * option handle) :=
  match MProperty._getMethod this with
  | None => ret (nullptr, exception)
  | Some getter => MMethod_Invoke rt getter instance None exception
  end.

(** [void MProperty::SetValue(MObject* instance, void* value,
    MObject** exception) const]; [CHECK(expression)], the same macro for void
    functions, returns at once when the expression is false.  The result is
    the content of the exception slot afterwards. *)
Definition MProperty_SetValue (this : MProperty.t) (instance : handle) (value : handle)
    (exception : option handle) : M (option handle) :=
  match MProperty._setMethod this with
  | None => ret exception
  | Some setter =>
      let* (_, slot) := MMethod_Invoke rt setter instance (Some [value]) exception in
      ret slot
  end.

(** *** Assembly images *)

(** [void RegisterNativeLibrary(const char* moduleName, const char* modulePath)] *)
Definition RegisterNativeLibrary : M unit :=
  CallStaticMethod rt "RegisterNativeLibrary" [] tt.

(** [bool MAssembly::LoadImage(const String& assemblyPath,
    const StringView& nativePath)]; [true] reports failure.  The names and the
    path kept on the assembly object are not part of the assembly record, and
    the log entry written on failure is not part of the bridge state. *)
Definition MAssembly_LoadImage (this : nat) (assemblyPath nativePath : string) : M bool :=
  let data := File_ReadAllBytes assemblyPath in
  let* (h, name, fullname) :=
    CallStaticMethod rt "LoadAssemblyImage" [] (LoadAssemblyImage rx data assemblyPath) in
  let* _ := update_assembly this (MAssembly_set_handle h) in
  let* _ := MCore_GC_FreeMemory rt name in
  let* _ := MCore_GC_FreeMemory rt fullname in
  if h =? nullptr then ret true
  else
    let* d := gets assemblyHandles in
    let* d' := lift (Dictionary_Add h this d) in
    let* _ := modify (set_assemblyHandles d') in
    let* _ := (if negb (String.eqb nativePath EmptyString) then RegisterNativeLibrary
               else ret tt) in
    let* _ := update_assembly this (MAssembly.set_hasCachedClasses false) in
    ret false.

(** [bool MAssembly::UnloadImage(bool isReloading)] *)
Definition MAssembly_UnloadImage (this : nat) (isReloading : bool) : M bool :=
  let* a := deref_assembly this in
  if negb (MAssembly._handle a =? nullptr) then
    let* _ := (if isReloading then
                 CallStaticMethod rt "CloseAssembly" [MAssembly._handle a] tt
               else ret tt) in
    let* _ := modify (fun s => set_assemblyHandles
                                 (Dictionary_Remove (MAssembly._handle a) (assemblyHandles s)) s) in
    let* _ := update_assembly this (MAssembly_set_handle nullptr) in
    ret false
  else ret false.

End BridgeMore.

(** ** Log callbacks of the Mono host *)

Module LogType.
Inductive t := Info | Warning | Error | Fatal.
End LogType.

(** [monoErrorLevels] from index 1 on; index 0 holds [nullptr] and is never
    compared. *)
Definition monoErrorLevels : list string :=
  ["error"; "critical"; "warning"; "message"; "info"; "debug"].

(** The loop [for (i = 1; i < 7; i++) if (strcmp(monoErrorLevels[i], logLevel)
    == 0) { errorLevel = i; break; }], started at index [i]. *)
Fixpoint find_errorLevel (i : Z) (levels : list string) (logLevel : string) : Z :=
  match levels with
  | [] => 0
  | level :: rest =>
      if String.eqb level logLevel then i else find_errorLevel (i + 1) rest logLevel
  end.

(** [String::Replace(Char searchChar, Char replacementChar)] (the engine's
    string class, not among the sources): every occurrence is replaced. *)
Fixpoint String_Replace (searchChar replacementChar : Ascii.ascii) (text : string) : string :=
  match text with
  | EmptyString => EmptyString
  | String c rest =>
      String (if Ascii.eqb c searchChar then replacementChar else c)
             (String_Replace searchChar replacementChar rest)
  end.

(** [void OnLogCallback(const char* logDomain, const char* logLevel,
    const char* message, mono_bool fatal, void* userData)]: the level and the
    text of the one log entry it writes.  [activeDomain] is the name of
    [MCore::GetActiveDomain()] if there is an active domain.  An entry made
    through [Log::CLRInnerException(..).SetLevel(LogType::Error)] is an entry
    of level [Error]. *)
Definition OnLogCallback (activeDomain : option string) (logDomain logLevel message : cstring)
    : LogType.t * string :=
  let currentDomain := StringAnsi logDomain in
  let msg := String_Replace (Ascii.ascii_of_nat 10) (Ascii.ascii_of_nat 32) (StringAnsi message) in
  let errorLevel :=
    match logLevel with
    | Some l => find_errorLevel 1 monoErrorLevels l
    | None => 0
    end in
  let currentDomain :=
    if String.eqb currentDomain EmptyString then
      match activeDomain with
      | Some n => n
      | None => "null"
      end
    else currentDomain in
  let text := "Message: " +:+ msg +:+ " | Domain: " +:+ currentDomain in
  if errorLevel =? 0 then (LogType.Error, text)
  else if errorLevel <=? 2 then (LogType.Error, text)
  else if errorLevel <=? 3 then (LogType.Warning, text)
  else (LogType.Info, text).

(** ** A runtime for the further entry points

    The exception class 100 derives from the class 50, which has no parent;
    instances of 100 take 24 bytes and the size of 50 is reported as 0; one
    assembly image can be loaded, from Game.dll. *)
Definition sample_more : RuntimeMore := {|
  GetClassParent := fun h => if h =? 100 then 50 else 0;
  TypeIsSubclassOf := fun a b _ => (a =? b) || ((a =? 100) && (b =? 50));
  TypeIsAssignableFrom := fun a b => a =? b;
  NativeSizeOf := fun h => if h =? 100 then 24 else 0;
  GetMethodUnmanagedFunctionPointer := fun h => h + 7000;
  LoadAssemblyImage := fun _ path =>
    if String.eqb path "Game.dll" then (900, Some "Game", Some "Game, Version=1.0.0.0")
    else (0, None, None)
|}.

Definition sample_files (path : string) : list Z :=
  if String.eqb path "Game.dll" then [77; 90] else [].

(** The identity map points at live wrappers: every entry leads to a class
    object that carries the handle it is registered under. *)
Definition handles_wf (s : Bridge) : Prop :=
  forall h k, classHandles s !! h = Some k ->
              exists c, classObjects s !! k = Some c /\ MClass._handle c = h.

(** [s'] extends [s]: the identity map and the class objects have only
    grown, and the identity map is still well-formed if it was. *)
Definition extends (s s' : Bridge) : Prop :=
  classHandles s ⊆ classHandles s'
  /\ (exists l, classObjects s' = (classObjects s ++ l)%list)
  /\ (handles_wf s -> handles_wf s').

(** What mirroring one listed class leaves behind: its wrapper, registered
    under the type handle and entered in the class map under its full
    name. *)
Definition class_mirrored (s : Bridge) (classes : gmap string nat)
    (d : NativeClassDefinitions.t) : Prop :=
  exists k c,
    classes !! StringAnsi (NativeClassDefinitions.fullname d) = Some k
    /\ classHandles s !! NativeClassDefinitions.typeHandle d = Some k
    /\ classObjects s !! k = Some c
    /\ MClass._handle c = NativeClassDefinitions.typeHandle d
    /\ MClass._fullname c = StringAnsi (NativeClassDefinitions.fullname d).

(** The sample runtime with an assembly, 900, that lists two classes. *)
Definition sample_assembly_runtime : Runtime := {|
  get_function_pointer := get_function_pointer sample_runtime;
  GetManagedClassFromType := GetManagedClassFromType sample_runtime;
  TypeIsValueType := fun h => h =? 32;
  TypeIsEnum := TypeIsEnum sample_runtime;
  GetManagedClasses := fun h =>
    if h =? 900 then
      [NativeClassDefinitions.mk 31 (Some "Player") (Some "Game.Player") (Some "Game") 0x100001;
       NativeClassDefinitions.mk 32 (Some "Score") (Some "Game.Score") (Some "Game") 0x100109]
    else [];
  GetClassMethods := GetClassMethods sample_runtime;
  GetClassFields := GetClassFields sample_runtime;
  GetClassProperties := GetClassProperties sample_runtime;
  GetObjectType := GetObjectType sample_runtime;
  InvokeMethod := InvokeMethod sample_runtime;
  NewGCHandleWeak := NewGCHandleWeak sample_runtime
|}.

(** The bridge with one assembly object that is marked as loaded and has no
    image yet, and the same after its image was loaded from Game.dll. *)
Definition sample_unloaded : Bridge :=
  set_assemblyObjects [MAssembly.mk nullptr true false ∅] initial.

Definition sample_loaded : Bridge :=
  match MAssembly_LoadImage sample_assembly_runtime sample_more sample_files 0
          "Game.dll" EmptyString sample_unloaded with
  | Ok (_, s) => s
  | Fail _ => sample_unloaded
  end.

(** [x] is the first element of [l] that satisfies [f]. *)
Definition first_match {A} (f : A -> bool) (l : list A) (x : A) : Prop :=
  exists i, l !! i = Some x
            /\ f x = true
            /\ forall j y, (j < i)%nat -> l !! j = Some y -> f y = false.

(** The test of [MClass::GetMethod] on one method wrapper. *)
Definition method_matches (name : string) (numParams : Z) (m : MMethod.t) : bool :=
  String.eqb (MMethod._name m) name && (MMethod._paramsCount m =? numParams).

(** The runtime describes a handle under itself. *)
Definition canonical (rt : Runtime) (typeHandle : handle) : Prop :=
  NativeClassDefinitions.typeHandle (GetManagedClassFromType rt typeHandle).1 = typeHandle.

(** The handle the runtime answers when the image at a path is loaded. *)
Definition image_handle (rx : RuntimeMore) (files : string -> list Z) (path : string) : handle :=
  (LoadAssemblyImage rx (files path) path).1.1.

(** The sample runtime with an exception class that has no
    [InnerException] property. *)
Definition sample_bare_runtime : Runtime := {|
  get_function_pointer := get_function_pointer sample_runtime;
  GetManagedClassFromType := GetManagedClassFromType sample_runtime;
  TypeIsValueType := TypeIsValueType sample_runtime;
  TypeIsEnum := TypeIsEnum sample_runtime;
  GetManagedClasses := GetManagedClasses sample_runtime;
  GetClassMethods := GetClassMethods sample_runtime;
  GetClassFields := GetClassFields sample_runtime;
  GetClassProperties := fun _ =>
    [NativePropertyDefinitions.mk (Some "Message") 201 0 0x0946 0;
     NativePropertyDefinitions.mk (Some "StackTrace") 202 0 0x0946 0];
  GetObjectType := GetObjectType sample_runtime;
  InvokeMethod := InvokeMethod sample_runtime;
  NewGCHandleWeak := NewGCHandleWeak sample_runtime
|}.

(** The wrapper [m] of class [this] carries what the descriptor [d] says. *)
Definition method_mirrors (this : nat) (d : NativeMethodDefinitions.t) (m : MMethod.t) : Prop :=
  MMethod._name m = StringAnsi (NativeMethodDefinitions.name d)
  /\ MMethod._handle m = NativeMethodDefinitions.handle_ d
  /\ MMethod._paramsCount m = NativeMethodDefinitions.numParameters d
  /\ MMethod._parentClass m = this
  /\ method_visibility (NativeMethodDefinitions.methodAttributes d) = Ok (MMethod._visibility m)
  /\ MMethod._isStatic m
     = (Z.land (NativeMethodDefinitions.methodAttributes d) MMethodAttributes.Static
        =? MMethodAttributes.Static).

(** ** The gateway cache over time *)

(** The cache holds what the runtime answered: a cached pointer is the one
    [get_function_pointer] reports for its name, with the success status. *)
Definition cache_inv (rt : Runtime) (s : Bridge) : Prop :=
  forall n fn, CachedFunctions s !! n = Some fn -> get_function_pointer rt n = (0, fn).

(** The rest of the life of the process, as far as the gateway is
    concerned.  [CachedFunctions] is written in [GetStaticMethodPointer] and
    nowhere else, and only there is a lookup logged: whatever runs later is a
    sequence of resolutions, of any names, and of steps that leave the cache
    and the lookups in the log alone. *)
Inductive later (rt : Runtime) : Bridge -> Bridge -> Prop :=
| later_now s : later rt s s
| later_resolve s n fn s1 s2 :
    GetStaticMethodPointer rt n s = Ok (fn, s1) -> later rt s1 s2 -> later rt s s2
| later_other s s1 s2 :
    CachedFunctions s1 = CachedFunctions s ->
    (forall n, lookups n s1 = lookups n s) ->
    later rt s1 s2 -> later rt s s2.

(** ** The managed heap, as far as a weak handle goes

    The collector belongs to the managed runtime, whose code is not among
    the sources: a heap is a parameter.  All the native side can say about it
    is which objects are reachable at a given moment; the set may have shrunk
    whenever the native side looks again. *)
Definition ManagedHeap : Type := handle -> bool.

Definition live (heap : ManagedHeap) (obj : handle) : Prop :=
  obj <> nullptr /\ heap obj = true.

Definition unreachable (heap : ManagedHeap) (obj : handle) : Prop := heap obj = false.

(** The contract of the managed entry point [NewGCHandleWeak] (managed code,
    not among the sources): a weak handle allocated for a live object is not
    the null handle. *)
Definition allocates_weak_handles (rt : Runtime) (heap : ManagedHeap) : Prop :=
  forall obj trackResurrection,
    live heap obj -> NewGCHandleWeak rt obj trackResurrection <> nullptr.

(** The sample heap: the three exception objects are reachable. *)
Definition sample_heap : ManagedHeap :=
  fun obj => (obj =? 1001) || (obj =? 1002) || (obj =? 1003).

(** ** Wrappers by handle *)

(** The handle under which the wrapper of a queried handle is found after
    [GetOrCreateClass]: the handle itself when it is registered, and the
    handle the runtime describes it under when the wrapper has to be made. *)
Definition wrapped_handle (rt : Runtime) (s : Bridge) (typeHandle : handle) : handle :=
  match classHandles s !! typeHandle with
  | Some _ => typeHandle
  | None => NativeClassDefinitions.typeHandle (GetManagedClassFromType rt typeHandle).1
  end.

(** ** A runtime whose classes belong to an assembly *)

(** A runtime whose exception class, 31, belongs to the assembly 900, which
    lists it among its classes. *)
Definition sample_owned_describe (h : handle) : NativeClassDefinitions.t :=
  if h =? 32 then
    NativeClassDefinitions.mk 32 (Some "Score") (Some "Game.Score") (Some "Game") 0x100109
  else
    NativeClassDefinitions.mk h (Some "GameException") (Some "Game.GameException")
      (Some "Game") 0x102001.

Definition sample_owned_runtime : Runtime := {|
  get_function_pointer := get_function_pointer sample_runtime;
  GetManagedClassFromType := fun h => (sample_owned_describe h, 900);
  TypeIsValueType := fun h => h =? 32;
  TypeIsEnum := TypeIsEnum sample_runtime;
  GetManagedClasses := fun h =>
    if h =? 900 then [sample_owned_describe 31; sample_owned_describe 32] else [];
  GetClassMethods := GetClassMethods sample_runtime;
  GetClassFields := GetClassFields sample_runtime;
  GetClassProperties := GetClassProperties sample_runtime;
  GetObjectType := fun _ => 31;
  InvokeMethod := InvokeMethod sample_runtime;
  NewGCHandleWeak := NewGCHandleWeak sample_runtime
|}.

(** The class of a handle has its wrapper, or [GetOrCreateClass] can make
    it: the handle is canonical and not registered, and the assembly the
    runtime names for it has no wrapper. *)
Definition wrappable (rt : Runtime) (s : Bridge) (classHandle : handle) : Prop :=
  mirrored rt s classHandle
  \/ (classHandles s !! classHandle = None
      /\ canonical rt classHandle
      /\ assemblyHandles s !! (GetManagedClassFromType rt classHandle).2 = None).

(** * Properties *)

(** Projections of updated states, and nothing else. *)
Ltac simpl_bridge :=
  cbn [CachedFunctions classHandles assemblyHandles classObjects assemblyObjects
       exceptionObjects nextException calls
       set_CachedFunctions set_classHandles set_classObjects set_assemblyObjects
       set_exceptionObjects set_nextException set_calls fst snd] in *.

(** ** The monad's equations *)

Lemma bind_Ok {A B} (m : M A) (k : A -> M B) s a s' :
  m s = Ok (a, s') -> bind m k s = k a s'.
Proof. intros E. unfold bind. now rewrite E. Qed.

Lemma bind_ret {A B} (a : A) (k : A -> M B) s : bind (ret a) k s = k a s.
Proof. reflexivity. Qed.

Lemma bind_gets {A B} (f : Bridge -> A) (k : A -> M B) s : bind (gets f) k s = k (f s) s.
Proof. reflexivity. Qed.

Lemma bind_modify {B} (f : Bridge -> Bridge) (k : unit -> M B) s :
  bind (modify f) k s = k tt (f s).
Proof. reflexivity. Qed.

Lemma bind_lift_Ok {A B} (a : A) (k : A -> M B) s : bind (lift (Ok a)) k s = k a s.
Proof. reflexivity. Qed.

Lemma ASSERT_inv cond a s s' : ASSERT cond s = Ok (a, s') -> s' = s /\ cond = true.
Proof. unfold ASSERT. destruct cond; [now intros [= _ <-] | discriminate]. Qed.

Lemma bind_assoc {A B C} (m : M A) (f : A -> M B) (g : B -> M C) s :
  bind (bind m f) g s = bind m (fun a => bind (f a) g) s.
Proof. unfold bind. now destruct (m s) as [[a s1]|]. Qed.

Lemma bind_inv {A B} (m : M A) (k : A -> M B) s b s' :
  bind m k s = Ok (b, s') -> exists a s1, m s = Ok (a, s1) /\ k a s1 = Ok (b, s').
Proof.
  unfold bind. destruct (m s) as [[a s1]|f]; [|discriminate].
  intros E. now exists a, s1.
Qed.

(** ** The gateway *)

Section Gateway.
Context (rt : Runtime).

Lemma Dictionary_Add_fresh `{Countable K} {V} (k : K) (v : V) (d : gmap K V) :
  d !! k = None -> Dictionary_Add k v d = Ok (<[k := v]> d).
Proof. intros E. unfold Dictionary_Add. now rewrite E. Qed.

Lemma GetStaticMethodPointer_cached methodName fn s :
  CachedFunctions s !! methodName = Some fn ->
  GetStaticMethodPointer rt methodName s = Ok (fn, s).
Proof.
  intros E. unfold GetStaticMethodPointer. rewrite bind_gets, E. reflexivity.
Qed.

Lemma GetStaticMethodPointer_resolves methodName s :
  resolves rt methodName ->
  exists fn, GetStaticMethodPointer rt methodName s = Ok (fn, after_resolve rt methodName s)
             /\ CachedFunctions (after_resolve rt methodName s) !! methodName = Some fn.
Proof.
  unfold resolves, GetStaticMethodPointer, after_resolve. intros R.
  rewrite bind_gets. destruct (CachedFunctions s !! methodName) as [fn|] eqn:E.
  - exists fn. split; [reflexivity | exact E].
  - destruct (get_function_pointer rt methodName) as [rc fn] eqn:G. simpl in R. subst rc.
    exists fn. unfold log. rewrite bind_modify. simpl.
    rewrite bind_ret, bind_gets. simpl.
    rewrite (Dictionary_Add_fresh _ _ _ E), bind_lift_Ok, bind_modify. simpl.
    split; [reflexivity | apply lookup_insert_eq].
Qed.

Lemma GetStaticMethodPointer_unknown methodName s :
  CachedFunctions s !! methodName = None -> ~ resolves rt methodName ->
  GetStaticMethodPointer rt methodName s = Fail FatalLog.
Proof.
  unfold resolves, GetStaticMethodPointer. intros E R.
  rewrite bind_gets, E. destruct (get_function_pointer rt methodName) as [rc fn].
  simpl in R. unfold log. rewrite bind_modify.
  destruct (Z.eqb_spec rc 0) as [->|_]; [contradiction | reflexivity].
Qed.

Lemma CallStaticMethod_resolves {A} methodName args (answer : A) s :
  resolves rt methodName ->
  CallStaticMethod rt methodName args answer s
  = Ok (answer, after_call rt methodName args s).
Proof.
  intros R. unfold CallStaticMethod.
  destruct (GetStaticMethodPointer_resolves methodName s R) as (fn & E & _).
  rewrite (bind_Ok _ _ _ _ _ E). reflexivity.
Qed.

Lemma MCore_GC_FreeMemory_resolves {A} (ptr : option A) s :
  resolves rt "FreeMemory" ->
  MCore_GC_FreeMemory rt ptr s = Ok (tt, after_free rt ptr s).
Proof.
  intros R. destruct ptr; simpl; [|reflexivity].
  now apply CallStaticMethod_resolves.
Qed.

Lemma memo_inv_initial : memo_inv initial.
Proof. intros n. reflexivity. Qed.

Lemma memo_inv_after_resolve methodName s :
  memo_inv s -> memo_inv (after_resolve rt methodName s).
Proof.
  intros I n. unfold after_resolve.
  destruct (CachedFunctions s !! methodName) eqn:E; [apply I|].
  unfold lookups. simpl. rewrite filter_cons.
  destruct (decide (methodName = n)) as [->|Hne].
  - rewrite lookup_insert_eq. rewrite decide_True by reflexivity. simpl.
    specialize (I n). unfold lookups in I. rewrite I, E. reflexivity.
  - rewrite lookup_insert_ne by exact Hne.
    rewrite decide_False by congruence. apply I.
Qed.

Lemma memo_inv_after_call methodName args s :
  memo_inv s -> memo_inv (after_call rt methodName args s).
Proof.
  intros I n. pose proof (memo_inv_after_resolve methodName s I n) as J.
  unfold after_call. unfold lookups in *. simpl. rewrite filter_cons.
  rewrite decide_False by discriminate. exact J.
Qed.

End Gateway.

(** ** Attribute decoding *)

Lemma land_low3 (rest v : Z) : 0 <= v < 8 -> Z.land (8 * rest + v) 7 = v.
Proof.
  intros Hv. change 7 with (Z.ones 3). rewrite Z.land_ones by lia.
  change (2 ^ 3) with 8. rewrite Z.add_comm, Z.mul_comm, Z.mod_add by lia.
  apply Z.mod_small. lia.
Qed.

Lemma split_low3 (attributes : Z) :
  exists rest v, attributes = 8 * rest + v /\ 0 <= v < 8.
Proof.
  exists (attributes / 8), (attributes mod 8). split.
  - apply Z.div_mod. lia.
  - apply Z.mod_pos_bound. lia.
Qed.

Ltac decode_low3 :=
  match goal with
  | |- context [Z.land (8 * ?rest + ?v) _] =>
      let E := fresh in
      assert (E : Z.land (8 * rest + v) 7 = v) by (apply land_low3; vm_compute; split; congruence);
      cbv delta [MTypeAttributes.VisibilityMask MMethodAttributes.MemberAccessMask
                 MFieldAttributes.FieldAccessMask];
      rewrite E; reflexivity
  end.

Lemma class_visibility_total (attributes : Z) : is_ok (class_visibility attributes).
Proof.
  destruct (split_low3 attributes) as (rest & v & -> & Hv).
  unfold is_ok, class_visibility.
  cbv delta [MTypeAttributes.VisibilityMask]. rewrite (land_low3 rest v Hv).
  assert (v = 0 \/ v = 1 \/ v = 2 \/ v = 3 \/ v = 4 \/ v = 5 \/ v = 6 \/ v = 7) as C by lia.
  destruct C as [->|[->|[->|[->|[->|[->|[->| ->]]]]]]]; eexists; reflexivity.
Qed.

Lemma GetStaticMethodPointer_fails rt methodName s f :
  GetStaticMethodPointer rt methodName s = Fail f -> f = FatalLog.
Proof.
  unfold GetStaticMethodPointer. rewrite bind_gets.
  destruct (CachedFunctions s !! methodName) eqn:E; [discriminate|].
  unfold log. rewrite bind_modify.
  destruct (get_function_pointer rt methodName) as [rc fn].
  destruct (rc =? 0).
  - rewrite bind_ret, bind_gets. simpl.
    rewrite (Dictionary_Add_fresh _ _ _ E). discriminate.
  - intros [= <-]. reflexivity.
Qed.

Lemma CallStaticMethod_fails {A} rt methodName args (answer : A) s f :
  CallStaticMethod rt methodName args answer s = Fail f -> f = FatalLog.
Proof.
  unfold CallStaticMethod, bind at 1.
  destruct (GetStaticMethodPointer rt methodName s) as [[fn s1]|f'] eqn:E.
  - discriminate.
  - intros [= <-]. eapply GetStaticMethodPointer_fails, E.
Qed.

Lemma MClass_ctor_inv rt this parentAssembly handle_ name fullname namespace_ attributes s c s' :
  MClass_ctor rt this parentAssembly handle_ name fullname namespace_ attributes s = Ok (c, s') ->
  handle_ <> nullptr
  /\ class_visibility attributes = Ok (MClass._visibility c)
  /\ classHandles s !! handle_ = None
  /\ c = MClass.mk handle_ (StringAnsi name) (StringAnsi namespace_) parentAssembly
           (StringAnsi fullname) false false false false false false
           (MClass._visibility c) (class_isStatic attributes) (class_isSealed attributes)
           (class_isAbstract attributes) (class_isInterface attributes)
           (TypeIsValueType rt handle_) (TypeIsEnum rt handle_) [] [] [].
Proof.
  unfold MClass_ctor, ASSERT. intros E.
  destruct (Z.eqb_spec handle_ nullptr) as [->|Hn]; [discriminate|]. simpl in E.
  rewrite bind_ret in E.
  destruct (class_visibility attributes) as [v|] eqn:V; [|discriminate].
  rewrite bind_lift_Ok in E.
  apply bind_inv in E as (b1 & s1 & E1 & E).
  apply bind_inv in E as (b2 & s2 & E2 & E).
  rewrite bind_gets in E. unfold Dictionary_Add in E.
  destruct (classHandles s2 !! handle_) eqn:L; [discriminate|].
  rewrite bind_lift_Ok, bind_modify in E. injection E as <- <-.
  unfold CallStaticMethod in E1, E2.
  apply bind_inv in E1 as (? & s1' & R1 & E1). injection E1 as <- <-.
  apply bind_inv in E2 as (? & s2' & R2 & E2). injection E2 as <- <-.
  assert (classHandles s1' = classHandles s) as C1.
  { revert R1. unfold GetStaticMethodPointer. rewrite bind_gets.
    destruct (CachedFunctions s !! _); [now intros [= _ <-]|].
    unfold log. rewrite bind_modify.
    destruct (get_function_pointer rt _) as [rc fn]. destruct (rc =? 0); [|discriminate].
    rewrite bind_ret, bind_gets. destruct (Dictionary_Add _ _ _); [|discriminate].
    rewrite bind_lift_Ok, bind_modify. now intros [= _ <-]. }
  assert (classHandles s2' = classHandles s1') as C2.
  { revert R2. unfold GetStaticMethodPointer. rewrite bind_gets.
    destruct (CachedFunctions _ !! _); [now intros [= _ <-]|].
    unfold log. rewrite bind_modify.
    destruct (get_function_pointer rt _) as [rc fn]. destruct (rc =? 0); [|discriminate].
    rewrite bind_ret, bind_gets. destruct (Dictionary_Add _ _ _); [|discriminate].
    rewrite bind_lift_Ok, bind_modify. now intros [= _ <-]. }
  simpl in L. rewrite C2 in L. simpl in C1. simpl in L. rewrite C1 in L.
  repeat split; try assumption; reflexivity.
Qed.

Lemma MClass_ctor_never_crashes rt this parentAssembly handle_ name fullname namespace_ attributes s :
  MClass_ctor rt this parentAssembly handle_ name fullname namespace_ attributes s
  <> Fail CrashMacro.
Proof.
  unfold MClass_ctor, ASSERT.
  destruct (Z.eqb_spec handle_ nullptr) as [->|Hn]; [discriminate|]. simpl.
  rewrite bind_ret.
  destruct (class_visibility_total attributes) as [v ->]. rewrite bind_lift_Ok.
  unfold bind at 1.
  destruct (CallStaticMethod rt "TypeIsValueType" _ _ s) as [[b1 s1]|f] eqn:E1.
  2:{ apply CallStaticMethod_fails in E1 as ->. discriminate. }
  unfold bind at 1.
  destruct (CallStaticMethod rt "TypeIsEnum" _ _ s1) as [[b2 s2]|f] eqn:E2.
  2:{ apply CallStaticMethod_fails in E2 as ->. discriminate. }
  rewrite bind_gets. unfold Dictionary_Add.
  destruct (classHandles s2 !! handle_); discriminate.
Qed.

(** C3. Whatever the bits above the visibility sub-mask ([rest]), every
    value of the sub-mask decodes to its mapped visibility.  For a type all
    eight values are mapped, so the constructor of a class never takes the
    crash path of the switch.  For a method or a field the six access levels
    are mapped and the two remaining values (0, private scope, and 7) end in
    [CRASH]: no visibility is assigned by default.  The constructors assign
    exactly what the decoder yields. *)
Theorem visibility_decoding (rt : Runtime) (rest : Z) :
  ( class_visibility (8 * rest + MTypeAttributes.NotPublic) = Ok Private
    /\ class_visibility (8 * rest + MTypeAttributes.NestedPrivate) = Ok Private
    /\ class_visibility (8 * rest + MTypeAttributes.Public) = Ok Public
    /\ class_visibility (8 * rest + MTypeAttributes.NestedPublic) = Ok Public
    /\ class_visibility (8 * rest + MTypeAttributes.NestedFamily) = Ok Internal
    /\ class_visibility (8 * rest + MTypeAttributes.NestedAssembly) = Ok Internal
    /\ class_visibility (8 * rest + MTypeAttributes.NestedFamORAssem) = Ok ProtectedInternal
    /\ class_visibility (8 * rest + MTypeAttributes.NestedFamANDAssem) = Ok PrivateProtected )
  /\ ( method_visibility (8 * rest + MMethodAttributes.Private) = Ok Private
       /\ method_visibility (8 * rest + MMethodAttributes.FamANDAssem) = Ok PrivateProtected
       /\ method_visibility (8 * rest + MMethodAttributes.Assembly) = Ok Internal
       /\ method_visibility (8 * rest + MMethodAttributes.Family) = Ok Protected
       /\ method_visibility (8 * rest + MMethodAttributes.FamORAssem) = Ok ProtectedInternal
       /\ method_visibility (8 * rest + MMethodAttributes.Public) = Ok Public
       /\ method_visibility (8 * rest + MMethodAttributes.PrivateScope) = Fail CrashMacro
       /\ method_visibility (8 * rest + 7) = Fail CrashMacro )
  /\ ( field_visibility (8 * rest + MFieldAttributes.Private) = Ok Private
       /\ field_visibility (8 * rest + MFieldAttributes.FamANDAssem) = Ok PrivateProtected
       /\ field_visibility (8 * rest + MFieldAttributes.Assembly) = Ok Internal
       /\ field_visibility (8 * rest + MFieldAttributes.Family) = Ok Protected
       /\ field_visibility (8 * rest + MFieldAttributes.FamORAssem) = Ok ProtectedInternal
       /\ field_visibility (8 * rest + MFieldAttributes.Public) = Ok Public
       /\ field_visibility (8 * rest + MFieldAttributes.PrivateScope) = Fail CrashMacro
       /\ field_visibility (8 * rest + 7) = Fail CrashMacro )
  /\ ( forall attributes parentClass name handle_ paramsCount,
         match MMethod_ctor parentClass name handle_ paramsCount attributes with
         | Ok m => Ok (MMethod._visibility m)
         | Fail f => Fail f
         end = method_visibility attributes )
  /\ ( forall attributes parentClass handle_ name type,
         match MField_ctor parentClass handle_ name type attributes with
         | Ok f => Ok (MField._visibility f)
         | Fail f => Fail f
         end = field_visibility attributes )
  /\ ( forall attributes this parentAssembly handle_ name fullname namespace_ s,
         match MClass_ctor rt this parentAssembly handle_ name fullname namespace_ attributes s with
         | Ok (c, _) => class_visibility attributes = Ok (MClass._visibility c)
         | Fail f => f <> CrashMacro
         end ).
Proof.
  split; [|split; [|split; [|split; [|split]]]].
  - unfold class_visibility. repeat split; decode_low3.
  - unfold method_visibility. repeat split; decode_low3.
  - unfold field_visibility. repeat split; decode_low3.
  - intros. unfold MMethod_ctor. now destruct (method_visibility attributes).
  - intros. unfold MField_ctor. now destruct (field_visibility attributes).
  - intros.
    destruct (MClass_ctor rt this parentAssembly handle_ name fullname namespace_ attributes s)
      as [[c s']|f] eqn:E.
    + now apply MClass_ctor_inv in E as (_ & V & _).
    + intros ->. eapply MClass_ctor_never_crashes, E.
Qed.

(** ** Static, sealed, abstract *)

Lemma land_one_bit (a k : Z) : 0 <= k -> (Z.land a (2 ^ k) =? 2 ^ k) = Z.testbit a k.
Proof.
  intros Hk. destruct (Z.testbit a k) eqn:T.
  - apply Z.eqb_eq, Z.bits_inj'. intros n Hn.
    rewrite Z.land_spec, Z.pow2_bits_eqb by lia.
    destruct (Z.eqb_spec k n) as [<-|_]; [now rewrite T | apply andb_false_r].
  - apply Z.eqb_neq. intros E.
    assert (Z.testbit (Z.land a (2 ^ k)) k = Z.testbit (2 ^ k) k) as B by now rewrite E.
    rewrite Z.land_spec, Z.pow2_bits_true, T in B by lia. discriminate.
Qed.

Lemma land_two_bits (a j k : Z) :
  0 <= j -> 0 <= k ->
  (Z.land a (Z.lor (2 ^ j) (2 ^ k)) =? Z.lor (2 ^ j) (2 ^ k))
  = Z.testbit a j && Z.testbit a k.
Proof.
  intros Hj Hk. destruct (Z.testbit a j && Z.testbit a k) eqn:T.
  - apply andb_prop in T as [Tj Tk].
    apply Z.eqb_eq, Z.bits_inj'. intros n Hn.
    rewrite Z.land_spec, Z.lor_spec, !Z.pow2_bits_eqb by lia.
    destruct (Z.eqb_spec j n) as [<-|_]; [now rewrite Tj|].
    destruct (Z.eqb_spec k n) as [<-|_]; [now rewrite Tk|]. apply andb_false_r.
  - apply Z.eqb_neq. intros E.
    assert (forall n, 0 <= n -> Z.testbit a n && (Z.testbit (2 ^ j) n || Z.testbit (2 ^ k) n)
                               = (Z.testbit (2 ^ j) n || Z.testbit (2 ^ k) n)) as B.
    { intros n Hn. rewrite <- Z.lor_spec, <- Z.land_spec. now rewrite E. }
    pose proof (B j Hj) as Bj. pose proof (B k Hk) as Bk.
    rewrite (Z.pow2_bits_true j) in Bj by lia. rewrite (Z.pow2_bits_true k) in Bk by lia.
    rewrite orb_true_r in Bk. simpl in Bj. rewrite !andb_true_r in *.
    rewrite Bj, Bk in T. discriminate.
Qed.

Lemma class_isStatic_bits (attributes : Z) :
  class_isStatic attributes = Z.testbit attributes 7 && Z.testbit attributes 8.
Proof. apply (land_two_bits attributes 7 8); lia. Qed.

Lemma class_isSealed_bits (attributes : Z) :
  class_isSealed attributes = negb (class_isStatic attributes) && Z.testbit attributes 8.
Proof. unfold class_isSealed. f_equal. apply (land_one_bit attributes 8). lia. Qed.

Lemma class_isAbstract_bits (attributes : Z) :
  class_isAbstract attributes = negb (class_isStatic attributes) && Z.testbit attributes 7.
Proof. unfold class_isAbstract. f_equal. apply (land_one_bit attributes 7). lia. Qed.

(** C4. A constructed class is static exactly when the Abstract bit (bit 7,
    0x80) and the Sealed bit (bit 8, 0x100) of its type attributes are both
    set.  A static class reports Sealed = false and Abstract = false; a class
    that is not static reports the respective bit. *)
Theorem static_iff_abstract_and_sealed (rt : Runtime) (this : nat) (parentAssembly : option nat)
    (handle_ : handle) (name fullname namespace_ : cstring) (attributes : Z)
    (s s' : Bridge) (c : MClass.t) :
  MClass_ctor rt this parentAssembly handle_ name fullname namespace_ attributes s = Ok (c, s') ->
  (MClass._isStatic c = true
   <-> Z.testbit attributes 7 = true /\ Z.testbit attributes 8 = true)
  /\ (MClass._isStatic c = true ->
      MClass._isSealed c = false /\ MClass._isAbstract c = false)
  /\ (MClass._isStatic c = false ->
      MClass._isSealed c = Z.testbit attributes 8
      /\ MClass._isAbstract c = Z.testbit attributes 7).
Proof.
  intros E. apply MClass_ctor_inv in E as (_ & _ & _ & ->).
  cbn [MClass._isStatic MClass._isSealed MClass._isAbstract].
  rewrite class_isSealed_bits, class_isAbstract_bits, class_isStatic_bits.
  generalize (Z.testbit attributes 7) (Z.testbit attributes 8).
  intros [] []; cbn; intuition congruence.
Qed.

(** A static class ([abstract sealed], 0x180 among its attributes) built from
    the initial state. *)
Lemma static_iff_abstract_and_sealed_witness :
  exists c s',
    MClass_ctor sample_runtime 0 None 100 (Some "Math") (Some "System.Math") (Some "System")
      0x100181 initial = Ok (c, s')
    /\ (MClass._isStatic c = true
        <-> Z.testbit 0x100181 7 = true /\ Z.testbit 0x100181 8 = true)
    /\ (MClass._isStatic c = true ->
        MClass._isSealed c = false /\ MClass._isAbstract c = false)
    /\ (MClass._isStatic c = false ->
        MClass._isSealed c = Z.testbit 0x100181 8
        /\ MClass._isAbstract c = Z.testbit 0x100181 7).
Proof.
  eexists. eexists. split.
  - vm_compute. reflexivity.
  - eapply (static_iff_abstract_and_sealed sample_runtime 0 None 100 (Some "Math")
              (Some "System.Math") (Some "System") 0x100181 initial).
    vm_compute. reflexivity.
Defined.

(** ** Property accessors *)

Lemma accessor_null parentClass prefix _name attributes :
  accessor parentClass prefix _name nullptr attributes = Ok None.
Proof. reflexivity. Qed.

Lemma accessor_named parentClass prefix _name accessorHandle attributes :
  accessorHandle <> nullptr ->
  is_ok (method_visibility attributes) ->
  exists m, accessor parentClass prefix _name accessorHandle attributes = Ok (Some m)
            /\ MMethod._name m = prefix +:+ _name
            /\ MMethod._handle m = accessorHandle
            /\ MMethod._parentClass m = parentClass.
Proof.
  intros Hn [v V]. unfold accessor, MMethod_ctor.
  destruct (Z.eqb_spec accessorHandle nullptr) as [?|_]; [contradiction|]. simpl.
  rewrite V. eexists. repeat split.
Qed.

(** C7. A property descriptor whose accessor handles, where not null, carry
    decodable access attributes yields a wrapper; the wrapper keeps the
    property name; its get-accessor is null exactly when the getter handle is
    null and is otherwise a method named "get_" + the property name on that
    handle; and likewise its set-accessor with "set_" and the setter handle.
    In particular a non-null getter with a null setter gives a non-null
    get-accessor "get_" + name and a null set-accessor. *)
Theorem property_accessors (parentClass : nat) (name : cstring)
    (getterHandle setterHandle : handle) (getterAttributes setterAttributes : Z) :
  (getterHandle <> nullptr -> is_ok (method_visibility getterAttributes)) ->
  (setterHandle <> nullptr -> is_ok (method_visibility setterAttributes)) ->
  exists p,
    MProperty_ctor parentClass name getterHandle setterHandle
      getterAttributes setterAttributes = Ok p
    /\ MProperty._name p = StringAnsi name
    /\ (if getterHandle =? nullptr then MProperty_GetGetMethod p = None
        else exists m, MProperty_GetGetMethod p = Some m
                       /\ MMethod._name m = "get_" +:+ StringAnsi name
                       /\ MMethod._handle m = getterHandle)
    /\ (if setterHandle =? nullptr then MProperty_GetSetMethod p = None
        else exists m, MProperty_GetSetMethod p = Some m
                       /\ MMethod._name m = "set_" +:+ StringAnsi name
                       /\ MMethod._handle m = setterHandle).
Proof.
  intros Hg Hs. unfold MProperty_ctor.
  destruct (Z.eqb_spec getterHandle nullptr) as [->|Gn];
    destruct (Z.eqb_spec setterHandle nullptr) as [->|Sn].
  - rewrite !accessor_null. eexists. repeat split.
  - rewrite accessor_null.
    destruct (accessor_named parentClass "set_" (StringAnsi name) setterHandle
                setterAttributes Sn (Hs Sn)) as (m & -> & Nm & Hm & _).
    eexists. repeat split. exists m. repeat split; assumption.
  - rewrite accessor_null.
    destruct (accessor_named parentClass "get_" (StringAnsi name) getterHandle
                getterAttributes Gn (Hg Gn)) as (m & -> & Nm & Hm & _).
    eexists. repeat split. exists m. repeat split; assumption.
  - destruct (accessor_named parentClass "get_" (StringAnsi name) getterHandle
                getterAttributes Gn (Hg Gn)) as (m & -> & Nm & Hm & _).
    destruct (accessor_named parentClass "set_" (StringAnsi name) setterHandle
                setterAttributes Sn (Hs Sn)) as (m' & -> & Nm' & Hm' & _).
    eexists. repeat split; [exists m | exists m']; repeat split; assumption.
Qed.

(** The read-only property "Message": getter handle 201 with public access,
    no setter. *)
Lemma property_accessors_witness :
  exists p,
    MProperty_ctor 0 (Some "Message") 201 0 0x0946 0 = Ok p
    /\ MProperty._name p = "Message"
    /\ (exists m, MProperty_GetGetMethod p = Some m
                  /\ MMethod._name m = "get_Message"
                  /\ MMethod._handle m = 201)
    /\ MProperty_GetSetMethod p = None.
Proof.
  refine (property_accessors 0 (Some "Message") 201 0 0x0946 0 _ _).
  - intros _. exists Public. reflexivity.
  - intros C. exfalso. apply C. reflexivity.
Defined.

(** ** Invocation *)

(** C8. On every method, instance, argument array, exception slot and
    bridge state, [InvokeVirtual] is the same computation as [Invoke]: the
    same returned object, the same content of the exception slot, the same
    state and log of cross-boundary calls afterwards, or the same failure. *)
Theorem InvokeVirtual_is_Invoke (rt : Runtime) (this : MMethod.t) (instance : handle)
    (params : option (list handle)) (exception : option handle) (s : Bridge) :
  MMethod_InvokeVirtual rt this instance params exception s
  = MMethod_Invoke rt this instance params exception s.
Proof. reflexivity. Qed.

(** ** The lookup that does not create *)

(** C10. [GetClass] returns [nullptr] for every type handle and every
    state of the identity map, also when the handle is registered: the
    wrapper found by the lookup is dropped.  The state is left as it was. *)
Theorem GetClass_returns_null (typeHandle : handle) (s : Bridge) :
  GetClass typeHandle s = Ok (None, s)
  /\ forall klass, GetClass typeHandle (set_classHandles (<[typeHandle := klass]> (classHandles s)) s)
                   = Ok (None, set_classHandles (<[typeHandle := klass]> (classHandles s)) s).
Proof. split; reflexivity. Qed.

(** ** States after a managed call *)

Section Frames.
Context (rt : Runtime).

Lemma same_objects_refl s : same_objects s s.
Proof. repeat split. Qed.

Lemma same_objects_trans s1 s2 s3 :
  same_objects s1 s2 -> same_objects s2 s3 -> same_objects s1 s3.
Proof.
  intros (A1 & A2 & A3 & A4 & A5) (B1 & B2 & B3 & B4 & B5).
  repeat split; congruence.
Qed.

Lemma after_resolve_same n s : same_objects s (after_resolve rt n s).
Proof. unfold after_resolve. destruct (CachedFunctions s !! n); repeat split. Qed.

Lemma after_resolve_classObjects n s : classObjects (after_resolve rt n s) = classObjects s.
Proof. unfold after_resolve. now destruct (CachedFunctions s !! n). Qed.

Lemma after_call_same n args s : same_objects s (after_call rt n args s).
Proof. unfold after_call. destruct (after_resolve_same n s) as (?&?&?&?&?). repeat split; assumption. Qed.

Lemma after_call_classObjects n args s : classObjects (after_call rt n args s) = classObjects s.
Proof. unfold after_call. simpl. apply after_resolve_classObjects. Qed.

Lemma after_free_same {A} (ptr : option A) s : same_objects s (after_free rt ptr s).
Proof. destruct ptr; [apply after_call_same | apply same_objects_refl]. Qed.

Lemma after_free_classObjects {A} (ptr : option A) s :
  classObjects (after_free rt ptr s) = classObjects s.
Proof. destruct ptr; [apply after_call_classObjects | reflexivity]. Qed.

Lemma deref_class_Some k c s :
  classObjects s !! k = Some c -> deref_class k s = Ok (c, s).
Proof. intros E. unfold deref_class. rewrite bind_gets, E. reflexivity. Qed.

Lemma deref_class_inv k c s s' :
  deref_class k s = Ok (c, s') -> s' = s /\ classObjects s !! k = Some c.
Proof.
  unfold deref_class. rewrite bind_gets.
  destruct (classObjects s !! k); [|discriminate]. now intros [= <- <-].
Qed.

Lemma update_class_Some k f c s :
  classObjects s !! k = Some c ->
  update_class k f s = Ok (tt, set_classObjects (<[k := f c]> (classObjects s)) s).
Proof. intros E. unfold update_class. now rewrite (bind_Ok _ _ _ _ _ (deref_class_Some k c s E)). Qed.

Lemma update_class_inv k f s s' :
  update_class k f s = Ok (tt, s') ->
  exists c, classObjects s !! k = Some c
            /\ s' = set_classObjects (<[k := f c]> (classObjects s)) s
            /\ classObjects s' !! k = Some (f c).
Proof.
  unfold update_class. intros E. apply bind_inv in E as (c & s1 & D & E).
  apply deref_class_inv in D as [-> D]. injection E as <-.
  exists c. repeat split; [exact D|]. simpl.
  apply list_lookup_insert_eq. eapply lookup_lt_Some, D.
Qed.

Lemma GetStaticMethodPointer_inv n s fn s' :
  GetStaticMethodPointer rt n s = Ok (fn, s') -> s' = after_resolve rt n s.
Proof.
  unfold GetStaticMethodPointer, after_resolve. rewrite bind_gets.
  destruct (CachedFunctions s !! n) eqn:C; [now intros [= _ <-]|].
  unfold log. rewrite bind_modify.
  destruct (get_function_pointer rt n) as [rc fn']. destruct (rc =? 0); [|discriminate].
  rewrite bind_ret, bind_gets. simpl.
  rewrite (Dictionary_Add_fresh _ _ _ C), bind_lift_Ok, bind_modify.
  now intros [= _ <-].
Qed.

Lemma CallStaticMethod_inv {A} n args (answer a : A) s s' :
  CallStaticMethod rt n args answer s = Ok (a, s') ->
  a = answer /\ s' = after_call rt n args s.
Proof.
  unfold CallStaticMethod. intros E. apply bind_inv in E as (fn & s1 & R & E).
  apply GetStaticMethodPointer_inv in R as ->. now injection E as <- <-.
Qed.

Lemma MCore_GC_FreeMemory_inv {A} (ptr : option A) u s s' :
  MCore_GC_FreeMemory rt ptr s = Ok (u, s') -> s' = after_free rt ptr s.
Proof.
  destruct ptr; simpl.
  - intros E. now apply CallStaticMethod_inv in E as [_ ->].
  - now intros [= _ <-].
Qed.

End Frames.

(** ** Populate-once member caches *)

Section MemberCaches.
Context (rt : Runtime).

(** A populated cache answers from the class object and leaves the state,
    hence the log, untouched. *)
Lemma GetMethods_cached this c s :
  classObjects s !! this = Some c -> MClass._hasCachedMethods c = true ->
  MClass_GetMethods rt this s = Ok (MClass._methods c, s).
Proof.
  intros D F. unfold MClass_GetMethods.
  rewrite (bind_Ok _ _ _ _ _ (deref_class_Some this c s D)), F. reflexivity.
Qed.

Lemma GetFields_cached this c s :
  classObjects s !! this = Some c -> MClass._hasCachedFields c = true ->
  MClass_GetFields rt this s = Ok (MClass._fields c, s).
Proof.
  intros D F. unfold MClass_GetFields.
  rewrite (bind_Ok _ _ _ _ _ (deref_class_Some this c s D)), F. reflexivity.
Qed.

Lemma GetProperties_cached this c s :
  classObjects s !! this = Some c -> MClass._hasCachedProperties c = true ->
  MClass_GetProperties rt this s = Ok (MClass._properties c, s).
Proof.
  intros D F. unfold MClass_GetProperties.
  rewrite (bind_Ok _ _ _ _ _ (deref_class_Some this c s D)), F. reflexivity.
Qed.

(** A call that returns leaves the flag set and returns what the class
    object holds. *)
Lemma GetMethods_populates this s ms s1 :
  MClass_GetMethods rt this s = Ok (ms, s1) ->
  exists c, classObjects s1 !! this = Some c
            /\ MClass._hasCachedMethods c = true /\ MClass._methods c = ms.
Proof.
  unfold MClass_GetMethods. intros E.
  apply bind_inv in E as (c0 & s0 & D & E). apply deref_class_inv in D as [-> D].
  destruct (MClass._hasCachedMethods c0) eqn:F.
  - injection E as <- <-. now exists c0.
  - apply bind_inv in E as (defs & sa & _ & E).
    apply bind_inv in E as ([] & sb & _ & E).
    apply bind_inv in E as ([] & sc & _ & E).
    apply bind_inv in E as ([] & sd & U & E).
    apply update_class_inv in U as (cc & _ & _ & L).
    apply bind_inv in E as (c' & se & D' & E). apply deref_class_inv in D' as [-> D'].
    injection E as <- <-. rewrite L in D'. injection D' as <-.
    exists (MClass.set_hasCachedMethods true cc). now split.
Qed.

Lemma GetFields_populates this s fs s1 :
  MClass_GetFields rt this s = Ok (fs, s1) ->
  exists c, classObjects s1 !! this = Some c
            /\ MClass._hasCachedFields c = true /\ MClass._fields c = fs.
Proof.
  unfold MClass_GetFields. intros E.
  apply bind_inv in E as (c0 & s0 & D & E). apply deref_class_inv in D as [-> D].
  destruct (MClass._hasCachedFields c0) eqn:F.
  - injection E as <- <-. now exists c0.
  - apply bind_inv in E as (defs & sa & _ & E).
    apply bind_inv in E as ([] & sb & _ & E).
    apply bind_inv in E as ([] & sc & _ & E).
    apply bind_inv in E as ([] & sd & U & E).
    apply update_class_inv in U as (cc & _ & _ & L).
    apply bind_inv in E as (c' & se & D' & E). apply deref_class_inv in D' as [-> D'].
    injection E as <- <-. rewrite L in D'. injection D' as <-.
    exists (MClass.set_hasCachedFields true cc). now split.
Qed.

Lemma GetProperties_populates this s ps s1 :
  MClass_GetProperties rt this s = Ok (ps, s1) ->
  exists c, classObjects s1 !! this = Some c
            /\ MClass._hasCachedProperties c = true /\ MClass._properties c = ps.
Proof.
  unfold MClass_GetProperties. intros E.
  apply bind_inv in E as (c0 & s0 & D & E). apply deref_class_inv in D as [-> D].
  destruct (MClass._hasCachedProperties c0) eqn:F.
  - injection E as <- <-. now exists c0.
  - apply bind_inv in E as (defs & sa & _ & E).
    apply bind_inv in E as ([] & sb & _ & E).
    apply bind_inv in E as ([] & sc & _ & E).
    apply bind_inv in E as ([] & sd & U & E).
    apply update_class_inv in U as (cc & _ & _ & L).
    apply bind_inv in E as (c' & se & D' & E). apply deref_class_inv in D' as [-> D'].
    injection E as <- <-. rewrite L in D'. injection D' as <-.
    exists (MClass.set_hasCachedProperties true cc). now split.
Qed.

Lemma caches_kept_refl c : caches_kept c c.
Proof. repeat split; assumption. Qed.

Lemma classes_kept_refl s : classes_kept s s.
Proof. intros k c D. exists c. split; [exact D | apply caches_kept_refl]. Qed.

Lemma classes_kept_insert s s' k c c' :
  classObjects s !! k = Some c ->
  classObjects s' = <[k := c']> (classObjects s) ->
  caches_kept c c' ->
  classes_kept s s'.
Proof.
  intros D C K k0 c0 D0. rewrite C. destruct (decide (k0 = k)) as [->|Hne].
  - exists c'. split.
    + apply list_lookup_insert_eq. eapply lookup_lt_Some, D.
    + congruence.
  - exists c0. split; [|apply caches_kept_refl].
    rewrite list_lookup_insert_ne by congruence. exact D0.
Qed.

Lemma MCore_GC_FreeMemory_classObjects {A} (ptr : option A) u s s' :
  MCore_GC_FreeMemory rt ptr s = Ok (u, s') -> classObjects s' = classObjects s.
Proof. intros E. apply MCore_GC_FreeMemory_inv in E as ->. apply after_free_classObjects. Qed.

Lemma CallStaticMethod_classObjects {A} n args (answer a : A) s s' :
  CallStaticMethod rt n args answer s = Ok (a, s') ->
  a = answer /\ classObjects s' = classObjects s.
Proof.
  intros E. apply CallStaticMethod_inv in E as [-> ->].
  split; [reflexivity | apply after_call_classObjects].
Qed.

(** Each population loop rewrites one member list of the class object it
    runs on and no other class object. *)
Lemma cache_methods_inv this : forall defs u s s' c,
  cache_methods rt this defs s = Ok (u, s') ->
  classObjects s !! this = Some c ->
  exists ms, classObjects s' = <[this := MClass.set_methods ms c]> (classObjects s).
Proof.
  induction defs as [|d rest IH]; intros u s s' c E D; simpl in E.
  - injection E as _ <-. exists (MClass._methods c).
    symmetry. apply list_insert_id. rewrite D. f_equal. now destruct c.
  - destruct (MMethod_ctor _ _ _ _ _) as [m|]; [|discriminate].
    rewrite bind_lift_Ok in E.
    apply bind_inv in E as ([] & s1 & U & E).
    apply update_class_inv in U as (c0 & D0 & -> & D1).
    rewrite D in D0. injection D0 as <-.
    apply bind_inv in E as (u2 & s2 & F & E).
    apply MCore_GC_FreeMemory_classObjects in F.
    rewrite <- F in D1.
    destruct (IH _ _ _ _ E D1) as (ms & C). exists ms. rewrite C, F. simpl_bridge.
    now rewrite list_insert_insert_eq.
Qed.

Lemma cache_fields_inv this : forall defs u s s' c,
  cache_fields rt this defs s = Ok (u, s') ->
  classObjects s !! this = Some c ->
  exists fs, classObjects s' = <[this := MClass.set_fields fs c]> (classObjects s).
Proof.
  induction defs as [|d rest IH]; intros u s s' c E D; simpl in E.
  - injection E as _ <-. exists (MClass._fields c).
    symmetry. apply list_insert_id. rewrite D. f_equal. now destruct c.
  - destruct (MField_ctor _ _ _ _ _) as [f|]; [|discriminate].
    rewrite bind_lift_Ok in E.
    apply bind_inv in E as ([] & s1 & U & E).
    apply update_class_inv in U as (c0 & D0 & -> & D1).
    rewrite D in D0. injection D0 as <-.
    apply bind_inv in E as (u2 & s2 & F & E).
    apply MCore_GC_FreeMemory_classObjects in F.
    rewrite <- F in D1.
    destruct (IH _ _ _ _ E D1) as (fs & C). exists fs. rewrite C, F. simpl_bridge.
    now rewrite list_insert_insert_eq.
Qed.

Lemma cache_properties_inv this : forall defs u s s' c,
  cache_properties rt this defs s = Ok (u, s') ->
  classObjects s !! this = Some c ->
  exists ps, classObjects s' = <[this := MClass.set_properties ps c]> (classObjects s).
Proof.
  induction defs as [|d rest IH]; intros u s s' c E D; simpl in E.
  - injection E as _ <-. exists (MClass._properties c).
    symmetry. apply list_insert_id. rewrite D. f_equal. now destruct c.
  - destruct (MProperty_ctor _ _ _ _ _ _) as [p|]; [|discriminate].
    rewrite bind_lift_Ok in E.
    apply bind_inv in E as ([] & s1 & U & E).
    apply update_class_inv in U as (c0 & D0 & -> & D1).
    rewrite D in D0. injection D0 as <-.
    apply bind_inv in E as (u2 & s2 & F & E).
    apply MCore_GC_FreeMemory_classObjects in F.
    rewrite <- F in D1.
    destruct (IH _ _ _ _ E D1) as (ps & C). exists ps. rewrite C, F. simpl_bridge.
    now rewrite list_insert_insert_eq.
Qed.

(** No getter unsets a populated flag or alters a populated sequence, of
    its own class object or of any other. *)
Lemma GetMethods_keeps this s ms s' :
  MClass_GetMethods rt this s = Ok (ms, s') -> classes_kept s s'.
Proof.
  unfold MClass_GetMethods. intros E.
  apply bind_inv in E as (c & s0 & D & E). apply deref_class_inv in D as [-> D].
  destruct (MClass._hasCachedMethods c) eqn:F.
  - injection E as _ <-. apply classes_kept_refl.
  - apply bind_inv in E as (defs & sa & Ea & E).
    apply CallStaticMethod_classObjects in Ea as [_ Ca].
    apply bind_inv in E as (ub & sb & Eb & E).
    rewrite <- Ca in D. destruct (cache_methods_inv _ _ _ _ _ _ Eb D) as (ms' & Cb).
    apply bind_inv in E as (uc & sc & Ec & E).
    apply MCore_GC_FreeMemory_classObjects in Ec.
    apply bind_inv in E as ([] & sd & U & E).
    apply update_class_inv in U as (cc & Dc & -> & _).
    apply bind_inv in E as (c' & se & D' & E). apply deref_class_inv in D' as [-> _].
    injection E as _ <-.
    assert (cc = MClass.set_methods ms' c) as ->.
    { rewrite Ec, Cb in Dc. rewrite list_lookup_insert_eq in Dc by (eapply lookup_lt_Some, D).
      congruence. }
    rewrite Ca in D.
    eapply (classes_kept_insert s _ this c); [exact D| |].
    + simpl_bridge. rewrite Ec, Cb, list_insert_insert_eq, Ca. reflexivity.
    + repeat split; try assumption; simpl in *; congruence.
Qed.

Lemma GetFields_keeps this s fs s' :
  MClass_GetFields rt this s = Ok (fs, s') -> classes_kept s s'.
Proof.
  unfold MClass_GetFields. intros E.
  apply bind_inv in E as (c & s0 & D & E). apply deref_class_inv in D as [-> D].
  destruct (MClass._hasCachedFields c) eqn:F.
  - injection E as _ <-. apply classes_kept_refl.
  - apply bind_inv in E as (defs & sa & Ea & E).
    apply CallStaticMethod_classObjects in Ea as [_ Ca].
    apply bind_inv in E as (ub & sb & Eb & E).
    rewrite <- Ca in D. destruct (cache_fields_inv _ _ _ _ _ _ Eb D) as (fs' & Cb).
    apply bind_inv in E as (uc & sc & Ec & E).
    apply MCore_GC_FreeMemory_classObjects in Ec.
    apply bind_inv in E as ([] & sd & U & E).
    apply update_class_inv in U as (cc & Dc & -> & _).
    apply bind_inv in E as (c' & se & D' & E). apply deref_class_inv in D' as [-> _].
    injection E as _ <-.
    assert (cc = MClass.set_fields fs' c) as ->.
    { rewrite Ec, Cb in Dc. rewrite list_lookup_insert_eq in Dc by (eapply lookup_lt_Some, D).
      congruence. }
    rewrite Ca in D.
    eapply (classes_kept_insert s _ this c); [exact D| |].
    + simpl_bridge. rewrite Ec, Cb, list_insert_insert_eq, Ca. reflexivity.
    + repeat split; try assumption; simpl in *; congruence.
Qed.

Lemma GetProperties_keeps this s ps s' :
  MClass_GetProperties rt this s = Ok (ps, s') -> classes_kept s s'.
Proof.
  unfold MClass_GetProperties. intros E.
  apply bind_inv in E as (c & s0 & D & E). apply deref_class_inv in D as [-> D].
  destruct (MClass._hasCachedProperties c) eqn:F.
  - injection E as _ <-. apply classes_kept_refl.
  - apply bind_inv in E as (defs & sa & Ea & E).
    apply CallStaticMethod_classObjects in Ea as [_ Ca].
    apply bind_inv in E as (ub & sb & Eb & E).
    rewrite <- Ca in D. destruct (cache_properties_inv _ _ _ _ _ _ Eb D) as (ps' & Cb).
    apply bind_inv in E as (uc & sc & Ec & E).
    apply MCore_GC_FreeMemory_classObjects in Ec.
    apply bind_inv in E as ([] & sd & U & E).
    apply update_class_inv in U as (cc & Dc & -> & _).
    apply bind_inv in E as (c' & se & D' & E). apply deref_class_inv in D' as [-> _].
    injection E as _ <-.
    assert (cc = MClass.set_properties ps' c) as ->.
    { rewrite Ec, Cb in Dc. rewrite list_lookup_insert_eq in Dc by (eapply lookup_lt_Some, D).
      congruence. }
    rewrite Ca in D.
    eapply (classes_kept_insert s _ this c); [exact D| |].
    + simpl_bridge. rewrite Ec, Cb, list_insert_insert_eq, Ca. reflexivity.
    + repeat split; try assumption; simpl in *; congruence.
Qed.

Lemma managed_calls_after_resolve n args n' s :
  managed_calls n args (after_resolve rt n' s) = managed_calls n args s.
Proof.
  unfold after_resolve, managed_calls. destruct (CachedFunctions s !! n'); [reflexivity|].
  simpl_bridge. rewrite filter_cons. now rewrite decide_False by discriminate.
Qed.

Lemma managed_calls_after_call n args n' args' s :
  managed_calls n args (after_call rt n' args' s)
  = ((if decide (Managed n' args' = Managed n args) then 1 else 0) + managed_calls n args s)%nat.
Proof.
  pose proof (managed_calls_after_resolve n args n' s) as R.
  unfold after_call, managed_calls in *. simpl_bridge. rewrite filter_cons.
  destruct (decide (Managed n' args' = Managed n args)); simpl; now rewrite R.
Qed.

Lemma managed_calls_after_free {A} n args (ptr : option A) s :
  n <> "FreeMemory" ->
  managed_calls n args (after_free rt ptr s) = managed_calls n args s.
Proof.
  intros Hn. destruct ptr; [|reflexivity]. unfold after_free.
  rewrite managed_calls_after_call. rewrite decide_False by congruence. reflexivity.
Qed.

Lemma managed_calls_update n args k f u s s' :
  update_class k f s = Ok (u, s') -> managed_calls n args s' = managed_calls n args s.
Proof.
  unfold update_class. intros E. apply bind_inv in E as (c & s0 & D & E).
  apply deref_class_inv in D as [-> _]. now injection E as _ <-.
Qed.

(** The population loops call [FreeMemory] only. *)
Lemma cache_methods_calls n args this : n <> "FreeMemory" ->
  forall defs u s s', cache_methods rt this defs s = Ok (u, s') ->
                      managed_calls n args s' = managed_calls n args s.
Proof.
  intros Hn. induction defs as [|d rest IH]; intros u s s' E; simpl in E.
  - now injection E as _ <-.
  - destruct (MMethod_ctor _ _ _ _ _) as [m|]; [|discriminate].
    rewrite bind_lift_Ok in E.
    apply bind_inv in E as (u1 & s1 & U & E). apply (managed_calls_update n args) in U.
    apply bind_inv in E as (u2 & s2 & F & E). apply MCore_GC_FreeMemory_inv in F as ->.
    apply IH in E. now rewrite E, managed_calls_after_free.
Qed.

Lemma cache_fields_calls n args this : n <> "FreeMemory" ->
  forall defs u s s', cache_fields rt this defs s = Ok (u, s') ->
                      managed_calls n args s' = managed_calls n args s.
Proof.
  intros Hn. induction defs as [|d rest IH]; intros u s s' E; simpl in E.
  - now injection E as _ <-.
  - destruct (MField_ctor _ _ _ _ _) as [f|]; [|discriminate].
    rewrite bind_lift_Ok in E.
    apply bind_inv in E as (u1 & s1 & U & E). apply (managed_calls_update n args) in U.
    apply bind_inv in E as (u2 & s2 & F & E). apply MCore_GC_FreeMemory_inv in F as ->.
    apply IH in E. now rewrite E, managed_calls_after_free.
Qed.

Lemma cache_properties_calls n args this : n <> "FreeMemory" ->
  forall defs u s s', cache_properties rt this defs s = Ok (u, s') ->
                      managed_calls n args s' = managed_calls n args s.
Proof.
  intros Hn. induction defs as [|d rest IH]; intros u s s' E; simpl in E.
  - now injection E as _ <-.
  - destruct (MProperty_ctor _ _ _ _ _ _) as [p|]; [|discriminate].
    rewrite bind_lift_Ok in E.
    apply bind_inv in E as (u1 & s1 & U & E). apply (managed_calls_update n args) in U.
    apply bind_inv in E as (u2 & s2 & F & E). apply MCore_GC_FreeMemory_inv in F as ->.
    apply IH in E. now rewrite E, managed_calls_after_free.
Qed.

(** A getter that returns has issued its describe call once if the cache
    was empty and not at all if it was populated. *)
Lemma GetMethods_calls this s ms s' c :
  MClass_GetMethods rt this s = Ok (ms, s') ->
  classObjects s !! this = Some c ->
  managed_calls "GetClassMethods" [MClass._handle c] s'
  = ((if MClass._hasCachedMethods c then 0 else 1)
     + managed_calls "GetClassMethods" [MClass._handle c] s)%nat.
Proof.
  unfold MClass_GetMethods. intros E D.
  apply bind_inv in E as (c0 & s0 & D0 & E). apply deref_class_inv in D0 as [-> D0].
  rewrite D in D0. injection D0 as <-.
  destruct (MClass._hasCachedMethods c).
  - now injection E as _ <-.
  - apply bind_inv in E as (defs & sa & Ea & E). apply CallStaticMethod_inv in Ea as [_ ->].
    apply bind_inv in E as (ub & sb & Eb & E).
    apply (cache_methods_calls "GetClassMethods" [MClass._handle c]) in Eb; [|discriminate].
    apply bind_inv in E as (uc & sc & Ec & E). apply MCore_GC_FreeMemory_inv in Ec as ->.
    apply bind_inv in E as (ud & sd & U & E).
    apply (managed_calls_update "GetClassMethods" [MClass._handle c]) in U.
    apply bind_inv in E as (c' & se & D' & E). apply deref_class_inv in D' as [-> _].
    injection E as _ <-.
    rewrite U, managed_calls_after_free, Eb, managed_calls_after_call by discriminate.
    now rewrite decide_True by reflexivity.
Qed.

Lemma GetFields_calls this s fs s' c :
  MClass_GetFields rt this s = Ok (fs, s') ->
  classObjects s !! this = Some c ->
  managed_calls "GetClassFields" [MClass._handle c] s'
  = ((if MClass._hasCachedFields c then 0 else 1)
     + managed_calls "GetClassFields" [MClass._handle c] s)%nat.
Proof.
  unfold MClass_GetFields. intros E D.
  apply bind_inv in E as (c0 & s0 & D0 & E). apply deref_class_inv in D0 as [-> D0].
  rewrite D in D0. injection D0 as <-.
  destruct (MClass._hasCachedFields c).
  - now injection E as _ <-.
  - apply bind_inv in E as (defs & sa & Ea & E). apply CallStaticMethod_inv in Ea as [_ ->].
    apply bind_inv in E as (ub & sb & Eb & E).
    apply (cache_fields_calls "GetClassFields" [MClass._handle c]) in Eb; [|discriminate].
    apply bind_inv in E as (uc & sc & Ec & E). apply MCore_GC_FreeMemory_inv in Ec as ->.
    apply bind_inv in E as (ud & sd & U & E).
    apply (managed_calls_update "GetClassFields" [MClass._handle c]) in U.
    apply bind_inv in E as (c' & se & D' & E). apply deref_class_inv in D' as [-> _].
    injection E as _ <-.
    rewrite U, managed_calls_after_free, Eb, managed_calls_after_call by discriminate.
    now rewrite decide_True by reflexivity.
Qed.

Lemma GetProperties_calls this s ps s' c :
  MClass_GetProperties rt this s = Ok (ps, s') ->
  classObjects s !! this = Some c ->
  managed_calls "GetClassProperties" [MClass._handle c] s'
  = ((if MClass._hasCachedProperties c then 0 else 1)
     + managed_calls "GetClassProperties" [MClass._handle c] s)%nat.
Proof.
  unfold MClass_GetProperties. intros E D.
  apply bind_inv in E as (c0 & s0 & D0 & E). apply deref_class_inv in D0 as [-> D0].
  rewrite D in D0. injection D0 as <-.
  destruct (MClass._hasCachedProperties c).
  - now injection E as _ <-.
  - apply bind_inv in E as (defs & sa & Ea & E). apply CallStaticMethod_inv in Ea as [_ ->].
    apply bind_inv in E as (ub & sb & Eb & E).
    apply (cache_properties_calls "GetClassProperties" [MClass._handle c]) in Eb;
      [|discriminate].
    apply bind_inv in E as (uc & sc & Ec & E). apply MCore_GC_FreeMemory_inv in Ec as ->.
    apply bind_inv in E as (ud & sd & U & E).
    apply (managed_calls_update "GetClassProperties" [MClass._handle c]) in U.
    apply bind_inv in E as (c' & se & D' & E). apply deref_class_inv in D' as [-> _].
    injection E as _ <-.
    rewrite U, managed_calls_after_free, Eb, managed_calls_after_call by discriminate.
    now rewrite decide_True by reflexivity.
Qed.

End MemberCaches.

(** C5. For each of the three member collections of a class, once a call
    of the getter has returned: the class object has the populated flag set
    and holds the returned sequence; a further call returns that same
    sequence and leaves the bridge state as it was, so the log of
    cross-boundary calls gains no entry; no populated flag of any class was
    unset and no populated sequence altered; and the describe call of the
    collection was issued once by that call if the cache was empty before and
    not at all if it was populated. *)
Theorem member_caches_fetched_once (rt : Runtime) (this : nat) (s s1 : Bridge) :
  (forall ms, MClass_GetMethods rt this s = Ok (ms, s1) ->
     (exists c, classObjects s1 !! this = Some c
                /\ MClass._hasCachedMethods c = true /\ MClass._methods c = ms)
     /\ MClass_GetMethods rt this s1 = Ok (ms, s1)
     /\ classes_kept s s1
     /\ (exists c0, classObjects s !! this = Some c0
                    /\ managed_calls "GetClassMethods" [MClass._handle c0] s1
                       = ((if MClass._hasCachedMethods c0 then 0 else 1)
                          + managed_calls "GetClassMethods" [MClass._handle c0] s)%nat))
  /\ (forall fs, MClass_GetFields rt this s = Ok (fs, s1) ->
     (exists c, classObjects s1 !! this = Some c
                /\ MClass._hasCachedFields c = true /\ MClass._fields c = fs)
     /\ MClass_GetFields rt this s1 = Ok (fs, s1)
     /\ classes_kept s s1
     /\ (exists c0, classObjects s !! this = Some c0
                    /\ managed_calls "GetClassFields" [MClass._handle c0] s1
                       = ((if MClass._hasCachedFields c0 then 0 else 1)
                          + managed_calls "GetClassFields" [MClass._handle c0] s)%nat))
  /\ (forall ps, MClass_GetProperties rt this s = Ok (ps, s1) ->
     (exists c, classObjects s1 !! this = Some c
                /\ MClass._hasCachedProperties c = true /\ MClass._properties c = ps)
     /\ MClass_GetProperties rt this s1 = Ok (ps, s1)
     /\ classes_kept s s1
     /\ (exists c0, classObjects s !! this = Some c0
                    /\ managed_calls "GetClassProperties" [MClass._handle c0] s1
                       = ((if MClass._hasCachedProperties c0 then 0 else 1)
                          + managed_calls "GetClassProperties" [MClass._handle c0] s)%nat)).
Proof.
  split; [|split].
  - intros ms E. destruct (GetMethods_populates rt this s ms s1 E) as (c & D & F & <-).
    split; [now exists c|]. split; [now apply GetMethods_cached|].
    split; [eapply GetMethods_keeps, E|].
    pose proof E as E'. unfold MClass_GetMethods in E'.
    apply bind_inv in E' as (c0 & s0 & D0 & _). apply deref_class_inv in D0 as [-> D0].
    exists c0. split; [exact D0 | eapply GetMethods_calls; eassumption].
  - intros fs E. destruct (GetFields_populates rt this s fs s1 E) as (c & D & F & <-).
    split; [now exists c|]. split; [now apply GetFields_cached|].
    split; [eapply GetFields_keeps, E|].
    pose proof E as E'. unfold MClass_GetFields in E'.
    apply bind_inv in E' as (c0 & s0 & D0 & _). apply deref_class_inv in D0 as [-> D0].
    exists c0. split; [exact D0 | eapply GetFields_calls; eassumption].
  - intros ps E. destruct (GetProperties_populates rt this s ps s1 E) as (c & D & F & <-).
    split; [now exists c|]. split; [now apply GetProperties_cached|].
    split; [eapply GetProperties_keeps, E|].
    pose proof E as E'. unfold MClass_GetProperties in E'.
    apply bind_inv in E' as (c0 & s0 & D0 & _). apply deref_class_inv in D0 as [-> D0].
    exists c0. split; [exact D0 | eapply GetProperties_calls; eassumption].
Qed.

(** ** The identity map of classes *)

Tactic Notation "inv_bind" hyp(E) "as" simple_intropattern(a) ident(s) ident(E1) :=
  apply bind_inv in E as (a & s & E1 & E).

Section IdentityMap.
Context (rt : Runtime).

(** What [New<MClass>] leaves behind when it returns. *)
Lemma New_MClass_inv parentAssembly h name fullname namespace_ attributes s k s' :
  New_MClass rt parentAssembly h name fullname namespace_ attributes s = Ok (k, s') ->
  k = length (classObjects s)
  /\ h <> nullptr
  /\ classHandles s !! h = None
  /\ classHandles s' = <[h := k]> (classHandles s)
  /\ (exists c, classObjects s' = (classObjects s ++ [c])%list
                /\ MClass._handle c = h
                /\ MClass._fullname c = StringAnsi fullname
                /\ MClass._hasCachedProperties c = false
                /\ MClass._hasCachedMethods c = false
                /\ MClass._hasCachedFields c = false
                /\ MClass._properties c = [] /\ MClass._methods c = [] /\ MClass._fields c = [])
  /\ assemblyHandles s' = assemblyHandles s
  /\ assemblyObjects s' = assemblyObjects s
  /\ exceptionObjects s' = exceptionObjects s
  /\ nextException s' = nextException s.
Proof.
  unfold New_MClass. rewrite bind_gets. intros E. inv_bind E as c s1 Ec.
  rewrite bind_modify in E. injection E as <- <-.
  pose proof (MClass_ctor_inv _ _ _ _ _ _ _ _ _ _ _ Ec) as (Hn & _ & L & Hc).
  revert Ec. unfold MClass_ctor, ASSERT.
  destruct (Z.eqb_spec h nullptr) as [?|_]; [contradiction|]. simpl. rewrite bind_ret.
  destruct (class_visibility attributes); [|discriminate]. rewrite bind_lift_Ok.
  intros E. inv_bind E as b1 s2 E1. inv_bind E as b2 s3 E2.
  apply CallStaticMethod_inv in E1 as [_ ->].
  apply CallStaticMethod_inv in E2 as [_ ->].
  rewrite bind_gets in E.
  destruct (Dictionary_Add h (length (classObjects s)) _) as [d'|] eqn:D; [|discriminate].
  rewrite bind_lift_Ok, bind_modify in E. injection E as _ <-.
  pose proof (after_call_same rt "TypeIsValueType" [h] s) as (A1 & A2 & A3 & A4 & A5).
  pose proof (after_call_same rt "TypeIsEnum" [h] (after_call rt "TypeIsValueType" [h] s))
    as (B1 & B2 & B3 & B4 & B5).
  unfold Dictionary_Add in D. rewrite B1, A1, L in D. injection D as <-.
  simpl_bridge. rewrite !after_call_classObjects.
  repeat split; try congruence.
  exists c. rewrite Hc. repeat split.
Qed.

Lemma deref_assembly_inv k a s s' :
  deref_assembly k s = Ok (a, s') -> s' = s /\ assemblyObjects s !! k = Some a.
Proof.
  unfold deref_assembly. rewrite bind_gets.
  destruct (assemblyObjects s !! k); [|discriminate]. now intros [= <- <-].
Qed.

Lemma update_assembly_inv k f u s s' :
  update_assembly k f s = Ok (u, s') ->
  exists a, assemblyObjects s !! k = Some a
            /\ s' = set_assemblyObjects (<[k := f a]> (assemblyObjects s)) s.
Proof.
  unfold update_assembly. intros E. inv_bind E as a s1 D.
  apply deref_assembly_inv in D as [-> D]. injection E as _ <-. now exists a.
Qed.

Lemma MAssembly_classes_Add_inv this fullName klass u s s' :
  MAssembly_classes_Add this fullName klass s = Ok (u, s') ->
  classHandles s' = classHandles s /\ classObjects s' = classObjects s.
Proof.
  unfold MAssembly_classes_Add. intros E. inv_bind E as a s1 D.
  apply deref_assembly_inv in D as [-> _].
  destruct (Dictionary_Add fullName klass (MAssembly._classes a)); [|discriminate].
  rewrite bind_lift_Ok in E. apply update_assembly_inv in E as (? & _ & ->). now split.
Qed.

Lemma MClass_GetFullName_inv this n s s' :
  MClass_GetFullName this s = Ok (n, s') -> s' = s.
Proof.
  unfold MClass_GetFullName. intros E. inv_bind E as c s1 D.
  apply deref_class_inv in D as [-> _]. now injection E as _ <-.
Qed.

Lemma after_free3_classHandles {A B C} (p : option A) (q : option B) (r : option C) s :
  classHandles (after_free rt r (after_free rt q (after_free rt p s))) = classHandles s.
Proof.
  pose proof (after_free_same rt p s) as (F1 & _).
  pose proof (after_free_same rt q (after_free rt p s)) as (F2 & _).
  pose proof (after_free_same rt r (after_free rt q (after_free rt p s))) as (F3 & _).
  congruence.
Qed.

(** The identity map only grows while the classes of an assembly are
    mirrored. *)
Lemma cache_classes_grows this managedClasses :
  forall u s s', cache_classes rt this managedClasses s = Ok (u, s') ->
                 classHandles s ⊆ classHandles s'.
Proof.
  induction managedClasses as [|d rest IH]; intros u s s' E; simpl in E.
  - now injection E as _ <-.
  - inv_bind E as klass s1 EN. inv_bind E as fullName s2 EF.
    inv_bind E as u3 s3 EA. inv_bind E as u4 s4 E4.
    inv_bind E as u5 s5 E5. inv_bind E as u6 s6 E6.
    apply New_MClass_inv in EN as (_ & _ & L & C & _).
    apply MClass_GetFullName_inv in EF as ->.
    apply MAssembly_classes_Add_inv in EA as [C2 _].
    apply MCore_GC_FreeMemory_inv in E4 as ->.
    apply MCore_GC_FreeMemory_inv in E5 as ->.
    apply MCore_GC_FreeMemory_inv in E6 as ->.
    apply IH in E. etransitivity; [|exact E].
    rewrite after_free3_classHandles, C2, C. now apply insert_subseteq.
Qed.

Lemma MAssembly_GetClasses_grows this s d s' :
  MAssembly_GetClasses rt this s = Ok (d, s') -> classHandles s ⊆ classHandles s'.
Proof.
  unfold MAssembly_GetClasses. intros E. inv_bind E as a s0 D.
  apply deref_assembly_inv in D as [-> _].
  destruct (MAssembly._hasCachedClasses a || negb (MAssembly._isLoaded a)).
  - now injection E as _ <-.
  - inv_bind E as u1 s1 E1. inv_bind E as defs s2 E2. inv_bind E as u3 s3 E3.
    inv_bind E as u4 s4 E4. inv_bind E as u5 s5 E5. inv_bind E as a' s6 E6.
    injection E as _ <-.
    apply ASSERT_inv in E1 as [-> _].
    apply CallStaticMethod_inv in E2 as [-> ->].
    apply cache_classes_grows in E3.
    apply MCore_GC_FreeMemory_inv in E4 as ->.
    apply update_assembly_inv in E5 as (? & _ & ->).
    apply deref_assembly_inv in E6 as [-> _]. simpl_bridge.
    pose proof (after_call_same rt "GetManagedClasses" [MAssembly._handle a] s) as (F1 & _).
    pose proof (after_free_same rt (Some (GetManagedClasses rt (MAssembly._handle a))) s3)
      as (F2 & _).
    rewrite F2. now rewrite F1 in E3.
Qed.

Lemma GetOrCreateClass_null s : GetOrCreateClass rt nullptr s = Ok (None, s).
Proof. reflexivity. Qed.

(** A registered handle is answered from the identity map: no call, no
    creation, the state is left as it was. *)
Lemma GetOrCreateClass_registered typeHandle klass s :
  typeHandle <> nullptr ->
  classHandles s !! typeHandle = Some klass ->
  GetOrCreateClass rt typeHandle s = Ok (Some klass, s).
Proof.
  intros Hn L. unfold GetOrCreateClass.
  destruct (Z.eqb_spec typeHandle nullptr) as [?|_]; [contradiction|].
  rewrite bind_gets, L. reflexivity.
Qed.

(** A call that creates a wrapper registers it under the handle that the
    describe call reports. *)
Lemma GetOrCreateClass_registers typeHandle s r s' :
  typeHandle <> nullptr ->
  classHandles s !! typeHandle = None ->
  GetOrCreateClass rt typeHandle s = Ok (r, s') ->
  exists klass,
    r = Some klass
    /\ klass = length (classObjects s)
    /\ classHandles s'
         !! NativeClassDefinitions.typeHandle (GetManagedClassFromType rt typeHandle).1
       = Some klass.
Proof.
  intros Hn L. unfold GetOrCreateClass.
  destruct (Z.eqb_spec typeHandle nullptr) as [?|_]; [contradiction|].
  rewrite bind_gets, L. intros E.
  inv_bind E as described s1 E1. apply CallStaticMethod_inv in E1 as [-> ->].
  destruct (GetManagedClassFromType rt typeHandle) as [classInfo assemblyHandle] eqn:G.
  simpl_bridge. unfold GetAssembly in E. rewrite bind_gets in E.
  inv_bind E as klass s2 EN. apply New_MClass_inv in EN as (K & _ & _ & C & _ & _).
  rewrite after_call_classObjects in K.
  inv_bind E as u3 s3 E3. inv_bind E as info s4 E4.
  inv_bind E as u5 s5 E5. inv_bind E as u6 s6 E6. inv_bind E as u7 s7 E7.
  injection E as <- <-. exists klass. split; [reflexivity|]. split; [exact K|].
  assert (classHandles s2 ⊆ classHandles s3) as G1.
  { destruct (assemblyHandles _ !! assemblyHandle) as [asm|].
    - inv_bind E3 as d sa Ea. inv_bind E3 as fullName sb Eb.
      apply MAssembly_GetClasses_grows in Ea. apply MClass_GetFullName_inv in Eb as ->.
      apply MAssembly_classes_Add_inv in E3 as [-> _]. exact Ea.
    - now injection E3 as _ <-. }
  assert (classHandles s4 = classHandles s3) as G2.
  { destruct (negb (typeHandle =? NativeClassDefinitions.typeHandle classInfo)).
    - inv_bind E4 as again sa Ea. apply CallStaticMethod_inv in Ea as [-> ->].
      destruct (GetManagedClassFromType rt typeHandle). injection E4 as _ <-.
      apply after_call_same.
    - now injection E4 as _ <-. }
  apply MCore_GC_FreeMemory_inv in E5 as ->.
  apply MCore_GC_FreeMemory_inv in E6 as ->.
  apply MCore_GC_FreeMemory_inv in E7 as ->.
  rewrite after_free3_classHandles, G2.
  eapply lookup_weaken; [|exact G1]. rewrite C. apply lookup_insert_eq.
Qed.

End IdentityMap.

Section Creation.
Context (rt : Runtime).

Lemma New_MClass_creates parentAssembly h name fullname namespace_ attributes s :
  h <> nullptr ->
  classHandles s !! h = None ->
  resolves rt "TypeIsValueType" -> resolves rt "TypeIsEnum" ->
  exists s', New_MClass rt parentAssembly h name fullname namespace_ attributes s
             = Ok (length (classObjects s), s').
Proof.
  intros Hn L R1 R2. unfold New_MClass. rewrite bind_gets.
  unfold MClass_ctor, ASSERT.
  destruct (Z.eqb_spec h nullptr) as [?|_]; [contradiction|]. cbn [negb].
  rewrite !bind_assoc, bind_ret.
  destruct (class_visibility_total attributes) as [v ->].
  rewrite bind_assoc, bind_lift_Ok.
  rewrite bind_assoc, (bind_Ok _ _ _ _ _ (CallStaticMethod_resolves rt _ _ _ _ R1)).
  rewrite bind_assoc, (bind_Ok _ _ _ _ _ (CallStaticMethod_resolves rt _ _ _ _ R2)).
  rewrite bind_assoc, bind_gets.
  pose proof (after_call_same rt "TypeIsValueType" [h] s) as (A1 & _).
  pose proof (after_call_same rt "TypeIsEnum" [h] (after_call rt "TypeIsValueType" [h] s))
    as (B1 & _).
  rewrite (Dictionary_Add_fresh h _ _) by (rewrite B1, A1; exact L).
  rewrite bind_assoc, bind_lift_Ok, bind_assoc, bind_modify, bind_ret, bind_modify.
  eexists. reflexivity.
Qed.

(** Creation returns for a handle that is not registered, when the runtime
    names no assembly that has a wrapper and the entry points resolve. *)
Lemma GetOrCreateClass_creates typeHandle s :
  typeHandle <> nullptr ->
  classHandles s !! typeHandle = None ->
  NativeClassDefinitions.typeHandle (GetManagedClassFromType rt typeHandle).1 = typeHandle ->
  assemblyHandles s !! (GetManagedClassFromType rt typeHandle).2 = None ->
  Forall (resolves rt)
    ["GetManagedClassFromType"; "TypeIsValueType"; "TypeIsEnum"; "FreeMemory"] ->
  exists s', GetOrCreateClass rt typeHandle s = Ok (Some (length (classObjects s)), s').
Proof.
  intros Hn L Hc Ha R.
  apply Forall_cons in R as [R1 R]. apply Forall_cons in R as [R2 R].
  apply Forall_cons in R as [R3 R]. apply Forall_cons in R as [R4 _].
  unfold GetOrCreateClass.
  destruct (Z.eqb_spec typeHandle nullptr) as [?|_]; [contradiction|].
  rewrite bind_gets, L.
  rewrite (bind_Ok _ _ _ _ _ (CallStaticMethod_resolves rt _ _ _ _ R1)).
  destruct (GetManagedClassFromType rt typeHandle) as [classInfo assemblyHandle].
  cbn [fst snd] in Hc, Ha. unfold GetAssembly. rewrite bind_gets.
  pose proof (after_call_same rt "GetManagedClassFromType" [typeHandle] s) as (A1 & A2 & _).
  rewrite A2, Ha, Hc.
  destruct (New_MClass_creates None typeHandle (NativeClassDefinitions.name classInfo)
              (NativeClassDefinitions.fullname classInfo)
              (NativeClassDefinitions.namespace_ classInfo)
              (NativeClassDefinitions.typeAttributes classInfo)
              (after_call rt "GetManagedClassFromType" [typeHandle] s) Hn
              ltac:(rewrite A1; exact L) R2 R3) as (s1 & E1).
  rewrite (bind_Ok _ _ _ _ _ E1), bind_ret.
  rewrite Z.eqb_refl. cbn [negb]. rewrite bind_ret.
  rewrite (bind_Ok _ _ _ _ _ (MCore_GC_FreeMemory_resolves rt _ _ R4)).
  rewrite (bind_Ok _ _ _ _ _ (MCore_GC_FreeMemory_resolves rt _ _ R4)).
  rewrite (bind_Ok _ _ _ _ _ (MCore_GC_FreeMemory_resolves rt _ _ R4)).
  rewrite after_call_classObjects. eexists. reflexivity.
Qed.

End Creation.

(** X23. For a non-null handle under which the wrapper is registered --
    one the identity map already holds, or one the runtime describes under
    the queried handle itself -- two calls return the identical wrapper: the first call, when it returns, leaves the handle
    registered to the wrapper it returned, and the second call is served from
    the identity map and leaves the state, the log included, as it was.  The
    first call does return when the handle is registered, and also when it is
    not, the runtime names no assembly that has a wrapper and the entry
    points the creation uses resolve. *)
Theorem GetOrCreateClass_twice_registered (rt : Runtime) (typeHandle : handle) (s : Bridge) :
  typeHandle <> nullptr ->
  is_Some (classHandles s !! typeHandle)
  \/ NativeClassDefinitions.typeHandle (GetManagedClassFromType rt typeHandle).1 = typeHandle ->
  (forall r s1,
     GetOrCreateClass rt typeHandle s = Ok (r, s1) ->
     exists klass, r = Some klass
                   /\ classHandles s1 !! typeHandle = Some klass
                   /\ GetOrCreateClass rt typeHandle s1 = Ok (Some klass, s1))
  /\ (is_Some (classHandles s !! typeHandle)
      \/ (assemblyHandles s !! (GetManagedClassFromType rt typeHandle).2 = None
          /\ Forall (resolves rt)
               ["GetManagedClassFromType"; "TypeIsValueType"; "TypeIsEnum"; "FreeMemory"]) ->
      exists klass s1, GetOrCreateClass rt typeHandle s = Ok (Some klass, s1)).
Proof.
  intros Hn Hc. split.
  - intros r s1 E.
    destruct (classHandles s !! typeHandle) as [klass|] eqn:L.
    + rewrite (GetOrCreateClass_registered rt typeHandle klass s Hn L) in E.
      injection E as <- <-. exists klass. split; [reflexivity|]. split; [exact L|].
      now apply GetOrCreateClass_registered.
    + destruct Hc as [[? [=]]|Hc].
      destruct (GetOrCreateClass_registers rt typeHandle s r s1 Hn L E) as (klass & -> & _ & R).
      rewrite Hc in R. exists klass. split; [reflexivity|]. split; [exact R|].
      now apply GetOrCreateClass_registered.
  - intros Ht. destruct (classHandles s !! typeHandle) as [klass|] eqn:L.
    + exists klass, s. now apply GetOrCreateClass_registered.
    + destruct Hc as [[? [=]]|Hc]. destruct Ht as [[? [=]]|[Ha R]].
      destruct (GetOrCreateClass_creates rt typeHandle s Hn L Hc Ha R) as (s1 & E).
      now exists (length (classObjects s)), s1.
Qed.

(** Handle 100 of the sample runtime, from the empty identity map: the
    first call creates wrapper 0, the second returns it. *)
Lemma GetOrCreateClass_twice_registered_witness :
  exists klass s1,
    GetOrCreateClass sample_runtime 100 initial = Ok (Some klass, s1)
    /\ classHandles s1 !! 100 = Some klass
    /\ GetOrCreateClass sample_runtime 100 s1 = Ok (Some klass, s1).
Proof.
  destruct (GetOrCreateClass_twice_registered sample_runtime 100 initial
              ltac:(discriminate) (or_intror eq_refl)) as [Twice Returns].
  destruct Returns as (klass & s1 & E).
  { right. split; [reflexivity|].
    repeat apply Forall_cons_2; [| | | |apply Forall_nil_2]; reflexivity. }
  destruct (Twice (Some klass) s1 E) as (klass' & K & L & E').
  injection K as <-. exists klass, s1. repeat split; assumption.
Defined.

(** C1, at a handle that the runtime describes under another, canonical
    handle (10, described as 20): two calls do not return the identical
    wrapper.  [GetOrCreateClass] looks the queried handle up, and the
    constructor registers the wrapper under the handle of the description.
    The first call creates wrapper 0 and registers it under 20 only; the
    identity map has no entry for 10.  The second call with 10 therefore
    misses the map, describes the type again and constructs a second wrapper
    for handle 20, whose registration fails the dictionary's assertion. *)
Lemma GetOrCreateClass_noncanonical_handle :
  exists s1,
    GetOrCreateClass sample_runtime 10 initial = Ok (Some 0%nat, s1)
    /\ NativeClassDefinitions.typeHandle (GetManagedClassFromType sample_runtime 10).1 = 20
    /\ classHandles s1 !! 10 = None
    /\ classHandles s1 !! 20 = Some 0%nat
    /\ length (classObjects s1) = 1%nat
    /\ GetOrCreateClass sample_runtime 10 s1 = Fail AssertFailed.
Proof.
  eexists. split; [vm_compute; reflexivity|].
  repeat split; vm_compute; reflexivity.
Qed.

(** The caches of the sample class, empty at first: the first call of each
    getter fetches, the second returns the same sequence and leaves the state
    as it was. *)
Lemma member_caches_fetched_once_witness :
  (exists ms s1,
     MClass_GetMethods sample_runtime 0 sample_mirrored = Ok (ms, s1)
     /\ length ms = 1%nat
     /\ MClass_GetMethods sample_runtime 0 s1 = Ok (ms, s1))
  /\ (exists fs s1,
     MClass_GetFields sample_runtime 0 sample_mirrored = Ok (fs, s1)
     /\ length fs = 1%nat
     /\ MClass_GetFields sample_runtime 0 s1 = Ok (fs, s1))
  /\ (exists ps s1,
     MClass_GetProperties sample_runtime 0 sample_mirrored = Ok (ps, s1)
     /\ length ps = 3%nat
     /\ MClass_GetProperties sample_runtime 0 s1 = Ok (ps, s1)).
Proof.
  split; [|split].
  - assert (exists ms s1, MClass_GetMethods sample_runtime 0 sample_mirrored = Ok (ms, s1)
                          /\ length ms = 1%nat) as (ms & s1 & E & Len)
        by (eexists; eexists; split; vm_compute; reflexivity).
    destruct (proj1 (member_caches_fetched_once sample_runtime 0 sample_mirrored s1) ms E)
      as (_ & Second & _).
    exists ms, s1. repeat split; assumption.
  - assert (exists fs s1, MClass_GetFields sample_runtime 0 sample_mirrored = Ok (fs, s1)
                          /\ length fs = 1%nat) as (fs & s1 & E & Len)
        by (eexists; eexists; split; vm_compute; reflexivity).
    destruct (proj1 (proj2 (member_caches_fetched_once sample_runtime 0 sample_mirrored s1))
                fs E) as (_ & Second & _).
    exists fs, s1. repeat split; assumption.
  - assert (exists ps s1, MClass_GetProperties sample_runtime 0 sample_mirrored = Ok (ps, s1)
                          /\ length ps = 3%nat) as (ps & s1 & E & Len)
        by (eexists; eexists; split; vm_compute; reflexivity).
    destruct (proj2 (proj2 (member_caches_fetched_once sample_runtime 0 sample_mirrored s1))
                ps E) as (_ & Second & _).
    exists ps, s1. repeat split; assumption.
Defined.

(** ** Exception marshaling *)

Section Marshaling.
Context (rt : Runtime) (ToString : handle -> string).

Lemma accessor_ok parentClass prefix _name accessorHandle attributes :
  (accessorHandle <> nullptr -> is_ok (method_visibility attributes)) ->
  is_ok (accessor parentClass prefix _name accessorHandle attributes).
Proof.
  intros H. destruct (Z.eq_dec accessorHandle nullptr) as [->|Hn].
  - eexists. apply accessor_null.
  - destruct (accessor_named parentClass prefix _name accessorHandle attributes Hn (H Hn))
      as (m & -> & _). now eexists.
Qed.

Lemma accessor_handle parentClass prefix _name accessorHandle attributes r :
  accessor parentClass prefix _name accessorHandle attributes = Ok r ->
  accessorHandle <> nullptr ->
  exists m, r = Some m /\ MMethod._handle m = accessorHandle.
Proof.
  unfold accessor, MMethod_ctor. intros E Hn.
  destruct (Z.eqb_spec accessorHandle nullptr) as [?|_]; [contradiction|]. simpl in E.
  destruct (method_visibility attributes); [|discriminate].
  injection E as <-. eexists. split; reflexivity.
Qed.

Lemma MProperty_ctor_ok k d :
  decodable d ->
  is_ok (MProperty_ctor k (NativePropertyDefinitions.name d)
           (NativePropertyDefinitions.getterHandle d) (NativePropertyDefinitions.setterHandle d)
           (NativePropertyDefinitions.getterAttributes d)
           (NativePropertyDefinitions.setterAttributes d)).
Proof.
  intros [Hg Hs]. unfold MProperty_ctor.
  destruct (accessor_ok k "get_" (StringAnsi (NativePropertyDefinitions.name d)) _ _ Hg) as [g ->].
  destruct (accessor_ok k "set_" (StringAnsi (NativePropertyDefinitions.name d)) _ _ Hs) as [t ->].
  now eexists.
Qed.

Lemma MProperty_ctor_getter k name getterHandle setterHandle getterAttributes setterAttributes p :
  MProperty_ctor k name getterHandle setterHandle getterAttributes setterAttributes = Ok p ->
  MProperty._name p = StringAnsi name
  /\ (getterHandle <> nullptr ->
      exists m, MProperty_GetGetMethod p = Some m /\ MMethod._handle m = getterHandle).
Proof.
  unfold MProperty_ctor. intros E.
  destruct (accessor k "get_" _ getterHandle getterAttributes) as [g|] eqn:G; [|discriminate].
  destruct (accessor k "set_" _ setterHandle setterAttributes) as [t|]; [|discriminate].
  injection E as <-. split; [reflexivity|]. intros Hn.
  destruct (accessor_handle _ _ _ _ _ _ G Hn) as (m & -> & Hm). now exists m.
Qed.

Lemma build_properties_ok k defs :
  Forall decodable defs -> is_ok (build_properties k defs).
Proof.
  induction 1 as [|d rest Hd _ IH]; simpl.
  - now eexists.
  - destruct (MProperty_ctor_ok k d Hd) as [p ->]. destruct IH as [ps ->]. now eexists.
Qed.

(** Looking a name up among the wrappers finds the wrapper of the first
    descriptor of that name. *)
Lemma build_properties_find k name :
  forall defs built,
    build_properties k defs = Ok built ->
    match List.find (fun d => String.eqb (StringAnsi (NativePropertyDefinitions.name d)) name) defs with
    | Some d =>
        exists p, List.find (fun p => String.eqb (MProperty._name p) name) built = Some p
                  /\ MProperty_ctor k (NativePropertyDefinitions.name d)
                       (NativePropertyDefinitions.getterHandle d)
                       (NativePropertyDefinitions.setterHandle d)
                       (NativePropertyDefinitions.getterAttributes d)
                       (NativePropertyDefinitions.setterAttributes d) = Ok p
    | None => List.find (fun p => String.eqb (MProperty._name p) name) built = None
    end.
Proof.
  induction defs as [|d rest IH]; intros built E; simpl in E.
  - now injection E as <-.
  - destruct (MProperty_ctor k _ _ _ _ _) as [p|] eqn:P; [|discriminate].
    destruct (build_properties k rest) as [ps|]; [|discriminate].
    injection E as <-. simpl.
    destruct (MProperty_ctor_getter _ _ _ _ _ _ _ P) as [-> _].
    destruct (String.eqb _ name).
    + now exists p.
    + now apply IH.
Qed.

Lemma described_getter_found k classHandle name getter built :
  build_properties k (GetClassProperties rt classHandle) = Ok built ->
  described_getter rt classHandle name = Some getter ->
  exists p m, List.find (fun p => String.eqb (MProperty._name p) name) built = Some p
              /\ MProperty_GetGetMethod p = Some m
              /\ MMethod._handle m = getter.
Proof.
  intros B. unfold described_getter.
  pose proof (build_properties_find k name _ _ B) as F.
  destruct (List.find _ (GetClassProperties rt classHandle)) as [d|]; [|discriminate].
  destruct F as (p & F & P).
  destruct (Z.eqb_spec (NativePropertyDefinitions.getterHandle d) nullptr) as [|Hn];
    [discriminate|].
  intros [= <-]. destruct (MProperty_ctor_getter _ _ _ _ _ _ _ P) as [_ G].
  destruct (G Hn) as (m & Gm & Hm). now exists p, m.
Qed.

(** The population loop appends the decoded wrappers to the class object
    and touches nothing else but the gateway cache and the log. *)
Lemma cache_properties_spec k :
  resolves rt "FreeMemory" ->
  forall defs s c built,
    classObjects s !! k = Some c ->
    build_properties k defs = Ok built ->
    exists s', cache_properties rt k defs s = Ok (tt, s')
               /\ same_objects s s'
               /\ classObjects s'
                  = <[k := MClass.set_properties (MClass._properties c ++ built) c]>
                      (classObjects s).
Proof.
  intros R. induction defs as [|d rest IH]; intros s c built D B; simpl in B |- *.
  - injection B as <-. exists s. split; [reflexivity|]. split; [apply same_objects_refl|].
    rewrite app_nil_r. symmetry. apply list_insert_id.
    rewrite D. f_equal. now destruct c.
  - destruct (MProperty_ctor k _ _ _ _ _) as [p|]; [|discriminate].
    destruct (build_properties k rest) as [ps|] eqn:B'; [|discriminate].
    injection B as <-. rewrite bind_lift_Ok.
    rewrite (bind_Ok _ _ _ _ _ (update_class_Some k _ c s D)).
    rewrite (bind_Ok _ _ _ _ _ (MCore_GC_FreeMemory_resolves rt _ _ R)).
    set (s1 := set_classObjects _ s).
    assert (classObjects (after_free rt (NativePropertyDefinitions.name d) s1) !! k
            = Some (MClass.add_property p c)) as D1.
    { rewrite after_free_classObjects. subst s1. simpl_bridge.
      apply list_lookup_insert_eq. eapply lookup_lt_Some, D. }
    destruct (IH _ _ ps D1 eq_refl) as (s' & E & S & C).
    exists s'. split; [exact E|]. split.
    + eapply same_objects_trans; [|exact S].
      eapply same_objects_trans; [|apply after_free_same]. subst s1. repeat split.
    + rewrite C, after_free_classObjects. subst s1. simpl_bridge.
      rewrite list_insert_insert_eq. f_equal.
      unfold MClass.add_property, MClass.set_properties. simpl.
      now rewrite <- app_assoc.
Qed.

(** [GetProperties] on a class object that agrees with the runtime: the
    decoded descriptors, and a class object that still agrees. *)
Lemma GetProperties_spec k s c built :
  resolves rt "GetClassProperties" -> resolves rt "FreeMemory" ->
  classObjects s !! k = Some c ->
  consistent rt k c ->
  build_properties k (GetClassProperties rt (MClass._handle c)) = Ok built ->
  exists s', MClass_GetProperties rt k s = Ok (built, s')
             /\ same_objects s s'
             /\ classObjects s'
                = <[k := MClass.set_hasCachedProperties true (MClass.set_properties built c)]>
                    (classObjects s).
Proof.
  intros R1 R2 D I B. unfold consistent in I.
  destruct (MClass._hasCachedProperties c) eqn:F.
  - rewrite (GetProperties_cached rt k c s D F).
    assert (MClass._properties c = built) as P by congruence.
    exists s. split; [now rewrite P|]. split; [apply same_objects_refl|].
    symmetry. apply list_insert_id. rewrite D. f_equal.
    destruct c. simpl in *. now subst.
  - unfold MClass_GetProperties.
    rewrite (bind_Ok _ _ _ _ _ (deref_class_Some k c s D)), F.
    rewrite (bind_Ok _ _ _ _ _ (CallStaticMethod_resolves rt _ _ _ _ R1)).
    set (s1 := after_call rt _ _ s).
    assert (classObjects s1 !! k = Some c) as D1
        by (subst s1; now rewrite after_call_classObjects).
    destruct (cache_properties_spec k R2 _ s1 c built D1 B) as (s2 & E2 & S2 & C2).
    rewrite (bind_Ok _ _ _ _ _ E2).
    rewrite (bind_Ok _ _ _ _ _ (MCore_GC_FreeMemory_resolves rt _ _ R2)).
    set (s3 := after_free rt _ s2).
    assert (classObjects s3 !! k = Some (MClass.set_properties built c)) as D3.
    { subst s3. rewrite after_free_classObjects, C2, I. simpl.
      apply list_lookup_insert_eq. eapply lookup_lt_Some, D1. }
    rewrite (bind_Ok _ _ _ _ _ (update_class_Some k _ _ s3 D3)).
    set (c' := MClass.set_hasCachedProperties true (MClass.set_properties built c)).
    set (s4 := set_classObjects _ s3).
    assert (classObjects s4 !! k = Some c') as D4.
    { subst s4. simpl_bridge. apply list_lookup_insert_eq. eapply lookup_lt_Some, D3. }
    rewrite (bind_Ok _ _ _ _ _ (deref_class_Some k c' s4 D4)).
    exists s4. split; [reflexivity|]. split.
    + eapply same_objects_trans; [exact (after_call_same rt _ _ s : same_objects s s1)|].
      eapply same_objects_trans; [exact S2|].
      eapply same_objects_trans; [exact (after_free_same rt _ s2 : same_objects s2 s3)|].
      repeat split.
    + subst s4 s3. simpl_bridge. rewrite after_free_classObjects, C2.
      rewrite list_insert_insert_eq. subst s1. now rewrite after_call_classObjects.
Qed.

(** Replacing a class object by one of the same handle that agrees with the
    runtime keeps every class mirrored. *)
Lemma mirrored_update s s' k c c' :
  same_objects s s' ->
  classObjects s !! k = Some c ->
  classObjects s' = <[k := c']> (classObjects s) ->
  MClass._handle c' = MClass._handle c ->
  consistent rt k c' ->
  forall h, mirrored rt s h -> mirrored rt s' h.
Proof.
  intros (SH & _) D C H I h (k0 & c0 & L & D0 & H0 & I0).
  destruct (decide (k0 = k)) as [->|Hne].
  - exists k, c'. rewrite SH, C. split; [exact L|]. split.
    + apply list_lookup_insert_eq. eapply lookup_lt_Some, D.
    + split; [congruence | exact I].
  - exists k0, c0. rewrite SH, C. split; [exact L|]. split.
    + rewrite list_lookup_insert_ne by congruence. exact D0.
    + now split.
Qed.

Lemma mirrored_same s s' :
  same_objects s s' -> classObjects s' = classObjects s ->
  forall h, mirrored rt s h -> mirrored rt s' h.
Proof.
  intros (SH & _) C h (k0 & c0 & L & D0 & H0 & I0).
  exists k0, c0. rewrite SH, C. now repeat split.
Qed.

(** One read of the constructor: the property is found, its getter is
    invoked on the exception, and the class object still agrees with the
    runtime afterwards. *)
Lemma get_exception_property_spec s k c exception name getter :
  resolves rt "GetClassProperties" -> resolves rt "FreeMemory" -> resolves rt "InvokeMethod" ->
  classObjects s !! k = Some c ->
  consistent rt k c ->
  Forall decodable (GetClassProperties rt (MClass._handle c)) ->
  described_getter rt (MClass._handle c) name = Some getter ->
  exists s' c',
    get_exception_property rt (Some k) exception name s
    = Ok ((InvokeMethod rt exception getter None None).1, s')
    /\ same_objects s s'
    /\ (forall h, mirrored rt s h -> mirrored rt s' h)
    /\ classObjects s' !! k = Some c'
    /\ MClass._handle c' = MClass._handle c
    /\ consistent rt k c'.
Proof.
  intros R1 R2 R3 D I Dec G.
  destruct (build_properties_ok k _ Dec) as [built B].
  destruct (GetProperties_spec k s c built R1 R2 D I B) as (s1 & E1 & S1 & C1).
  destruct (described_getter_found k _ name getter built B G) as (p & m & F & Gm & Hm).
  set (c' := MClass.set_hasCachedProperties true (MClass.set_properties built c)) in *.
  assert (classObjects s1 !! k = Some c') as D1.
  { rewrite C1. apply list_lookup_insert_eq. eapply lookup_lt_Some, D. }
  exists (after_call rt "InvokeMethod" [exception; getter] s1), c'. split.
  { unfold get_exception_property. cbn [deref]. rewrite bind_ret.
    unfold MClass_GetProperty. rewrite bind_assoc, (bind_Ok _ _ _ _ _ E1), bind_ret, F.
    cbn [deref]. rewrite bind_ret, Gm. cbn [deref]. rewrite bind_ret.
    unfold MMethod_Invoke.
    rewrite (bind_Ok _ _ _ _ _ (CallStaticMethod_resolves rt _ _ _ _ R3)). rewrite Hm.
    now destruct (InvokeMethod rt exception getter None None) as [result slot]. }
  assert (same_objects s1 (after_call rt "InvokeMethod" [exception; getter] s1)) as S2
      by apply after_call_same.
  split; [eapply same_objects_trans; eassumption|]. split.
  - intros h M. eapply mirrored_same; [exact S2 | apply after_call_classObjects|].
    exact (mirrored_update s s1 k c c' S1 D C1 eq_refl B h M).
  - rewrite after_call_classObjects. split; [exact D1|]. split; [reflexivity | exact B].
Qed.

Lemma MCore_Object_GetClass_spec s obj :
  resolves rt "GetObjectType" ->
  GetObjectType rt obj <> nullptr ->
  mirrored rt s (GetObjectType rt obj) ->
  exists s' k c,
    MCore_Object_GetClass rt obj s = Ok (Some k, s')
    /\ same_objects s s'
    /\ classObjects s' = classObjects s
    /\ classObjects s' !! k = Some c
    /\ MClass._handle c = GetObjectType rt obj
    /\ consistent rt k c.
Proof.
  intros R Hn (k & c & L & D & H & I). unfold MCore_Object_GetClass.
  rewrite (bind_Ok _ _ _ _ _ (CallStaticMethod_resolves rt _ _ _ _ R)).
  pose proof (after_call_same rt "GetObjectType" [obj] s) as S.
  pose proof (after_call_classObjects rt "GetObjectType" [obj] s) as C.
  exists (after_call rt "GetObjectType" [obj] s), k, c.
  split.
  - apply GetOrCreateClass_registered; [exact Hn|]. destruct S as (-> & _). exact L.
  - split; [exact S|]. split; [exact C|]. rewrite C. split; [exact D|]. now split.
Qed.

Lemma mirrored_ext s s' :
  classHandles s' = classHandles s -> classObjects s' = classObjects s ->
  forall h, mirrored rt s h -> mirrored rt s' h.
Proof.
  intros SH C h (k0 & c0 & L & D0 & H0 & I0).
  exists k0, c0. rewrite SH, C. now repeat split.
Qed.

Lemma managed_property_getter obj name (f : handle -> string) v :
  f <$> managed_property rt obj name = Some v ->
  exists getter, described_getter rt (GetObjectType rt obj) name = Some getter
                 /\ f (InvokeMethod rt obj getter None None).1 = v.
Proof.
  unfold managed_property.
  destruct (described_getter rt (GetObjectType rt obj) name) as [getter|]; [|discriminate].
  intros [= <-]. now exists getter.
Qed.

Lemma MException_ctor_S fuel this exception :
  MException_ctor rt ToString (S fuel) this exception
  = (let* _ := ASSERT (negb (exception =? nullptr)) in
     let* exceptionClass := MCore_Object_GetClass rt exception in
     let* exceptionMsg := get_exception_property rt exceptionClass exception "Message" in
     let* exceptionStackTrace :=
       get_exception_property rt exceptionClass exception "StackTrace" in
     let* innerException :=
       get_exception_property rt exceptionClass exception "InnerException" in
     let* InnerException :=
       (if negb (innerException =? nullptr) then
          let* p := alloc_exception in
          let* _ := MException_ctor rt ToString fuel p innerException in
          ret (Some p)
        else ret None) in
     modify (fun s => set_exceptionObjects
                        (<[this := MException.mk (ToString exceptionMsg)
                                     (ToString exceptionStackTrace) InnerException]>
                           (exceptionObjects s)) s)).
Proof. reflexivity. Qed.

(** The constructor up to its recursive call: the three reads succeed and
    yield the message, the stack trace and the inner exception. *)
Lemma MException_ctor_reads fuel this obj message stackTrace inner s :
  resolves rt "GetObjectType" -> resolves rt "GetClassProperties" ->
  resolves rt "FreeMemory" -> resolves rt "InvokeMethod" ->
  managed_exception rt ToString obj message stackTrace inner ->
  mirrored rt s (GetObjectType rt obj) ->
  exists s1,
    same_objects s s1
    /\ (forall h, mirrored rt s h -> mirrored rt s1 h)
    /\ MException_ctor rt ToString (S fuel) this obj s
       = (let* InnerException :=
            (if negb (inner =? nullptr) then
               let* p := alloc_exception in
               let* _ := MException_ctor rt ToString fuel p inner in
               ret (Some p)
             else ret None) in
          modify (fun s => set_exceptionObjects
                             (<[this := MException.mk message stackTrace InnerException]>
                                (exceptionObjects s)) s)) s1.
Proof.
  intros R1 R2 R3 R4 (On & Tn & Dec & Hm & Hs & Hi) Mi.
  apply managed_property_getter in Hm as (gm & Gm & Vm).
  apply managed_property_getter in Hs as (gs & Gs & Vs).
  assert (exists gi, described_getter rt (GetObjectType rt obj) "InnerException" = Some gi
                     /\ (InvokeMethod rt obj gi None None).1 = inner) as (gi & Gi & Vi).
  { revert Hi. unfold managed_property.
    destruct (described_getter rt (GetObjectType rt obj) "InnerException") as [gi|];
      [|discriminate].
    intros [= <-]. now exists gi. }
  destruct (MCore_Object_GetClass_spec s obj R1 Tn Mi) as (sa & k & c & Ea & Sa & Ca & Da & Ha & Ia).
  rewrite <- Ha in Dec, Gm, Gs, Gi.
  destruct (get_exception_property_spec sa k c obj "Message" gm R2 R3 R4 Da Ia Dec Gm)
    as (sb & cb & Eb & Sb & Mb & Db & Hb & Ib).
  rewrite <- Hb in Dec, Gs, Gi.
  destruct (get_exception_property_spec sb k cb obj "StackTrace" gs R2 R3 R4 Db Ib Dec Gs)
    as (sc & cc & Ec & Sc & Mc & Dc & Hc & Ic).
  rewrite <- Hc in Dec, Gi.
  destruct (get_exception_property_spec sc k cc obj "InnerException" gi R2 R3 R4 Dc Ic Dec Gi)
    as (sd & cd & Ed & Sd & Md & Dd & Hd & Id).
  exists sd. split; [|split].
  - eapply same_objects_trans; [exact Sa|]. eapply same_objects_trans; [exact Sb|].
    eapply same_objects_trans; [exact Sc | exact Sd].
  - intros h M. apply Md, Mc, Mb. eapply mirrored_same; [exact Sa | exact Ca | exact M].
  - rewrite MException_ctor_S. unfold ASSERT.
    destruct (Z.eqb_spec obj nullptr) as [?|_]; [contradiction|]. cbn [negb].
    rewrite bind_ret, (bind_Ok _ _ _ _ _ Ea), (bind_Ok _ _ _ _ _ Eb),
      (bind_Ok _ _ _ _ _ Ec), (bind_Ok _ _ _ _ _ Ed).
    rewrite Vm, Vs, Vi. reflexivity.
Qed.

Lemma native_chain_lookup_lt chain : forall p q,
  (q < p)%nat -> native_chain p chain !! q = None.
Proof.
  induction chain as [|[[o m] t] rest IH]; intros p q Hq; simpl.
  - apply lookup_empty.
  - rewrite lookup_insert_ne by lia. apply IH. lia.
Qed.

(** Marshaling a chain: one record per managed exception, stored
    consecutively from [this], each owning the next. *)
Lemma MException_ctor_chain :
  resolves rt "GetObjectType" -> resolves rt "GetClassProperties" ->
  resolves rt "FreeMemory" -> resolves rt "InvokeMethod" ->
  forall chain obj s this fuel,
    chain <> [] ->
    managed_chain rt ToString obj chain ->
    Forall (fun x => mirrored rt s (GetObjectType rt x.1.1)) chain ->
    nextException s = S this ->
    (length chain <= fuel)%nat ->
    exists s',
      MException_ctor rt ToString fuel this obj s = Ok (tt, s')
      /\ exceptionObjects s' = native_chain this chain ∪ exceptionObjects s
      /\ nextException s' = (this + length chain)%nat
      /\ classHandles s' = classHandles s
      /\ (forall h, mirrored rt s h -> mirrored rt s' h).
Proof.
  intros R1 R2 R3 R4.
  induction chain as [|[[o m] t] rest IH]; intros obj s this fuel Hne MC Mir Nx Hf;
    [contradiction|].
  destruct fuel as [|fuel]; [simpl in Hf; lia|].
  destruct MC as (-> & inner & ME & MC).
  apply Forall_cons in Mir as [Mo Mrest]. simpl in Mo.
  destruct (MException_ctor_reads fuel this o m t inner s R1 R2 R3 R4 ME Mo)
    as (s1 & S1 & M1 & ->).
  destruct S1 as (SH & _ & _ & SE & SN).
  destruct rest as [|[[o' m'] t'] rest'].
  - simpl in MC. subst inner. cbn [Z.eqb negb nullptr]. rewrite bind_ret.
    eexists. split; [reflexivity|]. simpl_bridge.
    split; [|split; [|split]].
    + simpl. rewrite SE, <- insert_union_l. now rewrite (left_id_L ∅ (∪)).
    + simpl. lia.
    + exact SH.
    + intros h M. eapply mirrored_ext; [| |apply M1, M]; reflexivity.
  - assert (inner = o') as -> by (now destruct MC as (-> & _)).
    assert (o' <> nullptr) as On.
    { destruct MC as (_ & i' & (On & _) & _). exact On. }
    destruct (Z.eqb_spec o' nullptr) as [?|_]; [contradiction|]. cbn [negb].
    unfold alloc_exception at 1. rewrite !bind_assoc, bind_gets.
    rewrite bind_assoc, bind_modify, bind_ret.
    set (s2 := set_nextException (S (nextException s1)) s1).
    assert (Forall (fun x => mirrored rt s2 (GetObjectType rt x.1.1))
              ((o', m', t') :: rest')) as Mir2.
    { eapply Forall_impl; [exact Mrest|]. intros x M.
      eapply (mirrored_ext s1 s2); [reflexivity | reflexivity | apply M1, M]. }
    assert (nextException s2 = S (nextException s1)) as Nx2 by reflexivity.
    assert (length ((o', m', t') :: rest') <= fuel)%nat as Hf2 by (simpl in *; lia).
    destruct (IH o' s2 (nextException s1) fuel ltac:(discriminate) MC Mir2 Nx2 Hf2)
      as (s3 & E3 & X3 & N3 & H3 & M3).
    rewrite bind_assoc, (bind_Ok _ _ _ _ _ E3), bind_ret.
    eexists. split; [reflexivity|]. simpl_bridge.
    split; [|split; [|split]].
    + rewrite X3. subst s2. simpl_bridge. rewrite SE, SN, Nx.
      cbn [native_chain]. now rewrite insert_union_l.
    + rewrite N3, SN, Nx. simpl. lia.
    + rewrite H3. subst s2. simpl_bridge. exact SH.
    + intros h M. eapply mirrored_ext; [| |apply M3]; [reflexivity | reflexivity |].
      eapply (mirrored_ext s1 s2); [reflexivity | reflexivity | apply M1, M].
Qed.

Lemma set_exceptionObjects_id d s :
  exceptionObjects s = d -> set_exceptionObjects d s = s.
Proof. intros <-. now destruct s. Qed.

(** The destructor frees every record behind the first one. *)
Lemma MException_dtor_chain : forall rest o m t p fuel s heap,
  (length ((o, m, t) :: rest) <= fuel)%nat ->
  exceptionObjects s = native_chain p ((o, m, t) :: rest) ∪ heap ->
  (forall q, (p <= q)%nat -> heap !! q = None) ->
  MException_dtor fuel p s
  = Ok (tt, set_exceptionObjects
              (<[p := MException.mk m t (match rest with [] => None | _ :: _ => Some (S p) end)]>
                 heap) s).
Proof.
  induction rest as [|[[o' m'] t'] rest' IH]; intros o m t p fuel s heap Hf X Fr;
    (destruct fuel as [|fuel]; [simpl in Hf; lia|]); simpl MException_dtor.
  - unfold deref_exception. rewrite bind_assoc, bind_gets, X.
    simpl native_chain. rewrite (lookup_union_Some_l _ _ _ _ (lookup_insert_eq _ _ _)).
    cbn [deref]. rewrite bind_ret. cbn [MException.InnerException].
    unfold ret. f_equal. f_equal. symmetry. apply set_exceptionObjects_id.
    rewrite X. simpl. rewrite <- insert_union_l. now rewrite (left_id_L ∅ (∪)).
  - unfold deref_exception. rewrite bind_assoc, bind_gets, X.
    cbn [native_chain]. rewrite (lookup_union_Some_l _ _ _ _ (lookup_insert_eq _ _ _)).
    cbn [deref]. rewrite bind_ret. cbn [MException.InnerException].
    set (r := MException.mk m t (Some (S p))).
    assert (exceptionObjects s = native_chain (S p) ((o', m', t') :: rest') ∪ <[p := r]> heap)
      as X'.
    { rewrite X. cbn [native_chain]. fold r.
      rewrite <- insert_union_l. apply insert_union_r.
      apply (native_chain_lookup_lt ((o', m', t') :: rest')). lia. }
    assert (forall q, (S p <= q)%nat -> <[p := r]> heap !! q = None) as Fr'.
    { intros q Hq. rewrite lookup_insert_ne by lia. apply Fr. lia. }
    rewrite (bind_Ok _ _ _ _ _ (IH o' m' t' (S p) fuel s _ ltac:(simpl in *; lia) X' Fr')).
    unfold free_exception, modify. simpl_bridge. f_equal. f_equal.
    rewrite delete_insert_id; [reflexivity|]. apply Fr'. lia.
Qed.

Lemma Delete_MException_chain chain p fuel s heap :
  chain <> [] ->
  (length chain <= fuel)%nat ->
  exceptionObjects s = native_chain p chain ∪ heap ->
  (forall q, (p <= q)%nat -> heap !! q = None) ->
  Delete_MException fuel p s = Ok (tt, set_exceptionObjects heap s).
Proof.
  destruct chain as [|[[o m] t] rest]; [contradiction|]. intros _ Hf X Fr.
  unfold Delete_MException.
  rewrite (bind_Ok _ _ _ _ _ (MException_dtor_chain rest o m t p fuel s heap Hf X Fr)).
  unfold free_exception, modify. simpl_bridge. f_equal. f_equal.
  rewrite delete_insert_id; [reflexivity|]. apply Fr. lia.
Qed.

End Marshaling.

(** * Further properties of the code *)

Section Extension.
Context (rt : Runtime).

Lemma extends_refl s : extends s s.
Proof. split; [reflexivity|]. split; [exists []; now rewrite app_nil_r|auto]. Qed.

Lemma extends_trans s1 s2 s3 : extends s1 s2 -> extends s2 s3 -> extends s1 s3.
Proof.
  intros (A1 & (l1 & A2) & A3) (B1 & (l2 & B2) & B3).
  split; [etransitivity; eassumption|].
  split; [exists (l1 ++ l2)%list; now rewrite B2, A2, app_assoc|auto].
Qed.

Lemma extends_frame s s' :
  classHandles s' = classHandles s -> classObjects s' = classObjects s -> extends s s'.
Proof.
  intros H O. split; [now rewrite H|].
  split; [exists []; now rewrite app_nil_r|].
  unfold handles_wf. rewrite H, O. auto.
Qed.

Lemma after_call_extends n args s : extends s (after_call rt n args s).
Proof.
  apply extends_frame; [apply (after_call_same rt n args s)|apply after_call_classObjects].
Qed.

Lemma after_free_extends {A} (ptr : option A) s : extends s (after_free rt ptr s).
Proof.
  apply extends_frame; [apply (after_free_same rt ptr s)|apply after_free_classObjects].
Qed.

Lemma after_free3_extends {A B C} (p : option A) (q : option B) (r : option C) s :
  extends s (after_free rt r (after_free rt q (after_free rt p s))).
Proof.
  eapply extends_trans; [apply (after_free_extends p)|].
  eapply extends_trans; [apply (after_free_extends q)|apply (after_free_extends r)].
Qed.

Lemma New_MClass_extends parentAssembly h name fullname namespace_ attributes s k s' :
  New_MClass rt parentAssembly h name fullname namespace_ attributes s = Ok (k, s') ->
  extends s s'.
Proof.
  intros E. apply New_MClass_inv in E as (-> & _ & L & C & (c & O & Hc & _) & _).
  split; [rewrite C; now apply insert_subseteq|].
  split; [now exists [c]|].
  intros W h' k'. rewrite C, O. destruct (decide (h' = h)) as [->|N].
  - rewrite lookup_insert_eq. intros [= <-]. exists c. split; [|exact Hc].
    rewrite lookup_app_r by lia. now rewrite Nat.sub_diag.
  - rewrite lookup_insert_ne by congruence. intros L'.
    destruct (W _ _ L') as (c' & D & Hc'). exists c'. split; [|exact Hc'].
    now apply lookup_app_l_Some.
Qed.

Lemma cache_classes_extends this managedClasses :
  forall u s s', cache_classes rt this managedClasses s = Ok (u, s') -> extends s s'.
Proof.
  induction managedClasses as [|d rest IH]; intros u s s' E; simpl in E.
  - injection E as _ <-. apply extends_refl.
  - inv_bind E as klass s1 EN. inv_bind E as fullName s2 EF.
    inv_bind E as u3 s3 EA. inv_bind E as u4 s4 E4.
    inv_bind E as u5 s5 E5. inv_bind E as u6 s6 E6.
    apply New_MClass_extends in EN.
    apply MClass_GetFullName_inv in EF as ->.
    apply MAssembly_classes_Add_inv in EA as [C2 O2].
    apply MCore_GC_FreeMemory_inv in E4 as ->.
    apply MCore_GC_FreeMemory_inv in E5 as ->.
    apply MCore_GC_FreeMemory_inv in E6 as ->.
    apply IH in E.
    eapply extends_trans; [|exact E].
    eapply extends_trans; [exact EN|].
    eapply extends_trans; [apply (extends_frame _ _ C2 O2)|apply after_free3_extends].
Qed.

Lemma MAssembly_GetClasses_extends this s d s' :
  MAssembly_GetClasses rt this s = Ok (d, s') -> extends s s'.
Proof.
  unfold MAssembly_GetClasses. intros E. inv_bind E as a s0 D.
  apply deref_assembly_inv in D as [-> _].
  destruct (MAssembly._hasCachedClasses a || negb (MAssembly._isLoaded a)).
  - injection E as _ <-. apply extends_refl.
  - inv_bind E as u1 s1 E1. inv_bind E as defs s2 E2. inv_bind E as u3 s3 E3.
    inv_bind E as u4 s4 E4. inv_bind E as u5 s5 E5. inv_bind E as a' s6 E6.
    injection E as _ <-.
    apply ASSERT_inv in E1 as [-> _].
    apply CallStaticMethod_inv in E2 as [-> ->].
    apply cache_classes_extends in E3.
    apply MCore_GC_FreeMemory_inv in E4 as ->.
    apply update_assembly_inv in E5 as (? & _ & ->).
    apply deref_assembly_inv in E6 as [-> _].
    eapply extends_trans; [apply after_call_extends|].
    eapply extends_trans; [exact E3|].
    eapply extends_trans; [apply (after_free_extends (Some (GetManagedClasses rt (MAssembly._handle a))))|].
    now apply extends_frame.
Qed.

Lemma GetOrCreateClass_extends typeHandle s r s' :
  GetOrCreateClass rt typeHandle s = Ok (r, s') -> extends s s'.
Proof.
  unfold GetOrCreateClass.
  destruct (typeHandle =? nullptr); [intros [= _ <-]; apply extends_refl|].
  rewrite bind_gets. destruct (classHandles s !! typeHandle) as [k|] eqn:L.
  { intros [= _ <-]. apply extends_refl. }
  intros E.
  inv_bind E as described s1 E1. apply CallStaticMethod_inv in E1 as [-> ->].
  destruct (GetManagedClassFromType rt typeHandle) as [classInfo assemblyHandle] eqn:G.
  unfold GetAssembly in E. rewrite bind_gets in E.
  inv_bind E as klass s2 EN. apply New_MClass_extends in EN.
  inv_bind E as u3 s3 E3. inv_bind E as info s4 E4.
  inv_bind E as u5 s5 E5. inv_bind E as u6 s6 E6. inv_bind E as u7 s7 E7.
  injection E as _ <-.
  apply MCore_GC_FreeMemory_inv in E5 as ->.
  apply MCore_GC_FreeMemory_inv in E6 as ->.
  apply MCore_GC_FreeMemory_inv in E7 as ->.
  eapply extends_trans; [apply after_call_extends|].
  eapply extends_trans; [exact EN|].
  assert (extends s2 s3) as G1.
  { destruct (assemblyHandles _ !! assemblyHandle) as [asm|].
    - inv_bind E3 as d sa Ea. inv_bind E3 as fullName sb Eb.
      apply MAssembly_GetClasses_extends in Ea. apply MClass_GetFullName_inv in Eb as ->.
      apply MAssembly_classes_Add_inv in E3 as [C O].
      eapply extends_trans; [exact Ea|now apply extends_frame].
    - injection E3 as _ <-. apply extends_refl. }
  assert (extends s3 s4) as G2.
  { destruct (negb (typeHandle =? NativeClassDefinitions.typeHandle classInfo)).
    - inv_bind E4 as again sa Ea. apply CallStaticMethod_inv in Ea as [-> ->].
      destruct (GetManagedClassFromType rt typeHandle). injection E4 as _ <-.
      apply after_call_extends.
    - injection E4 as _ <-. apply extends_refl. }
  eapply extends_trans; [exact G1|].
  eapply extends_trans; [exact G2|apply after_free3_extends].
Qed.

Lemma extends_lookup s s' k c :
  extends s s' -> classObjects s !! k = Some c -> classObjects s' !! k = Some c.
Proof. intros (_ & (l & ->) & _) D. now apply lookup_app_l_Some. Qed.

End Extension.

(** ** The identity map across wrapper creation *)

(** X1. [GetOrCreateClass] never unregisters and never replaces: whatever
    the call does (answer from the map, create one wrapper, mirror a whole
    assembly), every handle registered before it is registered to the same
    wrapper after it, and every class object that existed is unchanged. *)
Theorem GetOrCreateClass_keeps_registrations (rt : Runtime) (typeHandle : handle)
    (s s' : Bridge) (r : option nat) :
  GetOrCreateClass rt typeHandle s = Ok (r, s') ->
  (forall h k, classHandles s !! h = Some k -> classHandles s' !! h = Some k)
  /\ (forall k c, classObjects s !! k = Some c -> classObjects s' !! k = Some c).
Proof.
  intros E. pose proof (GetOrCreateClass_extends rt _ _ _ _ E) as X. split.
  - intros h k L. destruct X as (Sub & _). eapply lookup_weaken; eassumption.
  - intros k c D. eapply extends_lookup; eassumption.
Qed.

(** Creating the wrapper of handle 30 leaves the wrapper of the exception
    class registered under 100. *)
Lemma GetOrCreateClass_keeps_registrations_witness :
  exists s', GetOrCreateClass sample_runtime 30 sample_mirrored = Ok (Some 1%nat, s')
             /\ classHandles s' !! 100 = Some 0%nat.
Proof.
  assert (exists s', GetOrCreateClass sample_runtime 30 sample_mirrored = Ok (Some 1%nat, s'))
    as (s' & E) by (eexists; vm_compute; reflexivity).
  exists s'. split; [exact E|].
  apply (proj1 (GetOrCreateClass_keeps_registrations sample_runtime 30 sample_mirrored s'
                  (Some 1%nat) E) 100 0%nat).
  vm_compute. reflexivity.
Defined.

(** X2. Well-formedness of the identity map is an invariant of
    [GetOrCreateClass]: if every entry leads to a live wrapper carrying the
    handle it is registered under, this still holds after a call that
    returns; the wrapper the call returns is live and registered under its
    own handle; and no two handles share a wrapper. *)
Theorem GetOrCreateClass_well_formed (rt : Runtime) (typeHandle : handle)
    (s s' : Bridge) (r : option nat) :
  handles_wf s ->
  GetOrCreateClass rt typeHandle s = Ok (r, s') ->
  handles_wf s'
  /\ (forall k, r = Some k ->
        exists c, classObjects s' !! k = Some c
                  /\ classHandles s' !! MClass._handle c = Some k)
  /\ (forall h1 h2 k, classHandles s' !! h1 = Some k -> classHandles s' !! h2 = Some k ->
                      h1 = h2).
Proof.
  intros W E. pose proof (GetOrCreateClass_extends rt _ _ _ _ E) as (Sub & _ & W').
  specialize (W' W). split; [exact W'|]. split.
  - intros k ->.
    assert (exists h, classHandles s' !! h = Some k) as (h & L).
    { destruct (Z.eqb_spec typeHandle nullptr) as [->|Hn].
      { rewrite GetOrCreateClass_null in E. discriminate. }
      destruct (classHandles s !! typeHandle) as [k0|] eqn:L.
      - rewrite (GetOrCreateClass_registered rt _ _ _ Hn L) in E. injection E as <- <-.
        now exists typeHandle.
      - destruct (GetOrCreateClass_registers rt _ _ _ _ Hn L E) as (k1 & [= <-] & _ & L1).
        eauto. }
    destruct (W' _ _ L) as (c & D & Hc). exists c. split; [exact D|]. now rewrite Hc.
  - intros h1 h2 k L1 L2.
    destruct (W' _ _ L1) as (c1 & D1 & <-). destruct (W' _ _ L2) as (c2 & D2 & <-).
    congruence.
Qed.

Lemma handles_wf_initial : handles_wf initial.
Proof. intros h k L. discriminate. Qed.

(** From the empty bridge, the wrapper of the exception class is created
    well-formed. *)
Lemma GetOrCreateClass_well_formed_witness :
  exists s' c, GetOrCreateClass sample_runtime 100 initial = Ok (Some 0%nat, s')
               /\ handles_wf s'
               /\ classObjects s' !! 0%nat = Some c
               /\ classHandles s' !! MClass._handle c = Some 0%nat.
Proof.
  assert (exists s', GetOrCreateClass sample_runtime 100 initial = Ok (Some 0%nat, s'))
    as (s' & E) by (eexists; vm_compute; reflexivity).
  destruct (GetOrCreateClass_well_formed sample_runtime 100 initial s' (Some 0%nat)
              handles_wf_initial E) as (W & Live & _).
  destruct (Live 0%nat eq_refl) as (c & D & L).
  exists s', c. repeat split; assumption.
Defined.

Section AssemblyClasses.
Context (rt : Runtime).

Lemma MAssembly_classes_Add_spec this fullName klass u s s' :
  MAssembly_classes_Add this fullName klass s = Ok (u, s') ->
  exists a, assemblyObjects s !! this = Some a
            /\ MAssembly._classes a !! fullName = None
            /\ s' = set_assemblyObjects
                      (<[this := MAssembly.set_classes
                                   (<[fullName := klass]> (MAssembly._classes a)) a]>
                         (assemblyObjects s)) s.
Proof.
  unfold MAssembly_classes_Add. intros E. inv_bind E as a s1 D.
  apply deref_assembly_inv in D as [-> D]. unfold Dictionary_Add in E.
  destruct (MAssembly._classes a !! fullName) eqn:L; [discriminate|].
  rewrite bind_lift_Ok in E. apply update_assembly_inv in E as (a0 & D0 & ->).
  exists a. rewrite D in D0. injection D0 as <-. repeat split; assumption.
Qed.

Lemma MClass_GetFullName_spec this n s s' :
  MClass_GetFullName this s = Ok (n, s') ->
  s' = s /\ exists c, classObjects s !! this = Some c /\ n = MClass._fullname c.
Proof.
  unfold MClass_GetFullName. intros E. inv_bind E as c s1 D.
  apply deref_class_inv in D as [-> D]. injection E as <- <-. eauto.
Qed.

Lemma after_free3_assemblyObjects {A B C} (p : option A) (q : option B) (r : option C) s :
  assemblyObjects (after_free rt r (after_free rt q (after_free rt p s))) = assemblyObjects s.
Proof.
  pose proof (after_free_same rt p s) as (_ & _ & F1 & _).
  pose proof (after_free_same rt q (after_free rt p s)) as (_ & _ & F2 & _).
  pose proof (after_free_same rt r (after_free rt q (after_free rt p s))) as (_ & _ & F3 & _).
  congruence.
Qed.

Lemma after_free3_classObjects {A B C} (p : option A) (q : option B) (r : option C) s :
  classObjects (after_free rt r (after_free rt q (after_free rt p s))) = classObjects s.
Proof. now rewrite !after_free_classObjects. Qed.

(** The loop over the listed classes: the assembly object keeps its handle
    and flags, its class map gains exactly one entry per listed class, and
    each of them is mirrored. *)
Lemma cache_classes_spec this managedClasses :
  forall u s s' a,
    cache_classes rt this managedClasses s = Ok (u, s') ->
    assemblyObjects s !! this = Some a ->
    exists classes,
      assemblyObjects s' = <[this := MAssembly.set_classes classes a]> (assemblyObjects s)
      /\ MAssembly._classes a ⊆ classes
      /\ Forall (class_mirrored s' classes) managedClasses
      /\ (forall n k, classes !! n = Some k ->
            MAssembly._classes a !! n = Some k
            \/ exists d, d ∈ managedClasses
                         /\ n = StringAnsi (NativeClassDefinitions.fullname d)
                         /\ classHandles s' !! NativeClassDefinitions.typeHandle d = Some k).
Proof.
  induction managedClasses as [|d rest IH]; intros u s s' a E D; simpl in E.
  - injection E as _ <-. exists (MAssembly._classes a).
    split; [destruct a; simpl; now rewrite list_insert_id|].
    split; [reflexivity|]. split; [constructor|]. auto.
  - inv_bind E as klass s1 EN. inv_bind E as fullName s2 EF.
    inv_bind E as u3 s3 EA. inv_bind E as u4 s4 E4.
    inv_bind E as u5 s5 E5. inv_bind E as u6 s6 E6.
    apply New_MClass_inv in EN as (K & _ & _ & C & (c & O & Hc & Fc & _) & _ & AO & _).
    apply MClass_GetFullName_spec in EF as (-> & c' & Dc & ->).
    assert (c' = c) as ->.
    { rewrite O, K, lookup_app_r, Nat.sub_diag in Dc by lia. now injection Dc. }
    apply MAssembly_classes_Add_spec in EA as (a1 & D1 & Fresh & ->).
    rewrite AO, D in D1. injection D1 as <-.
    apply MCore_GC_FreeMemory_inv in E4 as ->.
    apply MCore_GC_FreeMemory_inv in E5 as ->.
    apply MCore_GC_FreeMemory_inv in E6 as ->.
    set (a2 := MAssembly.set_classes (<[MClass._fullname c := klass]> (MAssembly._classes a)) a) in *.
    set (s3 := set_assemblyObjects _ s1) in *.
    set (s6 := after_free rt _ (after_free rt _ (after_free rt _ s3))) in *.
    assert (assemblyObjects s6 = <[this := a2]> (assemblyObjects s)) as A6.
    { unfold s6. rewrite after_free3_assemblyObjects. unfold s3. simpl. now rewrite AO. }
    assert (assemblyObjects s6 !! this = Some a2) as D6.
    { rewrite A6. apply list_lookup_insert_eq. eapply lookup_lt_Some, D. }
    destruct (IH _ _ _ _ E D6) as (classes & A' & Sub & Mir & Orig).
    pose proof (cache_classes_extends rt _ _ _ _ _ E) as X.
    assert (classHandles s' !! NativeClassDefinitions.typeHandle d = Some klass) as Lh.
    { destruct X as (SubH & _). eapply lookup_weaken; [|exact SubH].
      unfold s6. rewrite after_free3_classHandles. unfold s3. simpl. rewrite C.
      apply lookup_insert_eq. }
    assert (classObjects s' !! klass = Some c) as Lo.
    { eapply extends_lookup; [exact X|]. unfold s6. rewrite after_free3_classObjects.
      unfold s3. simpl. exact Dc. }
    exists classes. split; [|split; [|split]].
    + rewrite A', A6, list_insert_insert_eq. reflexivity.
    + etransitivity; [|exact Sub]. unfold a2. simpl. now apply insert_subseteq.
    + constructor; [|exact Mir]. exists klass, c. rewrite <- Fc.
      split; [eapply lookup_weaken; [|exact Sub]; unfold a2; simpl; apply lookup_insert_eq|].
      repeat split; assumption.
    + intros n k L. destruct (Orig n k L) as [L2|(d' & In & -> & L')].
      * unfold a2 in L2. simpl in L2.
        destruct (decide (n = MClass._fullname c)) as [->|N].
        -- rewrite lookup_insert_eq in L2. injection L2 as <-. right. exists d.
           split; [left|]. split; [exact Fc|exact Lh].
        -- rewrite lookup_insert_ne in L2 by congruence. now left.
      * right. exists d'. split; [now right|]. split; [reflexivity|exact L'].
Qed.

Lemma set_classes_flags classes a :
  MAssembly._handle (MAssembly.set_classes classes a) = MAssembly._handle a
  /\ MAssembly._classes (MAssembly.set_classes classes a) = classes.
Proof. now destruct a. Qed.

(** What a populating [GetClasses] leaves behind. *)
Lemma MAssembly_GetClasses_spec this s d s' a :
  MAssembly_GetClasses rt this s = Ok (d, s') ->
  assemblyObjects s !! this = Some a ->
  MAssembly._hasCachedClasses a = false -> MAssembly._isLoaded a = true ->
  assemblyObjects s' !! this
  = Some (MAssembly.set_hasCachedClasses true (MAssembly.set_classes d a))
  /\ Forall (class_mirrored s' d) (GetManagedClasses rt (MAssembly._handle a))
  /\ (forall n k, d !! n = Some k ->
        exists c, c ∈ GetManagedClasses rt (MAssembly._handle a)
                  /\ n = StringAnsi (NativeClassDefinitions.fullname c)
                  /\ classHandles s' !! NativeClassDefinitions.typeHandle c = Some k).
Proof.
  unfold MAssembly_GetClasses. intros E D F Ld. inv_bind E as a0 s0 D0.
  apply deref_assembly_inv in D0 as [-> D0]. rewrite D in D0. injection D0 as <-.
  rewrite F, Ld in E. cbn [orb negb] in E.
  inv_bind E as u1 s1 E1. inv_bind E as defs s2 E2. inv_bind E as u3 s3 E3.
  inv_bind E as u4 s4 E4. inv_bind E as u5 s5 E5. inv_bind E as a' s6 E6.
  injection E as <- <-.
  apply ASSERT_inv in E1 as [-> Em]. apply bool_decide_eq_true in Em.
  apply CallStaticMethod_inv in E2 as [-> ->].
  pose proof (after_call_same rt "GetManagedClasses" [MAssembly._handle a] s) as (_ & _ & AO & _).
  assert (assemblyObjects (after_call rt "GetManagedClasses" [MAssembly._handle a] s) !! this
          = Some a) as D1 by now rewrite AO.
  destruct (cache_classes_spec _ _ _ _ _ _ E3 D1) as (classes & A3 & _ & Mir & Orig).
  apply MCore_GC_FreeMemory_inv in E4 as ->.
  set (s4 := after_free rt _ s3) in *.
  pose proof (after_free_same rt (Some (GetManagedClasses rt (MAssembly._handle a))) s3)
    as (H4 & _ & A4 & _).
  pose proof (after_free_classObjects rt (Some (GetManagedClasses rt (MAssembly._handle a))) s3)
    as O4.
  fold s4 in H4, A4, O4. clearbody s4.
  apply update_assembly_inv in E5 as (a4 & D4 & ->).
  assert (a4 = MAssembly.set_classes classes a) as ->.
  { rewrite A4, A3, list_lookup_insert_eq in D4 by (rewrite AO; eapply lookup_lt_Some, D).
    now injection D4. }
  apply deref_assembly_inv in E6 as [-> D6]. simpl in D6.
  rewrite list_lookup_insert_eq in D6 by (eapply lookup_lt_Some, D4).
  injection D6 as <-. simpl. split; [|split].
  - rewrite list_lookup_insert_eq by (eapply lookup_lt_Some, D4). reflexivity.
  - eapply Forall_impl; [exact Mir|]. intros x (k & c & M1 & M2 & M3 & M4).
    exists k, c. simpl_bridge. rewrite H4, O4. repeat split; tauto.
  - intros n k L. destruct (Orig n k L) as [L0|(x & In & -> & Lx)].
    + rewrite Em in L0. discriminate.
    + exists x. simpl_bridge. rewrite H4. repeat split; assumption.
Qed.

Lemma deref_assembly_Some k a s :
  assemblyObjects s !! k = Some a -> deref_assembly k s = Ok (a, s).
Proof. intros E. unfold deref_assembly. rewrite bind_gets, E. reflexivity. Qed.

(** An assembly that is not loaded, or whose classes are cached, answers
    from its class map. *)
Lemma MAssembly_GetClasses_cached this a s :
  assemblyObjects s !! this = Some a ->
  MAssembly._hasCachedClasses a || negb (MAssembly._isLoaded a) = true ->
  MAssembly_GetClasses rt this s = Ok (MAssembly._classes a, s).
Proof.
  intros D F. unfold MAssembly_GetClasses.
  rewrite (bind_Ok _ _ _ _ _ (deref_assembly_Some this a s D)), F. reflexivity.
Qed.

End AssemblyClasses.

(** ** The class map of an assembly *)

(** X3. [MAssembly::GetClasses] populates once: after a call that
    returns, a second call returns the same map and leaves the state as it
    is, so it neither asks the runtime again nor creates a wrapper. *)
Theorem GetClasses_populates_once (rt : Runtime) (this : nat) (s s1 : Bridge)
    (d : gmap string nat) :
  MAssembly_GetClasses rt this s = Ok (d, s1) ->
  MAssembly_GetClasses rt this s1 = Ok (d, s1).
Proof.
  intros E.
  assert (exists a, assemblyObjects s !! this = Some a) as (a & D).
  { unfold MAssembly_GetClasses in E. inv_bind E as a s0 D0.
    apply deref_assembly_inv in D0 as [_ D0]. eauto. }
  destruct (MAssembly._hasCachedClasses a || negb (MAssembly._isLoaded a)) eqn:F.
  - rewrite (MAssembly_GetClasses_cached rt _ _ _ D F) in E. injection E as <- <-.
    now apply MAssembly_GetClasses_cached.
  - apply orb_false_elim in F as [F1 F2]. apply negb_false_iff in F2.
    destruct (MAssembly_GetClasses_spec rt _ _ _ _ _ E D F1 F2) as (D1 & _).
    rewrite (MAssembly_GetClasses_cached rt _ _ _ D1 eq_refl). now destruct a.
Qed.

(** The two classes of the sample assembly are mirrored by the first call;
    the second call is a pure read. *)
Lemma GetClasses_populates_once_witness :
  exists d s1,
    MAssembly_GetClasses sample_assembly_runtime 0 sample_loaded = Ok (d, s1)
    /\ d = {[ "Game.Player" := 0%nat; "Game.Score" := 1%nat ]}
    /\ MAssembly_GetClasses sample_assembly_runtime 0 s1 = Ok (d, s1).
Proof.
  assert (exists d s1,
            MAssembly_GetClasses sample_assembly_runtime 0 sample_loaded = Ok (d, s1)
            /\ d = {[ "Game.Player" := 0%nat; "Game.Score" := 1%nat ]})
    as (d & s1 & E & Hd) by (eexists; eexists; split; vm_compute; reflexivity).
  exists d, s1. split; [exact E|]. split; [exact Hd|].
  exact (GetClasses_populates_once sample_assembly_runtime 0 sample_loaded s1 d E).
Defined.

(** X4. A populating [MAssembly::GetClasses] mirrors exactly the classes
    the runtime lists for the assembly: each listed class has a live wrapper
    that carries its type handle and full name, is registered in the identity
    map under the type handle and entered in the class map under the full
    name; and the class map has no entry that does not come from the list. *)
Theorem GetClasses_mirrors_listed_classes (rt : Runtime) (this : nat) (s s' : Bridge)
    (d : gmap string nat) (a : MAssembly.t) :
  MAssembly_GetClasses rt this s = Ok (d, s') ->
  assemblyObjects s !! this = Some a ->
  MAssembly._hasCachedClasses a = false ->
  MAssembly._isLoaded a = true ->
  Forall (class_mirrored s' d) (GetManagedClasses rt (MAssembly._handle a))
  /\ (forall n k, d !! n = Some k ->
        exists c, c ∈ GetManagedClasses rt (MAssembly._handle a)
                  /\ n = StringAnsi (NativeClassDefinitions.fullname c)
                  /\ classHandles s' !! NativeClassDefinitions.typeHandle c = Some k).
Proof.
  intros E D F L.
  destruct (MAssembly_GetClasses_spec rt this s d s' a E D F L) as (_ & Mir & Orig).
  split; assumption.
Qed.

Lemma GetClasses_mirrors_listed_classes_witness :
  exists d s1,
    MAssembly_GetClasses sample_assembly_runtime 0 sample_loaded = Ok (d, s1)
    /\ Forall (class_mirrored s1 d) (GetManagedClasses sample_assembly_runtime 900)
    /\ classHandles s1 !! 32 = Some 1%nat.
Proof.
  assert (exists d s1,
            MAssembly_GetClasses sample_assembly_runtime 0 sample_loaded = Ok (d, s1)
            /\ classHandles s1 !! 32 = Some 1%nat)
    as (d & s1 & E & L) by (eexists; eexists; split; vm_compute; reflexivity).
  exists d, s1. split; [exact E|]. split; [|exact L].
  apply (GetClasses_mirrors_listed_classes sample_assembly_runtime 0 sample_loaded s1 d
           (MAssembly.mk 900 true false ∅) E); reflexivity.
Defined.

Lemma find_first_match {A} (f : A -> bool) (l : list A) :
  match List.find f l with
  | Some x => first_match f l x
  | None => forall y, y ∈ l -> f y = false
  end.
Proof.
  induction l as [|a l IH]; simpl.
  - intros y In. inversion In.
  - destruct (f a) eqn:Fa.
    + exists 0%nat. split; [reflexivity|]. split; [exact Fa|]. intros j y Hj. lia.
    + destruct (List.find f l) as [x|].
      * destruct IH as (i & L & Fx & Before). exists (S i).
        split; [exact L|]. split; [exact Fx|].
        intros [|j] y Hj Lj; [simpl in Lj; congruence|]. apply (Before j y); [lia|exact Lj].
      * intros y In. apply elem_of_cons in In as [->|In]; [exact Fa|now apply IH].
Qed.

(** ** Member lookup by name *)

(** X5. [MClass::GetMethod(name, numParams)] returns the first method of
    the populated cache whose name and parameter count both equal the
    arguments, in the order the runtime listed the methods, and [nullptr]
    exactly when no cached method has both; overloads of equal arity are not
    told apart.  After a call that returns, the same lookup is a pure
    read. *)
Theorem GetMethod_first_by_name_and_arity (rt : Runtime) (this : nat)
    (name : string) (numParams : Z) (s s' : Bridge) (r : option MMethod.t) :
  MClass_GetMethod rt this name numParams s = Ok (r, s') ->
  (exists c,
     classObjects s' !! this = Some c
     /\ MClass._hasCachedMethods c = true
     /\ match r with
        | Some m =>
            first_match (method_matches name numParams) (MClass._methods c) m
            /\ MMethod._name m = name /\ MMethod._paramsCount m = numParams
        | None =>
            forall m, m ∈ MClass._methods c -> MMethod._name m = name ->
                      MMethod._paramsCount m <> numParams
        end)
  /\ MClass_GetMethod rt this name numParams s' = Ok (r, s').
Proof.
  unfold MClass_GetMethod. intros E. inv_bind E as ms s1 G. injection E as <- <-.
  destruct (GetMethods_populates rt _ _ _ _ G) as (c & D & F & <-).
  split.
  - exists c. split; [exact D|]. split; [exact F|].
    pose proof (find_first_match (method_matches name numParams) (MClass._methods c)) as FF.
    unfold method_matches in FF at 1.
    destruct (List.find _ (MClass._methods c)) as [m|].
    + split; [exact FF|]. destruct FF as (_ & _ & Fm & _). unfold method_matches in Fm.
      apply andb_true_iff in Fm as [N P].
      apply String.eqb_eq in N. apply Z.eqb_eq in P. now split.
    + intros m In N P. specialize (FF m In). unfold method_matches in FF.
      rewrite (proj2 (String.eqb_eq _ _) N), (proj2 (Z.eqb_eq _ _) P) in FF. discriminate.
  - now rewrite (bind_Ok _ _ _ _ _ (GetMethods_cached rt this c s1 D F)).
Qed.

(** The sample class lists one method, [ToString] without parameters: it is
    found under that name and arity, and not with one parameter. *)
Lemma GetMethod_first_by_name_and_arity_witness :
  (exists m s1,
     MClass_GetMethod sample_runtime 0 "ToString" 0 sample_mirrored = Ok (Some m, s1)
     /\ MMethod._handle m = 301
     /\ MClass_GetMethod sample_runtime 0 "ToString" 0 s1 = Ok (Some m, s1))
  /\ (exists s1,
     MClass_GetMethod sample_runtime 0 "ToString" 1 sample_mirrored = Ok (None, s1)
     /\ MClass_GetMethod sample_runtime 0 "ToString" 1 s1 = Ok (None, s1)).
Proof.
  split.
  - assert (exists m s1,
              MClass_GetMethod sample_runtime 0 "ToString" 0 sample_mirrored = Ok (Some m, s1)
              /\ MMethod._handle m = 301)
      as (m & s1 & E & H) by (eexists; eexists; split; vm_compute; reflexivity).
    exists m, s1. split; [exact E|]. split; [exact H|].
    exact (proj2 (GetMethod_first_by_name_and_arity sample_runtime 0 "ToString" 0
                    sample_mirrored s1 (Some m) E)).
  - assert (exists s1,
              MClass_GetMethod sample_runtime 0 "ToString" 1 sample_mirrored = Ok (None, s1))
      as (s1 & E) by (eexists; vm_compute; reflexivity).
    exists s1. split; [exact E|].
    exact (proj2 (GetMethod_first_by_name_and_arity sample_runtime 0 "ToString" 1
                    sample_mirrored s1 None E)).
Defined.

(** X6. [MClass::GetField(name)] returns the first field of the populated
    cache with that name and [nullptr] exactly when the cache has no field of
    that name; after a call that returns, the same lookup is a pure read. *)
Theorem GetField_first_by_name (rt : Runtime) (this : nat) (name : string)
    (s s' : Bridge) (r : option MField.t) :
  MClass_GetField rt this name s = Ok (r, s') ->
  (exists c,
     classObjects s' !! this = Some c
     /\ MClass._hasCachedFields c = true
     /\ match r with
        | Some f =>
            first_match (fun f => String.eqb (MField._name f) name) (MClass._fields c) f
            /\ MField._name f = name
        | None => forall f, f ∈ MClass._fields c -> MField._name f <> name
        end)
  /\ MClass_GetField rt this name s' = Ok (r, s').
Proof.
  unfold MClass_GetField. intros E. inv_bind E as fs s1 G. injection E as <- <-.
  destruct (GetFields_populates rt _ _ _ _ G) as (c & D & F & <-).
  split.
  - exists c. split; [exact D|]. split; [exact F|].
    pose proof (find_first_match (fun f => String.eqb (MField._name f) name)
                  (MClass._fields c)) as FF.
    destruct (List.find _ (MClass._fields c)) as [f|].
    + split; [exact FF|]. destruct FF as (_ & _ & Ff & _). now apply String.eqb_eq in Ff.
    + intros f In N. specialize (FF f In). simpl in FF.
      rewrite (proj2 (String.eqb_eq _ _) N) in FF. discriminate.
  - now rewrite (bind_Ok _ _ _ _ _ (GetFields_cached rt this c s1 D F)).
Qed.

Lemma GetField_first_by_name_witness :
  (exists f s1,
     MClass_GetField sample_runtime 0 "_message" sample_mirrored = Ok (Some f, s1)
     /\ MField._handle f = 401
     /\ MClass_GetField sample_runtime 0 "_message" s1 = Ok (Some f, s1))
  /\ (exists s1,
     MClass_GetField sample_runtime 0 "_stackTrace" sample_mirrored = Ok (None, s1)
     /\ MClass_GetField sample_runtime 0 "_stackTrace" s1 = Ok (None, s1)).
Proof.
  split.
  - assert (exists f s1,
              MClass_GetField sample_runtime 0 "_message" sample_mirrored = Ok (Some f, s1)
              /\ MField._handle f = 401)
      as (f & s1 & E & H) by (eexists; eexists; split; vm_compute; reflexivity).
    exists f, s1. split; [exact E|]. split; [exact H|].
    exact (proj2 (GetField_first_by_name sample_runtime 0 "_message" sample_mirrored s1
                    (Some f) E)).
  - assert (exists s1,
              MClass_GetField sample_runtime 0 "_stackTrace" sample_mirrored = Ok (None, s1))
      as (s1 & E) by (eexists; vm_compute; reflexivity).
    exists s1. split; [exact E|].
    exact (proj2 (GetField_first_by_name sample_runtime 0 "_stackTrace" sample_mirrored s1
                    None E)).
Defined.

Section Relations.
Context (rt : Runtime) (rx : RuntimeMore).

Lemma after_call_classHandles n args s :
  classHandles (after_call rt n args s) = classHandles s.
Proof. apply (after_call_same rt n args s). Qed.

Lemma after_resolve_classHandles n s :
  classHandles (after_resolve rt n s) = classHandles s.
Proof. apply (after_resolve_same rt n s). Qed.

(** A call of [GetOrCreateClass] on a handle that is registered or canonical
    leaves the handle registered to the wrapper it returns. *)
Lemma GetOrCreateClass_lookup typeHandle s r s' :
  typeHandle <> nullptr ->
  classHandles s !! typeHandle <> None \/ canonical rt typeHandle ->
  GetOrCreateClass rt typeHandle s = Ok (r, s') ->
  exists k, r = Some k /\ classHandles s' !! typeHandle = Some k.
Proof.
  intros Hn Hc E. destruct (classHandles s !! typeHandle) as [k|] eqn:L.
  - rewrite (GetOrCreateClass_registered rt _ _ _ Hn L) in E. injection E as <- <-. eauto.
  - destruct Hc as [?|Hc]; [congruence|].
    destruct (GetOrCreateClass_registers rt _ _ _ _ Hn L E) as (k & -> & _ & L1).
    rewrite Hc in L1. eauto.
Qed.

Lemma GetOrCreateClass_Some typeHandle s r s' :
  typeHandle <> nullptr ->
  GetOrCreateClass rt typeHandle s = Ok (r, s') -> exists k, r = Some k.
Proof.
  intros Hn E. destruct (classHandles s !! typeHandle) as [k|] eqn:L.
  - rewrite (GetOrCreateClass_registered rt _ _ _ Hn L) in E. injection E as <- <-. eauto.
  - destruct (GetOrCreateClass_registers rt _ _ _ _ Hn L E) as (k & -> & _). eauto.
Qed.

End Relations.

(** ** Class relations *)

Lemma handles_wf_sample_mirrored : handles_wf sample_mirrored.
Proof.
  unfold sample_mirrored.
  destruct (GetOrCreateClass sample_runtime 100 initial) as [[r s]|f] eqn:E.
  - apply (GetOrCreateClass_extends sample_runtime _ _ _ _ E). intros h k L. discriminate.
  - intros h k L. discriminate.
Qed.

(** The wrapper [GetOrCreateClass] returns for a non-null handle, in a
    well-formed state: a live object that carries the wrapped handle and is
    registered under it. *)
Lemma GetOrCreateClass_wraps rt typeHandle s r s' :
  handles_wf s ->
  typeHandle <> nullptr ->
  GetOrCreateClass rt typeHandle s = Ok (r, s') ->
  exists k c,
    r = Some k
    /\ classObjects s' !! k = Some c
    /\ MClass._handle c = wrapped_handle rt s typeHandle
    /\ classHandles s' !! wrapped_handle rt s typeHandle = Some k.
Proof.
  intros W Hn E. unfold wrapped_handle.
  pose proof (GetOrCreateClass_extends rt _ _ _ _ E) as (_ & _ & W').
  specialize (W' W).
  destruct (classHandles s !! typeHandle) as [k|] eqn:L.
  - rewrite (GetOrCreateClass_registered rt _ _ _ Hn L) in E. injection E as <- <-.
    destruct (W _ _ L) as (c & D & Hc). now exists k, c.
  - destruct (GetOrCreateClass_registers rt _ _ _ _ Hn L E) as (k & -> & _ & L1).
    destruct (W' _ _ L1) as (c & D & Hc). now exists k, c.
Qed.

(** X7. [MClass::GetBaseClass] asks the runtime for the parent handle of
    the class and wraps it.  A class without parent has the base class
    [nullptr].  Otherwise the result is a live wrapper that carries the
    parent handle (the handle the runtime describes the parent under, when
    the wrapper had to be made; the parent handle itself when that one is
    registered or canonical) and is registered under it; the runtime was
    asked once for the parent of this class's handle.  And when the parent
    handle is null, registered or canonical, asking again returns the very
    same wrapper. *)
Theorem GetBaseClass_wraps_parent (rt : Runtime) (rx : RuntimeMore) (this : nat)
    (c : MClass.t) (s s' : Bridge) (r : option nat) :
  handles_wf s ->
  classObjects s !! this = Some c ->
  MClass_GetBaseClass rt rx this s = Ok (r, s') ->
  (GetClassParent rx (MClass._handle c) = nullptr -> r = None)
  /\ (GetClassParent rx (MClass._handle c) <> nullptr ->
      exists k parent,
        r = Some k
        /\ classObjects s' !! k = Some parent
        /\ MClass._handle parent = wrapped_handle rt s (GetClassParent rx (MClass._handle c))
        /\ classHandles s' !! MClass._handle parent = Some k
        /\ (classHandles s !! GetClassParent rx (MClass._handle c) <> None
            \/ canonical rt (GetClassParent rx (MClass._handle c)) ->
            MClass._handle parent = GetClassParent rx (MClass._handle c)))
  /\ (exists s1,
        CallStaticMethod rt "GetClassParent" [MClass._handle c]
          (GetClassParent rx (MClass._handle c)) s
        = Ok (GetClassParent rx (MClass._handle c), s1)
        /\ GetOrCreateClass rt (GetClassParent rx (MClass._handle c)) s1 = Ok (r, s'))
  /\ (resolves rt "GetClassParent" ->
      GetClassParent rx (MClass._handle c) = nullptr
      \/ classHandles s !! GetClassParent rx (MClass._handle c) <> None
      \/ canonical rt (GetClassParent rx (MClass._handle c)) ->
      exists s2, MClass_GetBaseClass rt rx this s' = Ok (r, s2)).
Proof.
  intros W D E. unfold MClass_GetBaseClass in E.
  rewrite (bind_Ok _ _ _ _ _ (deref_class_Some this c s D)) in E.
  inv_bind E as parent s1 EC. pose proof EC as EC'.
  apply CallStaticMethod_inv in EC as [-> ->].
  set (parent := GetClassParent rx (MClass._handle c)) in *.
  set (s1 := after_call rt "GetClassParent" [MClass._handle c] s) in *.
  assert (handles_wf s1) as W1.
  { intros h k. unfold s1. rewrite after_call_classHandles, after_call_classObjects. apply W. }
  assert (wrapped_handle rt s1 parent = wrapped_handle rt s parent) as WH.
  { unfold wrapped_handle, s1. now rewrite after_call_classHandles. }
  split; [|split; [|split]].
  - intros P. rewrite P, GetOrCreateClass_null in E. now injection E as <- _.
  - intros P. destruct (GetOrCreateClass_wraps rt _ _ _ _ W1 P E) as (k & p & -> & Dp & Hp & Lp).
    exists k, p. rewrite <- WH, Hp. split; [reflexivity|]. split; [exact Dp|].
    split; [reflexivity|]. split; [exact Lp|].
    intros Hc. rewrite WH. unfold wrapped_handle.
    destruct (classHandles s !! parent) eqn:L; [reflexivity|].
    destruct Hc as [Hc|Hc]; [contradiction|exact Hc].
  - exists s1. split; [exact EC'|exact E].
  - intros R Hp.
    assert (classObjects s' !! this = Some c) as D'.
    { eapply extends_lookup; [eapply GetOrCreateClass_extends, E|].
      unfold s1. now rewrite after_call_classObjects. }
    unfold MClass_GetBaseClass.
    rewrite (bind_Ok _ _ _ _ _ (deref_class_Some this c s' D')).
    rewrite (bind_Ok _ _ _ _ _ (CallStaticMethod_resolves rt _ _ _ _ R)). fold parent.
    destruct (Z.eqb_spec parent nullptr) as [P|P].
    + rewrite P, GetOrCreateClass_null in *. injection E as <- _. eauto.
    + destruct Hp as [?|Hp]; [contradiction|].
      rewrite <- (after_call_classHandles rt "GetClassParent" [MClass._handle c] s) in Hp.
      destruct (GetOrCreateClass_lookup rt _ _ _ _ P Hp E) as (k & -> & L).
      eexists. apply GetOrCreateClass_registered; [exact P|].
      now rewrite after_call_classHandles.
Qed.

(** The exception class of the sample runtime derives from the class 50:
    its base class is a new wrapper that carries the handle 50. *)
Lemma GetBaseClass_wraps_parent_witness :
  exists s1 s2 parent,
    MClass_GetBaseClass sample_runtime sample_more 0 sample_mirrored = Ok (Some 1%nat, s1)
    /\ classObjects s1 !! 1%nat = Some parent
    /\ MClass._handle parent = 50
    /\ classHandles s1 !! 50 = Some 1%nat
    /\ MClass_GetBaseClass sample_runtime sample_more 0 s1 = Ok (Some 1%nat, s2).
Proof.
  assert (exists c s1,
            classObjects sample_mirrored !! 0%nat = Some c
            /\ MClass._handle c = 100
            /\ MClass_GetBaseClass sample_runtime sample_more 0 sample_mirrored
               = Ok (Some 1%nat, s1))
    as (c & s1 & D & Hc & E)
    by (eexists; eexists; split; [|split]; vm_compute; reflexivity).
  destruct (GetBaseClass_wraps_parent sample_runtime sample_more 0 c sample_mirrored s1
              (Some 1%nat) handles_wf_sample_mirrored D E) as (_ & Wraps & _ & Again).
  rewrite Hc in Wraps, Again.
  destruct Wraps as (k & parent & [= <-] & Dp & Hp & Lp & _); [discriminate|].
  destruct Again as (s2 & E2); [reflexivity| |].
  { right. right. reflexivity. }
  assert (wrapped_handle sample_runtime sample_mirrored
            (GetClassParent sample_more 100) = 50) as WH by (vm_compute; reflexivity).
  rewrite WH in Hp. rewrite Hp in Lp.
  exists s1, s2, parent. repeat (split; [assumption|]). assumption.
Defined.

(** X8. A null class is nobody's relative: [IsSubClassOf] and
    [HasInterface] with [klass == nullptr] answer [false] without a managed
    call, and [IsInstanceOfType] of the null object answers [false] without
    touching the bridge at all.  The entry point is resolved all the same, on
    entry: with a name the catalogue does not know, [IsSubClassOf] is fatal
    even for the null class. *)
Theorem null_class_is_no_relative (rt : Runtime) (rx : RuntimeMore) (this : nat) (s : Bridge) :
  (forall checkInterfaces r s',
     MClass_IsSubClassOf rt rx this None checkInterfaces s = Ok (r, s') ->
     r = false
     /\ (forall n args, managed_calls n args s' = managed_calls n args s)
     /\ same_objects s s' /\ classObjects s' = classObjects s)
  /\ (forall r s',
        MClass_HasInterface rt rx this None s = Ok (r, s') ->
        r = false
        /\ (forall n args, managed_calls n args s' = managed_calls n args s)
        /\ same_objects s s' /\ classObjects s' = classObjects s)
  /\ MClass_IsInstanceOfType rt rx this nullptr s = Ok (false, s)
  /\ (forall checkInterfaces,
        CachedFunctions s !! "TypeIsSubclassOf" = None ->
        ~ resolves rt "TypeIsSubclassOf" ->
        MClass_IsSubClassOf rt rx this None checkInterfaces s = Fail FatalLog).
Proof.
  split; [|split; [|split]].
  - intros b r s' E. unfold MClass_IsSubClassOf in E. inv_bind E as fn s1 R.
    apply GetStaticMethodPointer_inv in R as ->. injection E as <- <-.
    split; [reflexivity|]. split; [intros; apply managed_calls_after_resolve|].
    split; [apply after_resolve_same|apply after_resolve_classObjects].
  - intros r s' E. unfold MClass_HasInterface in E. inv_bind E as fn s1 R.
    apply GetStaticMethodPointer_inv in R as ->. injection E as <- <-.
    split; [reflexivity|]. split; [intros; apply managed_calls_after_resolve|].
    split; [apply after_resolve_same|apply after_resolve_classObjects].
  - reflexivity.
  - intros b C N. unfold MClass_IsSubClassOf.
    unfold bind. now rewrite (GetStaticMethodPointer_unknown rt _ _ C N).
Qed.

(** X9. [IsInstanceOfType(object)] asks the runtime whether the class it
    is called on derives from the class of the object: the arguments of
    [TypeIsSubclassOf] are the handle of [this] first and the type handle of
    the object second, without the interface check.  An object whose type
    handle is null is an instance of nothing. *)
Theorem IsInstanceOfType_asks_about_this (rt : Runtime) (rx : RuntimeMore) (this : nat)
    (c : MClass.t) (object : handle) (s s' : Bridge) (b : bool) :
  handles_wf s ->
  classObjects s !! this = Some c ->
  object <> nullptr ->
  MClass_IsInstanceOfType rt rx this object s = Ok (b, s') ->
  (GetObjectType rt object = nullptr -> b = false)
  /\ (GetObjectType rt object <> nullptr ->
      classHandles s !! GetObjectType rt object <> None
      \/ canonical rt (GetObjectType rt object) ->
      b = TypeIsSubclassOf rx (MClass._handle c) (GetObjectType rt object) false).
Proof.
  intros W D Ho E. unfold MClass_IsInstanceOfType in E.
  destruct (Z.eqb_spec object nullptr) as [?|_]; [contradiction|].
  inv_bind E as objectClass s2 EG. unfold MCore_Object_GetClass in EG.
  inv_bind EG as t s1 EC. apply CallStaticMethod_inv in EC as [-> ->].
  set (t := GetObjectType rt object) in *.
  unfold MClass_IsSubClassOf in E. inv_bind E as fn s3 R.
  apply GetStaticMethodPointer_inv in R as ->. split.
  - intros T. rewrite T, GetOrCreateClass_null in EG. injection EG as <- <-.
    now injection E as <- _.
  - intros T Hc.
    rewrite <- (after_call_classHandles rt "GetObjectType" [object] s) in Hc.
    destruct (GetOrCreateClass_lookup rt _ _ _ _ T Hc EG) as (k & -> & L).
    pose proof (GetOrCreateClass_extends rt _ _ _ _ EG) as X.
    assert (handles_wf s2) as W2.
    { apply X. intros h k'. rewrite after_call_classHandles, after_call_classObjects. apply W. }
    destruct (W2 _ _ L) as (kc & Dk & Hk).
    assert (classObjects s2 !! this = Some c) as D2.
    { eapply extends_lookup; [exact X|]. now rewrite after_call_classObjects. }
    rewrite (bind_Ok _ _ _ _ _ (deref_class_Some this c _
               ltac:(rewrite after_resolve_classObjects; exact D2))) in E.
    rewrite (bind_Ok _ _ _ _ _ (deref_class_Some k kc _
               ltac:(rewrite after_resolve_classObjects; exact Dk))) in E.
    apply CallStaticMethod_inv in E as [-> _]. now rewrite Hk.
Qed.

(** An exception object of the sample runtime is an instance of the
    exception class. *)
Lemma IsInstanceOfType_asks_about_this_witness :
  exists s',
    MClass_IsInstanceOfType sample_runtime sample_more 0 1001 sample_mirrored = Ok (true, s')
    /\ true = TypeIsSubclassOf sample_more 100 100 false.
Proof.
  assert (exists c s',
            classObjects sample_mirrored !! 0%nat = Some c
            /\ MClass._handle c = 100
            /\ MClass_IsInstanceOfType sample_runtime sample_more 0 1001 sample_mirrored
               = Ok (true, s'))
    as (c & s' & D & Hc & E)
    by (eexists; eexists; split; [|split]; vm_compute; reflexivity).
  exists s'. split; [exact E|].
  pose proof (proj2 (IsInstanceOfType_asks_about_this sample_runtime sample_more 0 c 1001
                       sample_mirrored s' true handles_wf_sample_mirrored D
                       ltac:(discriminate) E) ltac:(discriminate) (or_intror eq_refl)) as P.
  rewrite Hc in P. exact P.
Defined.

Section Lifetime.
Context (rt : Runtime).

(** Creation of a wrapper for a canonical handle whose assembly has no
    wrapper: exactly one object and one registration are added. *)
Lemma GetOrCreateClass_unowned_inv typeHandle s r s' :
  typeHandle <> nullptr ->
  classHandles s !! typeHandle = None ->
  canonical rt typeHandle ->
  assemblyHandles s !! (GetManagedClassFromType rt typeHandle).2 = None ->
  GetOrCreateClass rt typeHandle s = Ok (r, s') ->
  r = Some (length (classObjects s))
  /\ classHandles s' = <[typeHandle := length (classObjects s)]> (classHandles s)
  /\ (exists c, classObjects s' = (classObjects s ++ [c])%list
                /\ MClass._handle c = typeHandle
                /\ MClass._fullname c
                   = StringAnsi (NativeClassDefinitions.fullname
                                   (GetManagedClassFromType rt typeHandle).1))
  /\ assemblyHandles s' = assemblyHandles s
  /\ assemblyObjects s' = assemblyObjects s.
Proof.
  intros Hn L Hc Ha. unfold GetOrCreateClass, canonical in *.
  destruct (Z.eqb_spec typeHandle nullptr) as [?|_]; [contradiction|].
  rewrite bind_gets, L. intros E.
  inv_bind E as described s1 E1. apply CallStaticMethod_inv in E1 as [-> ->].
  destruct (GetManagedClassFromType rt typeHandle) as [classInfo assemblyHandle] eqn:G.
  cbn [fst snd] in *. unfold GetAssembly in E. rewrite bind_gets in E.
  pose proof (after_call_same rt "GetManagedClassFromType" [typeHandle] s)
    as (A1 & A2 & A3 & _).
  rewrite A2, Ha, Hc in E.
  inv_bind E as klass s2 EN.
  apply New_MClass_inv in EN as (K & _ & _ & C & (c & O & Hh & Hf & _) & B2 & B3 & _).
  rewrite after_call_classObjects in K, O. rewrite A1 in C. rewrite A2 in B2. rewrite A3 in B3.
  rewrite bind_ret, Z.eqb_refl in E. cbn [negb] in E. rewrite bind_ret in E.
  inv_bind E as u5 s5 E5. inv_bind E as u6 s6 E6. inv_bind E as u7 s7 E7.
  injection E as <- <-.
  apply MCore_GC_FreeMemory_inv in E5 as ->.
  apply MCore_GC_FreeMemory_inv in E6 as ->.
  apply MCore_GC_FreeMemory_inv in E7 as ->.
  rewrite after_free3_classHandles, after_free3_classObjects, after_free3_assemblyObjects.
  pose proof (after_free_same rt (NativeClassDefinitions.name classInfo) s2) as (_ & F1 & _).
  pose proof (after_free_same rt (NativeClassDefinitions.fullname classInfo)
                (after_free rt (NativeClassDefinitions.name classInfo) s2)) as (_ & F2 & _).
  pose proof (after_free_same rt (NativeClassDefinitions.namespace_ classInfo)
                (after_free rt (NativeClassDefinitions.fullname classInfo)
                   (after_free rt (NativeClassDefinitions.name classInfo) s2)))
    as (_ & F3 & _).
  rewrite F3, F2, F1. subst klass.
  split; [reflexivity|]. split; [exact C|]. split; [|split; assumption].
  exists c. split; [exact O|]. split; assumption.
Qed.

Lemma update_class_frame k f c s :
  classObjects s !! k = Some c ->
  exists s', update_class k f s = Ok (tt, s')
             /\ classObjects s' = <[k := f c]> (classObjects s)
             /\ classObjects s' !! k = Some (f c)
             /\ classHandles s' = classHandles s
             /\ assemblyHandles s' = assemblyHandles s
             /\ assemblyObjects s' = assemblyObjects s.
Proof.
  intros D. eexists. split; [apply (update_class_Some k f c s D)|].
  simpl_bridge. split; [reflexivity|].
  split; [apply list_lookup_insert_eq; eapply lookup_lt_Some, D|]. now repeat split.
Qed.

(** What the destructor of a live wrapper does. *)
Lemma MClass_dtor_spec this c s :
  classObjects s !! this = Some c ->
  exists s', MClass_dtor this s = Ok (tt, s')
             /\ classHandles s' = delete (MClass._handle c) (classHandles s)
             /\ assemblyHandles s' = assemblyHandles s
             /\ assemblyObjects s' = assemblyObjects s
             /\ exists c', classObjects s' = <[this := c']> (classObjects s)
                           /\ MClass._handle c' = MClass._handle c
                           /\ MClass._methods c' = [] /\ MClass._fields c' = []
                           /\ MClass._properties c' = [].
Proof.
  intros D. unfold MClass_dtor.
  destruct (update_class_frame this (MClass.set_methods []) c s D)
    as (s1 & E1 & O1 & D1 & H1 & A1 & B1).
  destruct (update_class_frame this (MClass.set_fields []) _ s1 D1)
    as (s2 & E2 & O2 & D2 & H2 & A2 & B2).
  destruct (update_class_frame this (MClass.set_properties []) _ s2 D2)
    as (s3 & E3 & O3 & D3 & H3 & A3 & B3).
  rewrite (bind_Ok _ _ _ _ _ E1), (bind_Ok _ _ _ _ _ E2), (bind_Ok _ _ _ _ _ E3).
  rewrite (bind_Ok _ _ _ _ _ (deref_class_Some this _ s3 D3)).
  eexists. split; [reflexivity|]. simpl_bridge. unfold Dictionary_Remove.
  split; [now rewrite H3, H2, H1|]. split; [congruence|]. split; [congruence|].
  eexists. split; [rewrite O3, O2, O1, !list_insert_insert_eq; reflexivity|].
  now repeat split.
Qed.

End Lifetime.

(** ** Lifetime of a wrapper *)

(** X10. Creating a wrapper and destroying it is a round trip on the
    identity map: for a canonical handle that is not registered and whose
    assembly has no wrapper, [~MClass] on the wrapper that
    [GetOrCreateClass] returned leaves the map exactly as it was before the
    creation, so the handle is unregistered again. *)
Theorem create_then_destroy_restores_identity_map (rt : Runtime) (typeHandle : handle)
    (s s1 : Bridge) (r : option nat) :
  typeHandle <> nullptr ->
  classHandles s !! typeHandle = None ->
  canonical rt typeHandle ->
  assemblyHandles s !! (GetManagedClassFromType rt typeHandle).2 = None ->
  GetOrCreateClass rt typeHandle s = Ok (r, s1) ->
  exists k s2,
    r = Some k
    /\ classHandles s1 !! typeHandle = Some k
    /\ MClass_dtor k s1 = Ok (tt, s2)
    /\ classHandles s2 = classHandles s
    /\ classHandles s2 !! typeHandle = None.
Proof.
  intros Hn L Hc Ha E.
  destruct (GetOrCreateClass_unowned_inv rt _ _ _ _ Hn L Hc Ha E)
    as (-> & C & (c & O & Hh & _) & _).
  assert (classObjects s1 !! length (classObjects s) = Some c) as D.
  { rewrite O, lookup_app_r, Nat.sub_diag by lia. reflexivity. }
  destruct (MClass_dtor_spec _ c s1 D) as (s2 & E2 & C2 & _).
  exists (length (classObjects s)), s2. split; [reflexivity|].
  split; [rewrite C; apply lookup_insert_eq|]. split; [exact E2|].
  assert (classHandles s2 = classHandles s) as R.
  { rewrite C2, Hh, C. now apply delete_insert_id. }
  split; [exact R|]. now rewrite R.
Qed.

Lemma create_then_destroy_restores_identity_map_witness :
  exists s1 s2,
    GetOrCreateClass sample_runtime 100 initial = Ok (Some 0%nat, s1)
    /\ classHandles s1 !! 100 = Some 0%nat
    /\ MClass_dtor 0 s1 = Ok (tt, s2)
    /\ classHandles s2 = classHandles initial.
Proof.
  assert (exists s1, GetOrCreateClass sample_runtime 100 initial = Ok (Some 0%nat, s1))
    as (s1 & E) by (eexists; vm_compute; reflexivity).
  destruct (create_then_destroy_restores_identity_map sample_runtime 100 initial s1
              (Some 0%nat) ltac:(discriminate) eq_refl eq_refl eq_refl E)
    as (k & s2 & [= <-] & L & E2 & R & _).
  exists s1, s2. repeat split; assumption.
Defined.

Section Images.
Context (rt : Runtime) (rx : RuntimeMore) (files : string -> list Z).

Lemma update_assembly_frame k f a s :
  assemblyObjects s !! k = Some a ->
  exists s', update_assembly k f s = Ok (tt, s')
             /\ assemblyObjects s' = <[k := f a]> (assemblyObjects s)
             /\ assemblyObjects s' !! k = Some (f a)
             /\ assemblyHandles s' = assemblyHandles s
             /\ classHandles s' = classHandles s
             /\ classObjects s' = classObjects s
             /\ calls s' = calls s.
Proof.
  intros D. unfold update_assembly.
  rewrite (bind_Ok _ _ _ _ _ (deref_assembly_Some k a s D)).
  eexists. split; [reflexivity|]. simpl_bridge. split; [reflexivity|].
  split; [apply list_lookup_insert_eq; eapply lookup_lt_Some, D|]. now repeat split.
Qed.

Lemma update_assembly_det k f a s u s' :
  assemblyObjects s !! k = Some a ->
  update_assembly k f s = Ok (u, s') ->
  assemblyObjects s' = <[k := f a]> (assemblyObjects s)
  /\ assemblyObjects s' !! k = Some (f a)
  /\ assemblyHandles s' = assemblyHandles s
  /\ calls s' = calls s.
Proof.
  intros D E. destruct (update_assembly_frame k f a s D) as (s0 & E0 & R).
  rewrite E0 in E. injection E as _ <-. tauto.
Qed.

Lemma after_call_calls n args s :
  forall m a, managed_calls m a (after_call rt n args s)
              = ((if decide (Managed n args = Managed m a) then 1 else 0)
                 + managed_calls m a s)%nat.
Proof. intros. apply managed_calls_after_call. Qed.

Lemma managed_calls_same_log n args s s' :
  calls s' = calls s -> managed_calls n args s' = managed_calls n args s.
Proof. unfold managed_calls. now intros ->. Qed.

(** What [LoadImage] leaves behind when it returns. *)
Lemma MAssembly_LoadImage_inv this path nativePath a s failed s' :
  assemblyObjects s !! this = Some a ->
  MAssembly_LoadImage rt rx files this path nativePath s = Ok (failed, s') ->
  failed = (image_handle rx files path =? nullptr)
  /\ (exists a', assemblyObjects s' !! this = Some a'
                 /\ MAssembly._handle a' = image_handle rx files path
                 /\ MAssembly._classes a' = MAssembly._classes a
                 /\ MAssembly._isLoaded a' = MAssembly._isLoaded a
                 /\ (failed = false -> MAssembly._hasCachedClasses a' = false))
  /\ (failed = true ->
      assemblyHandles s' = assemblyHandles s
      /\ forall args, managed_calls "RegisterNativeLibrary" args s'
                      = managed_calls "RegisterNativeLibrary" args s)
  /\ (failed = false ->
      assemblyHandles s !! image_handle rx files path = None
      /\ assemblyHandles s' = <[image_handle rx files path := this]> (assemblyHandles s)).
Proof.
  intros D E. unfold MAssembly_LoadImage, image_handle in *.
  inv_bind E as loaded s1 EC. apply CallStaticMethod_inv in EC as [-> ->].
  destruct (LoadAssemblyImage rx (files path) path) as [[h name] fullname].
  cbn [fst snd] in *.
  pose proof (after_call_same rt "LoadAssemblyImage" [] s) as (_ & A1 & B1 & _).
  inv_bind E as u2 s2 E2.
  apply (update_assembly_det this _ a) in E2 as (_ & D2 & A2 & C2); [|now rewrite B1].
  inv_bind E as u3 s3 E3. apply MCore_GC_FreeMemory_inv in E3 as ->.
  inv_bind E as u4 s4 E4. apply MCore_GC_FreeMemory_inv in E4 as ->.
  set (s4 := after_free rt fullname (after_free rt name s2)) in *.
  assert (assemblyHandles s4 = assemblyHandles s) as A4.
  { unfold s4. pose proof (after_free_same rt name s2) as (_ & F1 & _).
    pose proof (after_free_same rt fullname (after_free rt name s2)) as (_ & F2 & _).
    congruence. }
  assert (assemblyObjects s4 !! this = Some (MAssembly_set_handle h a)) as D4.
  { unfold s4. pose proof (after_free_same rt name s2) as (_ & _ & F1 & _).
    pose proof (after_free_same rt fullname (after_free rt name s2)) as (_ & _ & F2 & _).
    congruence. }
  assert (forall args, managed_calls "RegisterNativeLibrary" args s4
                       = managed_calls "RegisterNativeLibrary" args s) as M4.
  { intros args. unfold s4.
    rewrite !(managed_calls_after_free rt) by discriminate.
    rewrite (managed_calls_same_log _ _ _ _ C2), managed_calls_after_call.
    now rewrite decide_False by discriminate. }
  clearbody s4.
  destruct (Z.eqb_spec h nullptr) as [Hz|Hz].
  - injection E as <- <-. split; [reflexivity|].
    split; [exists (MAssembly_set_handle h a); now repeat split|].
    split; [intros _; split; [exact A4|exact M4]|discriminate].
  - rewrite bind_gets in E. unfold Dictionary_Add in E. rewrite A4 in E.
    destruct (assemblyHandles s !! h) eqn:Lh; [discriminate|].
    rewrite bind_lift_Ok, bind_modify in E.
    inv_bind E as u6 s6 E6.
    assert (assemblyObjects s6 !! this = Some (MAssembly_set_handle h a)
            /\ assemblyHandles s6 = <[h := this]> (assemblyHandles s)) as [D6 A6].
    { destruct (negb (String.eqb nativePath EmptyString)).
      - unfold RegisterNativeLibrary in E6. apply CallStaticMethod_inv in E6 as [_ ->].
        pose proof (after_call_same rt "RegisterNativeLibrary" []
                      (set_assemblyHandles (<[h := this]> (assemblyHandles s)) s4))
          as (_ & G1 & G2 & _).
        now rewrite G1, G2.
      - injection E6 as _ <-. now split. }
    inv_bind E as u7 s7 E7.
    apply (update_assembly_det this _ _ _ _ _ D6) in E7 as (_ & D7 & A7 & _).
    injection E as <- <-. split; [reflexivity|].
    split; [eexists; split; [exact D7|]; now repeat split|].
    split; [discriminate|]. intros _. split; [reflexivity|]. now rewrite A7.
Qed.

(** What [UnloadImage] leaves behind when it returns. *)
Lemma MAssembly_UnloadImage_inv this isReloading a s r s' :
  assemblyObjects s !! this = Some a ->
  MAssembly_UnloadImage rt this isReloading s = Ok (r, s') ->
  r = false
  /\ (MAssembly._handle a = nullptr -> s' = s)
  /\ (MAssembly._handle a <> nullptr ->
      assemblyHandles s' = Dictionary_Remove (MAssembly._handle a) (assemblyHandles s)
      /\ assemblyObjects s' !! this = Some (MAssembly_set_handle nullptr a)
      /\ managed_calls "CloseAssembly" [MAssembly._handle a] s'
         = ((if isReloading then 1 else 0)
            + managed_calls "CloseAssembly" [MAssembly._handle a] s)%nat).
Proof.
  intros D E. unfold MAssembly_UnloadImage in E.
  rewrite (bind_Ok _ _ _ _ _ (deref_assembly_Some this a s D)) in E.
  destruct (Z.eqb_spec (MAssembly._handle a) nullptr) as [Hz|Hz]; cbn [negb] in E.
  - injection E as <- <-. split; [reflexivity|]. split; [reflexivity|contradiction].
  - inv_bind E as u1 s1 E1. rewrite bind_modify in E. inv_bind E as u3 s3 E3.
    injection E as <- <-. split; [reflexivity|]. split; [contradiction|]. intros _.
    assert (assemblyHandles s1 = assemblyHandles s
            /\ assemblyObjects s1 !! this = Some a
            /\ managed_calls "CloseAssembly" [MAssembly._handle a] s1
               = ((if isReloading then 1 else 0)
                  + managed_calls "CloseAssembly" [MAssembly._handle a] s)%nat)
      as (A1 & D1 & M1).
    { destruct isReloading.
      - apply CallStaticMethod_inv in E1 as [_ ->].
        pose proof (after_call_same rt "CloseAssembly" [MAssembly._handle a] s)
          as (_ & G1 & G2 & _).
        split; [exact G1|]. split; [now rewrite G2|].
        rewrite managed_calls_after_call. now rewrite decide_True by reflexivity.
      - injection E1 as _ <-. now repeat split. }
    apply (update_assembly_det this _ a) in E3 as (_ & D3 & A3 & C3); [|exact D1].
    split; [rewrite A3; simpl_bridge; now rewrite A1|]. split; [exact D3|].
    now rewrite (managed_calls_same_log _ _ _ _ C3).
Qed.

End Images.

(** ** Assembly images *)

(** X11. [MAssembly::LoadImage] reports failure exactly when the runtime
    answers the null handle.  On failure nothing is registered and the native
    library path is not passed on; on success the handle was not registered
    before and now leads to this assembly, and the class cache is marked as
    not populated.  In both cases the assembly object carries the answered
    handle afterwards, and its class map is as before. *)
Theorem LoadImage_registers_or_fails (rt : Runtime) (rx : RuntimeMore)
    (files : string -> list Z) (this : nat) (path nativePath : string)
    (a : MAssembly.t) (s s' : Bridge) (failed : bool) :
  assemblyObjects s !! this = Some a ->
  MAssembly_LoadImage rt rx files this path nativePath s = Ok (failed, s') ->
  (failed = true <-> image_handle rx files path = nullptr)
  /\ (exists a', assemblyObjects s' !! this = Some a'
                 /\ MAssembly._handle a' = image_handle rx files path
                 /\ MAssembly._classes a' = MAssembly._classes a
                 /\ (failed = false -> MAssembly._hasCachedClasses a' = false))
  /\ (failed = true ->
      assemblyHandles s' = assemblyHandles s
      /\ forall args, managed_calls "RegisterNativeLibrary" args s'
                      = managed_calls "RegisterNativeLibrary" args s)
  /\ (failed = false ->
      assemblyHandles s !! image_handle rx files path = None
      /\ GetAssembly (image_handle rx files path) s' = Ok (Some this, s')).
Proof.
  intros D E.
  destruct (MAssembly_LoadImage_inv rt rx files _ _ _ _ _ _ _ D E)
    as (F & (a' & D' & H' & C' & _ & N') & Bad & Good).
  split; [|split; [|split]].
  - rewrite F. apply Z.eqb_eq.
  - exists a'. now repeat split.
  - exact Bad.
  - intros Ff. destruct (Good Ff) as [Fresh Reg]. split; [exact Fresh|].
    unfold GetAssembly, gets. now rewrite Reg, lookup_insert_eq.
Qed.

(** Loading Game.dll succeeds and registers the handle 900; loading a file
    the sample runtime rejects fails and registers nothing. *)
Lemma LoadImage_registers_or_fails_witness :
  (exists s', MAssembly_LoadImage sample_assembly_runtime sample_more sample_files 0
                "Game.dll" EmptyString sample_unloaded = Ok (false, s')
              /\ GetAssembly 900 s' = Ok (Some 0%nat, s'))
  /\ (exists s', MAssembly_LoadImage sample_assembly_runtime sample_more sample_files 0
                   "Broken.dll" EmptyString sample_unloaded = Ok (true, s')
                 /\ assemblyHandles s' = assemblyHandles sample_unloaded).
Proof.
  split.
  - assert (exists s', MAssembly_LoadImage sample_assembly_runtime sample_more sample_files 0
                         "Game.dll" EmptyString sample_unloaded = Ok (false, s'))
      as (s' & E) by (eexists; vm_compute; reflexivity).
    exists s'. split; [exact E|].
    apply (LoadImage_registers_or_fails sample_assembly_runtime sample_more sample_files 0
             "Game.dll" EmptyString (MAssembly.mk nullptr true false ∅) sample_unloaded s'
             false eq_refl E). reflexivity.
  - assert (exists s', MAssembly_LoadImage sample_assembly_runtime sample_more sample_files 0
                         "Broken.dll" EmptyString sample_unloaded = Ok (true, s'))
      as (s' & E) by (eexists; vm_compute; reflexivity).
    exists s'. split; [exact E|].
    apply (LoadImage_registers_or_fails sample_assembly_runtime sample_more sample_files 0
             "Broken.dll" EmptyString (MAssembly.mk nullptr true false ∅) sample_unloaded s'
             true eq_refl E). reflexivity.
Defined.

(** X12. Loading an image and unloading it again is a round trip on the
    assembly map: after a successful [LoadImage], [GetAssembly] finds the
    assembly under the answered handle; [UnloadImage] then returns,
    unregisters the handle so that the map is as before the load, and clears
    the handle of the assembly object.  [CloseAssembly] is called once when
    reloading and not at all otherwise. *)
Theorem LoadImage_UnloadImage_round_trip (rt : Runtime) (rx : RuntimeMore)
    (files : string -> list Z) (this : nat) (path nativePath : string)
    (a : MAssembly.t) (s s1 : Bridge) (isReloading : bool) :
  assemblyObjects s !! this = Some a ->
  MAssembly_LoadImage rt rx files this path nativePath s = Ok (false, s1) ->
  (isReloading = true -> resolves rt "CloseAssembly") ->
  GetAssembly (image_handle rx files path) s1 = Ok (Some this, s1)
  /\ exists s2 a2,
       MAssembly_UnloadImage rt this isReloading s1 = Ok (false, s2)
       /\ assemblyHandles s2 = assemblyHandles s
       /\ GetAssembly (image_handle rx files path) s2 = Ok (None, s2)
       /\ assemblyObjects s2 !! this = Some a2
       /\ MAssembly._handle a2 = nullptr
       /\ managed_calls "CloseAssembly" [image_handle rx files path] s2
          = ((if isReloading then 1 else 0)
             + managed_calls "CloseAssembly" [image_handle rx files path] s1)%nat.
Proof.
  intros D E R.
  destruct (MAssembly_LoadImage_inv rt rx files _ _ _ _ _ _ _ D E)
    as (F & (a1 & D1 & H1 & _) & _ & Good).
  destruct (Good eq_refl) as [Fresh Reg].
  symmetry in F. apply Z.eqb_neq in F.
  split; [unfold GetAssembly, gets; now rewrite Reg, lookup_insert_eq|].
  assert (exists s2, MAssembly_UnloadImage rt this isReloading s1 = Ok (false, s2))
    as (s2 & E2).
  { unfold MAssembly_UnloadImage.
    rewrite (bind_Ok _ _ _ _ _ (deref_assembly_Some this a1 s1 D1)), H1.
    destruct (Z.eqb_spec (image_handle rx files path) nullptr) as [?|_]; [contradiction|].
    cbn [negb].
    assert (exists s', (if isReloading
                        then CallStaticMethod rt "CloseAssembly" [image_handle rx files path] tt
                        else ret tt) s1 = Ok (tt, s')
                       /\ assemblyObjects s' !! this = Some a1) as (sc & Ec & Dc).
    { destruct isReloading.
      - eexists. split; [apply (CallStaticMethod_resolves rt _ _ _ _ (R eq_refl))|].
        pose proof (after_call_same rt "CloseAssembly" [image_handle rx files path] s1)
          as (_ & _ & G & _). now rewrite G.
      - eexists. split; [reflexivity|exact D1]. }
    rewrite (bind_Ok _ _ _ _ _ Ec), bind_modify.
    destruct (update_assembly_frame this (MAssembly_set_handle nullptr) a1
                (set_assemblyHandles
                   (Dictionary_Remove (image_handle rx files path) (assemblyHandles sc)) sc) Dc)
      as (s2 & E2 & _).
    rewrite (bind_Ok _ _ _ _ _ E2). eauto. }
  destruct (MAssembly_UnloadImage_inv rt _ _ _ _ _ _ D1 E2) as (_ & _ & Un).
  rewrite H1 in Un. destruct (Un F) as (A2 & D2 & M2).
  assert (assemblyHandles s2 = assemblyHandles s) as Back.
  { rewrite A2, Reg. unfold Dictionary_Remove. now apply delete_insert_id. }
  exists s2, (MAssembly_set_handle nullptr a1). split; [exact E2|]. split; [exact Back|].
  split; [unfold GetAssembly, gets; now rewrite Back, Fresh|].
  split; [exact D2|]. split; [reflexivity|exact M2].
Qed.

Lemma LoadImage_UnloadImage_round_trip_witness :
  exists s1 s2,
    MAssembly_LoadImage sample_assembly_runtime sample_more sample_files 0
      "Game.dll" EmptyString sample_unloaded = Ok (false, s1)
    /\ GetAssembly 900 s1 = Ok (Some 0%nat, s1)
    /\ MAssembly_UnloadImage sample_assembly_runtime 0 true s1 = Ok (false, s2)
    /\ assemblyHandles s2 = assemblyHandles sample_unloaded
    /\ managed_calls "CloseAssembly" [900] s2 = 1%nat.
Proof.
  assert (exists s1, MAssembly_LoadImage sample_assembly_runtime sample_more sample_files 0
                       "Game.dll" EmptyString sample_unloaded = Ok (false, s1)
                     /\ managed_calls "CloseAssembly" [900] s1 = 0%nat)
    as (s1 & E & Z0) by (eexists; split; vm_compute; reflexivity).
  destruct (LoadImage_UnloadImage_round_trip sample_assembly_runtime sample_more sample_files
              0 "Game.dll" EmptyString (MAssembly.mk nullptr true false ∅) sample_unloaded s1
              true eq_refl E ltac:(reflexivity))
    as (G & s2 & a2 & E2 & Back & _ & _ & _ & M).
  exists s1, s2. split; [exact E|]. split; [exact G|]. split; [exact E2|].
  split; [exact Back|].
  exact (eq_trans M (f_equal (Nat.add 1) Z0)).
Defined.

(** X13. [MAssembly::UnloadImage] is idempotent: it always reports
    success, and once it has returned, unloading again (reloading or not) is
    a no-op that makes no call and leaves the whole bridge as it is. *)
Theorem UnloadImage_idempotent (rt : Runtime) (this : nat) (isReloading again : bool)
    (s s1 : Bridge) (r : bool) :
  MAssembly_UnloadImage rt this isReloading s = Ok (r, s1) ->
  r = false /\ MAssembly_UnloadImage rt this again s1 = Ok (false, s1).
Proof.
  intros E.
  assert (exists a, assemblyObjects s !! this = Some a) as (a & D).
  { unfold MAssembly_UnloadImage in E. inv_bind E as a s0 D0.
    apply deref_assembly_inv in D0 as [_ D0]. eauto. }
  destruct (MAssembly_UnloadImage_inv rt _ _ _ _ _ _ D E) as (-> & Null & Un).
  split; [reflexivity|].
  assert (exists a1, assemblyObjects s1 !! this = Some a1 /\ MAssembly._handle a1 = nullptr)
    as (a1 & D1 & H1).
  { destruct (Z.eqb_spec (MAssembly._handle a) nullptr) as [Hz|Hz].
    - rewrite (Null Hz). eauto.
    - destruct (Un Hz) as (_ & D1 & _). eauto. }
  unfold MAssembly_UnloadImage.
  rewrite (bind_Ok _ _ _ _ _ (deref_assembly_Some this a1 s1 D1)), H1. reflexivity.
Qed.

Lemma UnloadImage_idempotent_witness :
  exists s1,
    MAssembly_UnloadImage sample_assembly_runtime 0 true sample_loaded = Ok (false, s1)
    /\ MAssembly_UnloadImage sample_assembly_runtime 0 true s1 = Ok (false, s1).
Proof.
  assert (exists s1, MAssembly_UnloadImage sample_assembly_runtime 0 true sample_loaded
                     = Ok (false, s1))
    as (s1 & E) by (eexists; vm_compute; reflexivity).
  exists s1. split; [exact E|].
  exact (proj2 (UnloadImage_idempotent sample_assembly_runtime 0 true true sample_loaded s1
                  false E)).
Defined.

(** ** Property values *)

(** X14. Reading and writing a property goes through the accessor the
    property was built with.  For a property built from a descriptor,
    [GetValue] invokes the getter handle on the instance with no arguments
    and the caller's exception slot, and [SetValue] invokes the setter handle
    with the value as the only argument; when the descriptor has no getter
    (no setter), [GetValue] returns [nullptr] ([SetValue] returns) without
    any call and leaves the exception slot alone. *)
Theorem property_value_goes_through_accessor (rt : Runtime) (parentClass : nat)
    (name : cstring) (getterHandle setterHandle : handle)
    (getterAttributes setterAttributes : Z) (p : MProperty.t) :
  MProperty_ctor parentClass name getterHandle setterHandle
    getterAttributes setterAttributes = Ok p ->
  (forall instance slot s,
     MProperty_GetValue rt p instance slot s
     = if getterHandle =? nullptr then Ok ((nullptr, slot), s)
       else CallStaticMethod rt "InvokeMethod" [instance; getterHandle]
              (InvokeMethod rt instance getterHandle None slot) s)
  /\ (forall instance value slot s,
        MProperty_SetValue rt p instance value slot s
        = if setterHandle =? nullptr then Ok (slot, s)
          else match CallStaticMethod rt "InvokeMethod" [instance; setterHandle]
                       (InvokeMethod rt instance setterHandle (Some [value]) slot) s with
               | Ok (result, s') => Ok (result.2, s')
               | Fail f => Fail f
               end).
Proof.
  unfold MProperty_ctor. intros E.
  destruct (accessor parentClass "get_" _ getterHandle getterAttributes) as [g|] eqn:G;
    [|discriminate].
  destruct (accessor parentClass "set_" _ setterHandle setterAttributes) as [t|] eqn:T;
    [|discriminate].
  injection E as <-. unfold MProperty_GetValue, MProperty_SetValue. simpl. split.
  - intros instance slot s. destruct (Z.eqb_spec getterHandle nullptr) as [->|Hn].
    + rewrite accessor_null in G. now injection G as <-.
    + destruct (accessor_handle _ _ _ _ _ _ G Hn) as (m & -> & Hm).
      unfold MMethod_Invoke. now rewrite Hm.
  - intros instance value slot s. destruct (Z.eqb_spec setterHandle nullptr) as [->|Hn].
    + rewrite accessor_null in T. now injection T as <-.
    + destruct (accessor_handle _ _ _ _ _ _ T Hn) as (m & -> & Hm).
      unfold MMethod_Invoke, bind. rewrite Hm.
      destruct (CallStaticMethod rt _ _ _ s) as [[[? ?] ?]|]; reflexivity.
Qed.

(** The read-only [Message] property of the sample class: its value on the
    object 1001 is what the getter 201 answers, and writing it does
    nothing. *)
Lemma property_value_goes_through_accessor_witness :
  exists p,
    MProperty_ctor 0 (Some "Message") 201 0 0x0946 0 = Ok p
    /\ MProperty_GetValue sample_runtime p 1001 None sample_mirrored
       = CallStaticMethod sample_runtime "InvokeMethod" [1001; 201] (10011, None)
           sample_mirrored
    /\ MProperty_SetValue sample_runtime p 1001 7 None sample_mirrored
       = Ok (None, sample_mirrored).
Proof.
  assert (exists p, MProperty_ctor 0 (Some "Message") 201 0 0x0946 0 = Ok p) as (p & E)
      by (eexists; vm_compute; reflexivity).
  destruct (property_value_goes_through_accessor sample_runtime 0 (Some "Message") 201 0
              0x0946 0 p E) as (HG & HS).
  exists p. split; [exact E|]. split; [apply HG|apply HS].
Defined.

(** ** Values cached beside the wrappers *)

Section Sizes.
Context (rt : Runtime) (rx : RuntimeMore).

Lemma GetInstanceSize_cached this _size s :
  _size <> 0 -> MClass_GetInstanceSize rt rx this _size s = Ok ((_size, _size), s).
Proof.
  intros N. unfold MClass_GetInstanceSize.
  destruct (Z.eqb_spec _size 0) as [?|_]; [contradiction|]. reflexivity.
Qed.

Lemma GetInstanceSize_asks this c s r s' :
  classObjects s !! this = Some c ->
  MClass_GetInstanceSize rt rx this 0 s = Ok (r, s') ->
  r = (to_uint32 (NativeSizeOf rx (MClass._handle c)),
       to_uint32 (NativeSizeOf rx (MClass._handle c)))
  /\ classObjects s' = classObjects s
  /\ managed_calls "NativeSizeOf" [MClass._handle c] s'
     = S (managed_calls "NativeSizeOf" [MClass._handle c] s).
Proof.
  intros D E. unfold MClass_GetInstanceSize in E. cbn [Z.eqb negb] in E.
  rewrite (bind_Ok _ _ _ _ _ (deref_class_Some this c s D)) in E.
  inv_bind E as size s1 EC. apply CallStaticMethod_inv in EC as [-> ->].
  injection E as <- <-. split; [reflexivity|].
  split; [apply after_call_classObjects|].
  rewrite managed_calls_after_call. now rewrite decide_True by reflexivity.
Qed.

End Sizes.

(** X15. [MClass::GetInstanceSize] caches a size that is not zero and
    nothing else.  A call with a cached size returns it without touching the
    bridge; a call without asks the runtime once and stores the answer, read
    as [uint32]; once the stored size is not zero every later call is a pure
    read, and as long as the runtime answers zero every call asks again. *)
Theorem GetInstanceSize_caches_nonzero (rt : Runtime) (rx : RuntimeMore) (this : nat)
    (c : MClass.t) (_size : Z) (s s1 : Bridge) (result stored : Z) :
  classObjects s !! this = Some c ->
  MClass_GetInstanceSize rt rx this _size s = Ok ((result, stored), s1) ->
  result = stored
  /\ (_size <> 0 -> stored = _size /\ s1 = s)
  /\ (_size = 0 ->
      stored = to_uint32 (NativeSizeOf rx (MClass._handle c))
      /\ managed_calls "NativeSizeOf" [MClass._handle c] s1
         = S (managed_calls "NativeSizeOf" [MClass._handle c] s))
  /\ (stored <> 0 ->
      MClass_GetInstanceSize rt rx this stored s1 = Ok ((result, stored), s1))
  /\ (stored = 0 ->
      forall r s2,
        MClass_GetInstanceSize rt rx this stored s1 = Ok (r, s2) ->
        managed_calls "NativeSizeOf" [MClass._handle c] s2
        = S (managed_calls "NativeSizeOf" [MClass._handle c] s1)).
Proof.
  intros D E.
  assert (result = stored /\ classObjects s1 = classObjects s) as [R O].
  { destruct (Z.eq_dec _size 0) as [->|N].
    - destruct (GetInstanceSize_asks rt rx _ _ _ _ _ D E) as (P & O & _).
      split; [congruence|exact O].
    - rewrite (GetInstanceSize_cached rt rx _ _ _ N) in E. split; congruence. }
  split; [exact R|]. split; [|split; [|split]].
  - intros N. rewrite (GetInstanceSize_cached rt rx _ _ _ N) in E. split; congruence.
  - intros ->. destruct (GetInstanceSize_asks rt rx _ _ _ _ _ D E) as (P & _ & M).
    split; [congruence|exact M].
  - intros N. rewrite R. now apply GetInstanceSize_cached.
  - intros -> r s2 E2. rewrite <- O in D.
    now destruct (GetInstanceSize_asks rt rx _ _ _ _ _ D E2) as (_ & _ & M).
Qed.

(** The exception class of the sample runtime takes 24 bytes. *)
Lemma GetInstanceSize_caches_nonzero_witness :
  exists s1,
    MClass_GetInstanceSize sample_runtime sample_more 0 0 sample_mirrored = Ok ((24, 24), s1)
    /\ MClass_GetInstanceSize sample_runtime sample_more 0 24 s1 = Ok ((24, 24), s1).
Proof.
  assert (exists c s1,
            classObjects sample_mirrored !! 0%nat = Some c
            /\ MClass_GetInstanceSize sample_runtime sample_more 0 0 sample_mirrored
               = Ok ((24, 24), s1))
    as (c & s1 & D & E) by (eexists; eexists; split; vm_compute; reflexivity).
  destruct (GetInstanceSize_caches_nonzero sample_runtime sample_more 0 c 0 sample_mirrored s1
              24 24 D E) as (_ & _ & _ & Again & _).
  exists s1. split; [exact E|]. apply Again. discriminate.
Defined.

(** X16. [MMethod::GetThunk] caches a thunk that is not null: with a
    cached thunk it returns it without touching the bridge, without one it
    asks the runtime once for the unmanaged function pointer of the method
    handle and stores the answer; a non-null answer makes every later call a
    pure read. *)
Theorem GetThunk_caches_nonnull (rt : Runtime) (rx : RuntimeMore) (this : MMethod.t)
    (_cachedThunk : handle) (s s1 : Bridge) (result stored : handle) :
  MMethod_GetThunk rt rx this _cachedThunk s = Ok ((result, stored), s1) ->
  result = stored
  /\ (_cachedThunk <> nullptr -> stored = _cachedThunk /\ s1 = s)
  /\ (_cachedThunk = nullptr ->
      stored = GetMethodUnmanagedFunctionPointer rx (MMethod._handle this)
      /\ managed_calls "GetMethodUnmanagedFunctionPointer" [MMethod._handle this] s1
         = S (managed_calls "GetMethodUnmanagedFunctionPointer" [MMethod._handle this] s))
  /\ (stored <> nullptr ->
      MMethod_GetThunk rt rx this stored s1 = Ok ((result, stored), s1)).
Proof.
  unfold MMethod_GetThunk. intros E.
  destruct (Z.eqb_spec _cachedThunk nullptr) as [->|N].
  - inv_bind E as thunk sa EC. apply CallStaticMethod_inv in EC as [-> ->].
    injection E as <- <- <-. split; [reflexivity|]. split; [congruence|].
    split.
    + intros _. split; [reflexivity|]. rewrite managed_calls_after_call.
      now rewrite decide_True by reflexivity.
    + intros N'. destruct (Z.eqb_spec (GetMethodUnmanagedFunctionPointer rx (MMethod._handle this))
                             nullptr) as [?|_]; [contradiction|reflexivity].
  - injection E as <- <- <-. split; [reflexivity|]. split; [now split|].
    split; [contradiction|]. intros _.
    destruct (Z.eqb_spec _cachedThunk nullptr) as [?|_]; [contradiction|reflexivity].
Qed.

Lemma GetThunk_caches_nonnull_witness :
  exists s1,
    MMethod_GetThunk sample_runtime sample_more
      (MMethod.mk 301 0 0 "ToString" Public false false false) nullptr initial
    = Ok ((7301, 7301), s1)
    /\ MMethod_GetThunk sample_runtime sample_more
         (MMethod.mk 301 0 0 "ToString" Public false false false) 7301 s1
       = Ok ((7301, 7301), s1).
Proof.
  assert (exists s1,
            MMethod_GetThunk sample_runtime sample_more
              (MMethod.mk 301 0 0 "ToString" Public false false false) nullptr initial
            = Ok ((7301, 7301), s1))
    as (s1 & E) by (eexists; vm_compute; reflexivity).
  destruct (GetThunk_caches_nonnull sample_runtime sample_more _ _ _ _ _ _ E)
    as (_ & _ & _ & Again).
  exists s1. split; [exact E|]. apply Again. discriminate.
Defined.

(** ** The gateway cache under further calls *)

Lemma after_resolve_grows rt n s : CachedFunctions s ⊆ CachedFunctions (after_resolve rt n s).
Proof.
  unfold after_resolve. destruct (CachedFunctions s !! n) eqn:C; [reflexivity|].
  simpl_bridge. now apply insert_subseteq.
Qed.

(** X17. A managed call never evicts and never changes a resolved entry
    point: the cache of resolved pointers only grows across
    [CallStaticMethod], the agreement between cache and lookup log is kept,
    and a name that was resolved before the call is afterwards answered with
    the same pointer, without a lookup. *)
Theorem resolved_pointers_are_stable (rt : Runtime) {A : Type} (methodName : string)
    (args : list handle) (answer r : A) (s s' : Bridge) :
  CallStaticMethod rt methodName args answer s = Ok (r, s') ->
  CachedFunctions s ⊆ CachedFunctions s'
  /\ (memo_inv s -> memo_inv s')
  /\ (forall n fn, CachedFunctions s !! n = Some fn ->
                   GetStaticMethodPointer rt n s' = Ok (fn, s')).
Proof.
  intros E. apply CallStaticMethod_inv in E as [_ ->].
  assert (CachedFunctions s ⊆ CachedFunctions (after_call rt methodName args s)) as G
      by (unfold after_call; simpl_bridge; apply after_resolve_grows).
  split; [exact G|]. split; [apply memo_inv_after_call|].
  intros n fn C. apply GetStaticMethodPointer_cached. eapply lookup_weaken; eassumption.
Qed.

Lemma resolved_pointers_are_stable_witness :
  exists fn s1 s2,
    GetStaticMethodPointer sample_runtime "InvokeMethod" initial = Ok (fn, s1)
    /\ CallStaticMethod sample_runtime "FreeMemory" [] tt s1 = Ok (tt, s2)
    /\ GetStaticMethodPointer sample_runtime "InvokeMethod" s2 = Ok (fn, s2).
Proof.
  assert (exists fn s1 s2,
            GetStaticMethodPointer sample_runtime "InvokeMethod" initial = Ok (fn, s1)
            /\ CachedFunctions s1 !! "InvokeMethod" = Some fn
            /\ CallStaticMethod sample_runtime "FreeMemory" [] tt s1 = Ok (tt, s2))
    as (fn & s1 & s2 & E1 & C & E2)
    by (eexists; eexists; eexists; split; [|split]; vm_compute; reflexivity).
  exists fn, s1, s2. split; [exact E1|]. split; [exact E2|].
  exact (proj2 (proj2 (resolved_pointers_are_stable sample_runtime "FreeMemory" [] tt tt s1 s2
                         E2)) "InvokeMethod" fn C).
Defined.

(** ** Exception chains of any depth *)

Lemma native_chain_lookup chain : forall p i o m t,
  chain !! i = Some (o, m, t) ->
  native_chain p chain !! (p + i)%nat
  = Some (MException.mk m t
            (if decide (S i = length chain) then None else Some (S (p + i)))).
Proof.
  induction chain as [|[[o0 m0] t0] rest IH]; intros p i o m t L; [discriminate|].
  destruct i as [|i]; simpl in L.
  - injection L as <- <- <-. cbn [native_chain]. rewrite Nat.add_0_r, lookup_insert_eq.
    destruct rest; cbn [length]; destruct (decide _); first [reflexivity | exfalso; lia].
  - cbn [native_chain]. rewrite lookup_insert_ne by lia.
    replace (p + S i)%nat with (S p + i)%nat by lia.
    rewrite (IH (S p) i o m t L). cbn [length].
    destruct (decide (S i = length rest)); destruct (decide _);
      first [reflexivity | exfalso; lia].
Qed.

(** X18. The marshaler copies a chain of managed exceptions of any depth:
    for a chain of [n >= 1] exceptions linked through [InnerException], with
    their classes mirrored, [New<MException>] returns, given fuel for [n]
    levels, and stores [n] records in consecutive fresh storage; the record
    of level [i] holds the message and stack trace of the [i]-th exception
    and owns the record of level [i+1], the last one owns nothing;
    [Delete] of the outermost record then frees all [n] and leaves the
    exception storage as it was. *)
Theorem exception_chain_any_depth (rt : Runtime) (ToString : handle -> string) (s : Bridge)
    (e : handle) (chain : list (handle * string * string)) (fuel : nat) :
  Forall (resolves rt) ["GetObjectType"; "GetClassProperties"; "FreeMemory"; "InvokeMethod"] ->
  chain <> [] ->
  managed_chain rt ToString e chain ->
  Forall (fun x => mirrored rt s (GetObjectType rt x.1.1)) chain ->
  heap_fresh s ->
  (length chain <= fuel)%nat ->
  exists s1 s2,
    New_MException rt ToString fuel e s = Ok (nextException s, s1)
    /\ nextException s1 = (nextException s + length chain)%nat
    /\ (forall i o m t,
          chain !! i = Some (o, m, t) ->
          exceptionObjects s !! (nextException s + i)%nat = None
          /\ exceptionObjects s1 !! (nextException s + i)%nat
             = Some (MException.mk m t
                       (if decide (S i = length chain) then None
                        else Some (S (nextException s + i)))))
    /\ (forall q, (q < nextException s)%nat ->
                  exceptionObjects s1 !! q = exceptionObjects s !! q)
    /\ Delete_MException fuel (nextException s) s1 = Ok (tt, s2)
    /\ exceptionObjects s2 = exceptionObjects s.
Proof.
  intros R Hne MC Mir Fr Hf.
  apply Forall_cons in R as [R1 R]. apply Forall_cons in R as [R2 R].
  apply Forall_cons in R as [R3 R]. apply Forall_cons in R as [R4 _].
  set (p := nextException s).
  set (s0 := set_nextException (S p) s).
  assert (Forall (fun x => mirrored rt s0 (GetObjectType rt x.1.1)) chain) as Mir0.
  { eapply Forall_impl; [exact Mir|]. intros x M.
    eapply (mirrored_ext rt s s0); [reflexivity | reflexivity | exact M]. }
  destruct (MException_ctor_chain rt ToString R1 R2 R3 R4 chain e s0 p fuel
              Hne MC Mir0 eq_refl Hf)
    as (s1 & E1 & X1 & N1 & _ & _).
  assert (exceptionObjects s1 = native_chain p chain ∪ exceptionObjects s) as X by exact X1.
  exists s1, (set_exceptionObjects (exceptionObjects s) s1).
  split.
  { unfold New_MException, alloc_exception.
    rewrite !bind_assoc, bind_gets, bind_assoc, bind_modify, bind_ret.
    fold p. fold s0. now rewrite (bind_Ok _ _ _ _ _ E1). }
  split; [exact N1|]. split.
  { intros i o m t L. split; [apply Fr; lia|].
    rewrite X. apply lookup_union_Some_l. now apply (native_chain_lookup chain p i o). }
  split.
  { intros q Hq. rewrite X, lookup_union_r; [reflexivity|].
    now apply native_chain_lookup_lt. }
  split; [|reflexivity].
  apply (Delete_MException_chain chain p fuel s1 (exceptionObjects s));
    [exact Hne | exact Hf | exact X | exact Fr].
Qed.

(** The three chained exceptions of the sample runtime. *)
Lemma exception_chain_any_depth_witness :
  exists s1 s2,
    New_MException sample_runtime sample_ToString 3 1001 sample_mirrored = Ok (0%nat, s1)
    /\ exceptionObjects s1 !! 2%nat = Some (MException.mk "inner" "at C" None)
    /\ Delete_MException 3 0%nat s1 = Ok (tt, s2)
    /\ exceptionObjects s2 = exceptionObjects sample_mirrored.
Proof.
  assert (Forall decodable (GetClassProperties sample_runtime 100)) as Dec.
  { repeat apply Forall_cons_2; [| | |apply Forall_nil_2];
      (split; [intros _; exists Public; reflexivity | intros C; exfalso; apply C; reflexivity]). }
  assert (mirrored sample_runtime sample_mirrored 100) as Mir.
  { eexists 0%nat, _. split; [vm_compute; reflexivity|].
    split; [vm_compute; reflexivity|]. split; vm_compute; reflexivity. }
  destruct (exception_chain_any_depth sample_runtime sample_ToString sample_mirrored 1001
              [(1001, "outer", "at A"); (1002, "middle", "at B"); (1003, "inner", "at C")] 3)
    as (s1 & s2 & E1 & _ & Rec & _ & E2 & Back).
  - repeat apply Forall_cons_2; [| | | |apply Forall_nil_2]; reflexivity.
  - discriminate.
  - split; [reflexivity|]. exists 1002. split.
    { split; [discriminate|]. split; [discriminate|]. split; [exact Dec|].
      split; [reflexivity|]. split; reflexivity. }
    split; [reflexivity|]. exists 1003. split.
    { split; [discriminate|]. split; [discriminate|]. split; [exact Dec|].
      split; [reflexivity|]. split; reflexivity. }
    split; [reflexivity|]. exists nullptr. split; [|reflexivity].
    split; [discriminate|]. split; [discriminate|]. split; [exact Dec|].
    split; [reflexivity|]. split; reflexivity.
  - repeat apply Forall_cons_2; [| | |apply Forall_nil_2]; exact Mir.
  - intros q _. reflexivity.
  - simpl. lia.
  - exists s1, s2. split; [exact E1|]. split; [|split; [exact E2|exact Back]].
    exact (proj2 (Rec 2%nat 1003 "inner" "at C" eq_refl)).
Defined.

(** ** Exceptions the marshaler cannot read *)

Lemma bind_Fail {A B} (m : M A) (k : A -> M B) s f : m s = Fail f -> bind m k s = Fail f.
Proof. unfold bind. now intros ->. Qed.

Lemma MProperty_ctor_no_getter k name setterHandle getterAttributes setterAttributes p :
  MProperty_ctor k name nullptr setterHandle getterAttributes setterAttributes = Ok p ->
  MProperty_GetGetMethod p = None.
Proof.
  unfold MProperty_ctor. rewrite accessor_null.
  destruct (accessor k "set_" _ setterHandle setterAttributes); [|discriminate].
  now intros [= <-].
Qed.

(** Reading a property that the class does not list, or lists without a
    getter, dereferences a null pointer. *)
Lemma get_exception_property_missing rt s k c exception name :
  resolves rt "GetClassProperties" -> resolves rt "FreeMemory" ->
  classObjects s !! k = Some c ->
  consistent rt k c ->
  Forall decodable (GetClassProperties rt (MClass._handle c)) ->
  described_getter rt (MClass._handle c) name = None ->
  get_exception_property rt (Some k) exception name s = Fail NullDeref.
Proof.
  intros R1 R2 D I Dec G.
  destruct (build_properties_ok k _ Dec) as [built B].
  destruct (GetProperties_spec rt k s c built R1 R2 D I B) as (s1 & E1 & _).
  pose proof (build_properties_find k name _ _ B) as F.
  unfold get_exception_property. cbn [deref]. rewrite bind_ret.
  unfold MClass_GetProperty. rewrite bind_assoc, (bind_Ok _ _ _ _ _ E1), bind_ret.
  unfold described_getter in G.
  destruct (List.find _ (GetClassProperties rt (MClass._handle c))) as [d|].
  - destruct F as (p & -> & Ep). cbn [deref]. rewrite bind_ret.
    destruct (Z.eqb_spec (NativePropertyDefinitions.getterHandle d) nullptr) as [Hz|?];
      [|discriminate].
    rewrite Hz in Ep. now rewrite (MProperty_ctor_no_getter _ _ _ _ _ _ Ep).
  - now rewrite F.
Qed.

Lemma managed_property_None rt obj name :
  managed_property rt obj name = None ->
  described_getter rt (GetObjectType rt obj) name = None.
Proof.
  unfold managed_property. now destruct (described_getter rt (GetObjectType rt obj) name).
Qed.

Lemma managed_property_Some rt obj name v :
  managed_property rt obj name = Some v ->
  exists g, described_getter rt (GetObjectType rt obj) name = Some g
            /\ (InvokeMethod rt obj g None None).1 = v.
Proof.
  unfold managed_property.
  destruct (described_getter rt (GetObjectType rt obj) name) as [g|]; [|discriminate].
  intros [= <-]. eauto.
Qed.

(** X19. What the marshaler does with an exception it cannot read.  The
    null exception violates the assertion of the constructor.  For any other
    exception whose class is mirrored, if the class lacks one of the three
    properties [Message], [StackTrace], [InnerException], or has it without
    a getter, the constructor dereferences the null pointer that the lookup
    returned: there is no check between [GetProperty], [GetGetMethod] and
    [Invoke]. *)
Theorem unreadable_exception_crashes (rt : Runtime) (ToString : handle -> string)
    (s : Bridge) (e : handle) (fuel : nat) :
  New_MException rt ToString (S fuel) nullptr s = Fail AssertFailed
  /\ (Forall (resolves rt)
        ["GetObjectType"; "GetClassProperties"; "FreeMemory"; "InvokeMethod"] ->
      e <> nullptr ->
      GetObjectType rt e <> nullptr ->
      mirrored rt s (GetObjectType rt e) ->
      Forall decodable (GetClassProperties rt (GetObjectType rt e)) ->
      managed_property rt e "Message" = None
      \/ managed_property rt e "StackTrace" = None
      \/ managed_property rt e "InnerException" = None ->
      New_MException rt ToString (S fuel) e s = Fail NullDeref).
Proof.
  split; [reflexivity|].
  intros R He Ht Mir Dec Missing.
  apply Forall_cons in R as [R1 R]. apply Forall_cons in R as [R2 R].
  apply Forall_cons in R as [R3 R]. apply Forall_cons in R as [R4 _].
  unfold New_MException, alloc_exception.
  rewrite !bind_assoc, bind_gets, bind_assoc, bind_modify, bind_ret.
  set (s0 := set_nextException _ s).
  assert (mirrored rt s0 (GetObjectType rt e)) as Mir0
      by (eapply (mirrored_ext rt s s0); [reflexivity | reflexivity | exact Mir]).
  apply bind_Fail. rewrite MException_ctor_S. unfold ASSERT.
  destruct (Z.eqb_spec e nullptr) as [?|_]; [contradiction|]. cbn [negb]. rewrite bind_ret.
  destruct (MCore_Object_GetClass_spec rt s0 e R1 Ht Mir0)
    as (sa & k & c & Ea & _ & _ & Da & Ha & Ia).
  rewrite (bind_Ok _ _ _ _ _ Ea). rewrite <- Ha in Dec.
  destruct (managed_property rt e "Message") as [vm|] eqn:Pm.
  2:{ apply bind_Fail. apply managed_property_None in Pm. rewrite <- Ha in Pm.
      exact (get_exception_property_missing rt sa k c e _ R2 R3 Da Ia Dec Pm). }
  apply managed_property_Some in Pm as (gm & Gm & _). rewrite <- Ha in Gm.
  destruct (get_exception_property_spec rt sa k c e "Message" gm R2 R3 R4 Da Ia Dec Gm)
    as (sb & cb & Eb & _ & _ & Db & Hb & Ib).
  rewrite (bind_Ok _ _ _ _ _ Eb). rewrite <- Hb in Dec.
  destruct (managed_property rt e "StackTrace") as [vs|] eqn:Ps.
  2:{ apply bind_Fail. apply managed_property_None in Ps. rewrite <- Ha, <- Hb in Ps.
      exact (get_exception_property_missing rt sb k cb e _ R2 R3 Db Ib Dec Ps). }
  apply managed_property_Some in Ps as (gs & Gs & _). rewrite <- Ha, <- Hb in Gs.
  destruct (get_exception_property_spec rt sb k cb e "StackTrace" gs R2 R3 R4 Db Ib Dec Gs)
    as (sc & cc & Ec & _ & _ & Dc & Hc & Ic).
  rewrite (bind_Ok _ _ _ _ _ Ec). rewrite <- Hc in Dec.
  destruct Missing as [?|[?|Pi]]; [discriminate|discriminate|].
  apply bind_Fail. apply managed_property_None in Pi. rewrite <- Ha, <- Hb, <- Hc in Pi.
  exact (get_exception_property_missing rt sc k cc e _ R2 R3 Dc Ic Dec Pi).
Qed.

Lemma unreadable_exception_crashes_witness :
  New_MException sample_bare_runtime sample_ToString 1 nullptr sample_mirrored
  = Fail AssertFailed
  /\ New_MException sample_bare_runtime sample_ToString 1 1001 sample_mirrored
     = Fail NullDeref.
Proof.
  destruct (unreadable_exception_crashes sample_bare_runtime sample_ToString sample_mirrored
              1001 0) as [Null Bare].
  split; [exact Null|]. apply Bare.
  - repeat apply Forall_cons_2; [| | | |apply Forall_nil_2]; reflexivity.
  - discriminate.
  - discriminate.
  - eexists 0%nat, _. split; [vm_compute; reflexivity|].
    split; [vm_compute; reflexivity|]. split; vm_compute; reflexivity.
  - repeat apply Forall_cons_2; [| |apply Forall_nil_2];
      (split; [intros _; exists Public; reflexivity | intros C; exfalso; apply C; reflexivity]).
  - right. right. reflexivity.
Defined.

(** ** The name of a type *)

(** X20. [MCore::Type::ToString] names a type by the full name of its
    wrapper.  For a registered handle this is a pure read of the wrapper; for
    a canonical handle that is not registered yet (its assembly having no
    wrapper) the call creates the wrapper and returns the full name the
    runtime describes for the handle.  The null type has no wrapper, and the
    call dereferences the null pointer [GetOrCreateClass] returns for it. *)
Theorem Type_ToString_names_the_class (rt : Runtime) (s : Bridge) :
  MCore_Type_ToString rt nullptr s = Fail NullDeref
  /\ (forall type k c,
        type <> nullptr ->
        classHandles s !! type = Some k ->
        classObjects s !! k = Some c ->
        MCore_Type_ToString rt type s = Ok (MClass._fullname c, s))
  /\ (forall type,
        type <> nullptr ->
        classHandles s !! type = None ->
        canonical rt type ->
        assemblyHandles s !! (GetManagedClassFromType rt type).2 = None ->
        Forall (resolves rt)
          ["GetManagedClassFromType"; "TypeIsValueType"; "TypeIsEnum"; "FreeMemory"] ->
        exists s',
          MCore_Type_ToString rt type s
          = Ok (StringAnsi (NativeClassDefinitions.fullname (GetManagedClassFromType rt type).1),
                s')).
Proof.
  split; [reflexivity|]. split.
  - intros type k c Hn L D. unfold MCore_Type_ToString.
    rewrite (bind_Ok _ _ _ _ _ (GetOrCreateClass_registered rt _ _ _ Hn L)).
    cbn [deref]. rewrite bind_ret. unfold MClass_GetFullName.
    now rewrite (bind_Ok _ _ _ _ _ (deref_class_Some k c s D)).
  - intros type Hn L Hc Ha R.
    destruct (GetOrCreateClass_creates rt type s Hn L Hc Ha R) as (s' & E).
    destruct (GetOrCreateClass_unowned_inv rt _ _ _ _ Hn L Hc Ha E)
      as (_ & _ & (c & O & _ & Hf) & _).
    exists s'. unfold MCore_Type_ToString. rewrite (bind_Ok _ _ _ _ _ E).
    cbn [deref]. rewrite bind_ret. unfold MClass_GetFullName.
    assert (classObjects s' !! length (classObjects s) = Some c) as D.
    { rewrite O, lookup_app_r, Nat.sub_diag by lia. reflexivity. }
    now rewrite (bind_Ok _ _ _ _ _ (deref_class_Some _ c s' D)), Hf.
Qed.

Lemma Type_ToString_names_the_class_witness :
  (exists s', MCore_Type_ToString sample_runtime 100 initial = Ok ("System.Exception", s'))
  /\ MCore_Type_ToString sample_runtime 100 sample_mirrored
     = Ok ("System.Exception", sample_mirrored).
Proof.
  split.
  - apply (proj2 (proj2 (Type_ToString_names_the_class sample_runtime initial)) 100);
      [discriminate|reflexivity|reflexivity|reflexivity|].
    repeat apply Forall_cons_2; [| | | |apply Forall_nil_2]; reflexivity.
  - assert (exists c, classObjects sample_mirrored !! 0%nat = Some c
                      /\ MClass._fullname c = "System.Exception") as (c & D & F)
        by (eexists; split; vm_compute; reflexivity).
    rewrite <- F.
    apply (proj1 (proj2 (Type_ToString_names_the_class sample_runtime sample_mirrored))
             100 0%nat c); [discriminate|vm_compute; reflexivity|exact D].
Defined.

(** ** Log levels of the Mono host *)

Lemma find_errorLevel_table l :
  find_errorLevel 1 monoErrorLevels l
  = if String.eqb "error" l then 1
    else if String.eqb "critical" l then 2
    else if String.eqb "warning" l then 3
    else if String.eqb "message" l then 4
    else if String.eqb "info" l then 5
    else if String.eqb "debug" l then 6
    else 0.
Proof. reflexivity. Qed.

(** X21. The level at which [OnLogCallback] writes a Mono log message:
    [Warning] exactly for the level name "warning", [Info] exactly for
    "message", "info" and "debug", and [Error] for everything else, which
    includes "error" and "critical" but also a missing level name and any
    name that is not in the table (the comparison is exact, so "Warning" is
    an error).  Nothing is written at [Fatal]: the [fatal] flag of the
    callback is ignored. *)
Theorem OnLogCallback_level (activeDomain : option string)
    (logDomain logLevel message : cstring) :
  ((OnLogCallback activeDomain logDomain logLevel message).1 = LogType.Warning
   <-> logLevel = Some "warning")
  /\ ((OnLogCallback activeDomain logDomain logLevel message).1 = LogType.Info
      <-> logLevel = Some "message" \/ logLevel = Some "info" \/ logLevel = Some "debug")
  /\ ((OnLogCallback activeDomain logDomain logLevel message).1 = LogType.Error
      <-> logLevel <> Some "warning" /\ logLevel <> Some "message"
          /\ logLevel <> Some "info" /\ logLevel <> Some "debug")
  /\ (OnLogCallback activeDomain logDomain logLevel message).1 <> LogType.Fatal.
Proof.
  unfold OnLogCallback. destruct logLevel as [l|].
  - rewrite find_errorLevel_table.
    destruct (String.eqb_spec "error" l) as [<-|N1];
      [cbn; intuition congruence|].
    destruct (String.eqb_spec "critical" l) as [<-|N2];
      [cbn; intuition congruence|].
    destruct (String.eqb_spec "warning" l) as [<-|N3];
      [cbn; intuition congruence|].
    destruct (String.eqb_spec "message" l) as [<-|N4];
      [cbn; intuition congruence|].
    destruct (String.eqb_spec "info" l) as [<-|N5];
      [cbn; intuition congruence|].
    destruct (String.eqb_spec "debug" l) as [<-|N6];
      cbn; intuition congruence.
  - cbn. intuition congruence.
Qed.

Section MethodCache.
Context (rt : Runtime).

Lemma set_methods_set_methods ms ms' c :
  MClass.set_methods ms (MClass.set_methods ms' c) = MClass.set_methods ms c.
Proof. reflexivity. Qed.

Lemma cache_methods_content this : forall defs u s s' c,
  cache_methods rt this defs s = Ok (u, s') ->
  classObjects s !! this = Some c ->
  exists built,
    classObjects s' = <[this := MClass.set_methods (MClass._methods c ++ built) c]> (classObjects s)
    /\ Forall2 (method_mirrors this) defs built.
Proof.
  induction defs as [|d rest IH]; intros u s s' c E D; simpl in E.
  - injection E as _ <-. exists []. split; [|constructor]. rewrite app_nil_r.
    symmetry. apply list_insert_id. rewrite D. f_equal. now destruct c.
  - destruct (MMethod_ctor _ _ _ _ _) as [m|] eqn:Em; [|discriminate].
    assert (method_mirrors this d m) as Hm.
    { unfold MMethod_ctor in Em.
      destruct (method_visibility (NativeMethodDefinitions.methodAttributes d)) as [v|] eqn:V;
        [|discriminate].
      injection Em as <-. unfold method_mirrors. simpl. now rewrite V. }
    rewrite bind_lift_Ok in E.
    apply bind_inv in E as ([] & s1 & U & E).
    apply update_class_inv in U as (c0 & D0 & -> & D1).
    rewrite D in D0. injection D0 as <-.
    apply bind_inv in E as (u2 & s2 & F & E).
    apply MCore_GC_FreeMemory_classObjects in F.
    rewrite <- F in D1.
    destruct (IH _ _ _ _ E D1) as (built & C & FA). exists (m :: built).
    split; [|now constructor].
    rewrite C, F. simpl_bridge. rewrite list_insert_insert_eq.
    unfold MClass.add_method. rewrite set_methods_set_methods. simpl.
    now rewrite <- app_assoc.
Qed.

End MethodCache.

(** ** What the method cache holds *)

(** X22. The first [MClass::GetMethods] mirrors the methods the runtime
    lists for the class, one wrapper per descriptor and in the runtime's
    order: each wrapper carries the name, handle and parameter count of its
    descriptor, belongs to this class, and has the visibility and static flag
    decoded from the descriptor's attributes.  The wrappers are appended to
    what the array held, which is nothing for a wrapper made by
    [GetOrCreateClass]. *)
Theorem GetMethods_mirrors_listed_methods (rt : Runtime) (this : nat) (c : MClass.t)
    (s s' : Bridge) (ms : list MMethod.t) :
  classObjects s !! this = Some c ->
  MClass._hasCachedMethods c = false ->
  MClass_GetMethods rt this s = Ok (ms, s') ->
  exists built,
    ms = (MClass._methods c ++ built)%list
    /\ Forall2 (method_mirrors this) (GetClassMethods rt (MClass._handle c)) built.
Proof.
  intros D F E. unfold MClass_GetMethods in E.
  rewrite (bind_Ok _ _ _ _ _ (deref_class_Some this c s D)), F in E.
  apply bind_inv in E as (defs & sa & Ea & E).
  apply CallStaticMethod_classObjects in Ea as [-> Ca].
  apply bind_inv in E as (ub & sb & Eb & E).
  rewrite <- Ca in D. destruct (cache_methods_content rt _ _ _ _ _ _ Eb D) as (built & Cb & FA).
  apply bind_inv in E as (uc & sc & Ec & E).
  apply MCore_GC_FreeMemory_classObjects in Ec.
  apply bind_inv in E as ([] & sd & U & E).
  apply update_class_inv in U as (cc & Dc & -> & Dd).
  apply bind_inv in E as (c' & se & D' & E). apply deref_class_inv in D' as [-> D'].
  injection E as <- _. exists built. split; [|exact FA].
  rewrite Dd in D'. injection D' as <-.
  rewrite Ec, Cb, list_lookup_insert_eq in Dc by (eapply lookup_lt_Some, D).
  injection Dc as <-. reflexivity.
Qed.

(** The one method of the sample class. *)
Lemma GetMethods_mirrors_listed_methods_witness :
  exists m s',
    MClass_GetMethods sample_runtime 0 sample_mirrored = Ok ([m], s')
    /\ method_mirrors 0 (NativeMethodDefinitions.mk (Some "ToString") 0 301 0x00c6) m.
Proof.
  assert (exists c m s',
            classObjects sample_mirrored !! 0%nat = Some c
            /\ MClass._hasCachedMethods c = false
            /\ MClass._methods c = []
            /\ MClass_GetMethods sample_runtime 0 sample_mirrored = Ok ([m], s'))
    as (c & m & s' & D & F & Em & E)
    by (eexists; eexists; eexists; split; [|split; [|split]]; vm_compute; reflexivity).
  destruct (GetMethods_mirrors_listed_methods sample_runtime 0 c sample_mirrored s' [m] D F E)
    as (built & B & FA).
  rewrite Em in B. simpl in B. subst built.
  apply Forall2_cons_1 in FA as [Hm _].
  exists m, s'. split; [exact E|exact Hm].
Defined.

(** ** The gateway over the life of the process *)

Section Lifetime.
Context (rt : Runtime).

Lemma later_trans s1 s2 s3 : later rt s1 s2 -> later rt s2 s3 -> later rt s1 s3.
Proof.
  induction 1 as [s|s n fn sa sb E _ IH|s sa sb C L _ IH]; intros Y.
  - exact Y.
  - eapply later_resolve; [exact E|apply IH, Y].
  - eapply later_other; [exact C|exact L|apply IH, Y].
Qed.

Lemma later_frame s s' :
  CachedFunctions s' = CachedFunctions s -> calls s' = calls s -> later rt s s'.
Proof.
  intros C L. eapply later_other; [exact C| |apply later_now].
  intros n. unfold lookups. now rewrite L.
Qed.

Lemma later_log n args s : later rt s (set_calls (Managed n args :: calls s) s).
Proof.
  apply (later_other rt s (set_calls (Managed n args :: calls s) s));
    [reflexivity| |apply later_now].
  intros m. unfold lookups. simpl_bridge. rewrite filter_cons.
  now rewrite decide_False by discriminate.
Qed.

Lemma CallStaticMethod_later {A} n args (answer r : A) s s' :
  CallStaticMethod rt n args answer s = Ok (r, s') -> later rt s s'.
Proof.
  unfold CallStaticMethod. intros E. inv_bind E as fn s1 R.
  unfold log in E. rewrite bind_modify in E. injection E as _ <-.
  eapply later_resolve; [exact R|apply later_log].
Qed.

Lemma MCore_GC_FreeMemory_later {A} (ptr : option A) u s s' :
  MCore_GC_FreeMemory rt ptr s = Ok (u, s') -> later rt s s'.
Proof.
  destruct ptr; simpl.
  - apply CallStaticMethod_later.
  - intros [= _ <-]. apply later_now.
Qed.

Lemma New_MClass_later parentAssembly h name fullname namespace_ attributes s k s' :
  New_MClass rt parentAssembly h name fullname namespace_ attributes s = Ok (k, s') ->
  later rt s s'.
Proof.
  unfold New_MClass. rewrite bind_gets. intros E. inv_bind E as c s1 Ec.
  rewrite bind_modify in E. injection E as _ <-.
  eapply later_trans; [|now apply later_frame].
  revert Ec. unfold MClass_ctor. intros E.
  inv_bind E as u0 s0 E0. apply ASSERT_inv in E0 as [-> _].
  destruct (class_visibility attributes); [|discriminate]. rewrite bind_lift_Ok in E.
  inv_bind E as b1 s2 E1. inv_bind E as b2 s3 E2.
  apply CallStaticMethod_later in E1. apply CallStaticMethod_later in E2.
  rewrite bind_gets in E.
  destruct (Dictionary_Add h (length (classObjects s)) _) as [d'|]; [|discriminate].
  rewrite bind_lift_Ok, bind_modify in E. injection E as _ <-.
  eapply later_trans; [exact E1|]. eapply later_trans; [exact E2|]. now apply later_frame.
Qed.

Lemma update_assembly_later k f u s s' :
  update_assembly k f s = Ok (u, s') -> later rt s s'.
Proof. intros E. apply update_assembly_inv in E as (a & _ & ->). now apply later_frame. Qed.

Lemma MAssembly_classes_Add_later this fullName klass u s s' :
  MAssembly_classes_Add this fullName klass s = Ok (u, s') -> later rt s s'.
Proof.
  unfold MAssembly_classes_Add. intros E. inv_bind E as a s1 D.
  apply deref_assembly_inv in D as [-> _].
  destruct (Dictionary_Add fullName klass (MAssembly._classes a)); [|discriminate].
  rewrite bind_lift_Ok in E. now apply update_assembly_later in E.
Qed.

Lemma cache_classes_later this managedClasses :
  forall u s s', cache_classes rt this managedClasses s = Ok (u, s') -> later rt s s'.
Proof.
  induction managedClasses as [|d rest IH]; intros u s s' E; simpl in E.
  - injection E as _ <-. apply later_now.
  - inv_bind E as klass s1 EN. inv_bind E as fullName s2 EF.
    inv_bind E as u3 s3 EA. inv_bind E as u4 s4 E4.
    inv_bind E as u5 s5 E5. inv_bind E as u6 s6 E6.
    apply New_MClass_later in EN. apply MClass_GetFullName_inv in EF as ->.
    apply MAssembly_classes_Add_later in EA.
    apply MCore_GC_FreeMemory_later in E4. apply MCore_GC_FreeMemory_later in E5.
    apply MCore_GC_FreeMemory_later in E6. apply IH in E.
    eapply later_trans; [exact EN|]. eapply later_trans; [exact EA|].
    eapply later_trans; [exact E4|]. eapply later_trans; [exact E5|].
    eapply later_trans; [exact E6|exact E].
Qed.

Lemma MAssembly_GetClasses_later this s d s' :
  MAssembly_GetClasses rt this s = Ok (d, s') -> later rt s s'.
Proof.
  unfold MAssembly_GetClasses. intros E. inv_bind E as a s0 D.
  apply deref_assembly_inv in D as [-> _].
  destruct (MAssembly._hasCachedClasses a || negb (MAssembly._isLoaded a)).
  - injection E as _ <-. apply later_now.
  - inv_bind E as u1 s1 E1. inv_bind E as defs s2 E2. inv_bind E as u3 s3 E3.
    inv_bind E as u4 s4 E4. inv_bind E as u5 s5 E5. inv_bind E as a' s6 E6.
    injection E as _ <-.
    apply ASSERT_inv in E1 as [-> _].
    apply CallStaticMethod_later in E2. apply cache_classes_later in E3.
    apply MCore_GC_FreeMemory_later in E4. apply update_assembly_later in E5.
    apply deref_assembly_inv in E6 as [-> _].
    eapply later_trans; [exact E2|]. eapply later_trans; [exact E3|].
    eapply later_trans; [exact E4|exact E5].
Qed.

(** Creating wrappers is part of that life: whatever [GetOrCreateClass]
    does to the gateway, it does through resolutions. *)
Lemma GetOrCreateClass_later typeHandle s r s' :
  GetOrCreateClass rt typeHandle s = Ok (r, s') -> later rt s s'.
Proof.
  unfold GetOrCreateClass.
  destruct (typeHandle =? nullptr); [intros [= _ <-]; apply later_now|].
  rewrite bind_gets. destruct (classHandles s !! typeHandle) as [k|] eqn:L.
  { intros [= _ <-]. apply later_now. }
  intros E.
  inv_bind E as described s1 E1. apply CallStaticMethod_later in E1.
  destruct described as [classInfo assemblyHandle].
  unfold GetAssembly in E. rewrite bind_gets in E.
  inv_bind E as klass s2 EN. apply New_MClass_later in EN.
  inv_bind E as u3 s3 E3. inv_bind E as info s4 E4.
  inv_bind E as u5 s5 E5. inv_bind E as u6 s6 E6. inv_bind E as u7 s7 E7.
  injection E as _ <-.
  apply MCore_GC_FreeMemory_later in E5. apply MCore_GC_FreeMemory_later in E6.
  apply MCore_GC_FreeMemory_later in E7.
  assert (later rt s2 s3) as G1.
  { destruct (assemblyHandles _ !! assemblyHandle) as [asm|].
    - inv_bind E3 as d sa Ea. inv_bind E3 as fullName sb Eb.
      apply MAssembly_GetClasses_later in Ea. apply MClass_GetFullName_inv in Eb as ->.
      apply MAssembly_classes_Add_later in E3. eapply later_trans; eassumption.
    - injection E3 as _ <-. apply later_now. }
  assert (later rt s3 s4) as G2.
  { destruct (negb (typeHandle =? NativeClassDefinitions.typeHandle classInfo)).
    - inv_bind E4 as again sa Ea. apply CallStaticMethod_later in Ea.
      destruct again. now injection E4 as _ <-.
    - injection E4 as _ <-. apply later_now. }
  eapply later_trans; [exact E1|]. eapply later_trans; [exact EN|].
  eapply later_trans; [exact G1|]. eapply later_trans; [exact G2|].
  eapply later_trans; [exact E5|]. eapply later_trans; [exact E6|exact E7].
Qed.

Lemma cache_inv_initial : cache_inv rt initial.
Proof. intros n fn C. discriminate. Qed.

Lemma cache_inv_after_resolve n s fn s1 :
  cache_inv rt s -> GetStaticMethodPointer rt n s = Ok (fn, s1) -> cache_inv rt s1.
Proof.
  intros I. unfold GetStaticMethodPointer. rewrite bind_gets.
  destruct (CachedFunctions s !! n) eqn:C; [now intros [= _ <-]|].
  unfold log. rewrite bind_modify.
  destruct (get_function_pointer rt n) as [rc fn'] eqn:G.
  destruct (Z.eqb_spec rc 0) as [->|?]; [|discriminate].
  rewrite bind_ret, bind_gets. simpl.
  rewrite (Dictionary_Add_fresh _ _ _ C), bind_lift_Ok, bind_modify.
  intros [= _ <-] m fm. simpl_bridge. destruct (decide (m = n)) as [->|N].
  - rewrite lookup_insert_eq. now intros [= <-].
  - rewrite lookup_insert_ne by congruence. apply I.
Qed.

(** What a resolution returns: the cached pointer, or else what
    [get_function_pointer] answers. *)
Lemma GetStaticMethodPointer_answer n s fn s1 :
  GetStaticMethodPointer rt n s = Ok (fn, s1) ->
  match CachedFunctions s !! n with
  | Some cached => fn = cached
  | None => get_function_pointer rt n = (0, fn)
  end.
Proof.
  unfold GetStaticMethodPointer. rewrite bind_gets.
  destruct (CachedFunctions s !! n) eqn:C; [now intros [= <- _]|].
  unfold log. rewrite bind_modify.
  destruct (get_function_pointer rt n) as [rc fn'] eqn:G.
  destruct (Z.eqb_spec rc 0) as [->|?]; [|discriminate].
  rewrite bind_ret, bind_gets. simpl.
  rewrite (Dictionary_Add_fresh _ _ _ C), bind_lift_Ok, bind_modify.
  now intros [= <- _].
Qed.

Lemma lookups_after_resolve n fn n' s :
  CachedFunctions s !! n = Some fn ->
  lookups n (after_resolve rt n' s) = lookups n s.
Proof.
  intros C. unfold after_resolve, lookups.
  destruct (CachedFunctions s !! n') eqn:C'; [reflexivity|].
  simpl_bridge. rewrite filter_cons.
  rewrite decide_False; [reflexivity|]. intros [= ->]. congruence.
Qed.

Lemma cached_after_resolve n fn n' s :
  CachedFunctions s !! n = Some fn ->
  CachedFunctions (after_resolve rt n' s) !! n = Some fn.
Proof.
  intros C. unfold after_resolve.
  destruct (CachedFunctions s !! n') eqn:C'; [exact C|].
  simpl_bridge. rewrite lookup_insert_ne; [exact C|]. intros ->. congruence.
Qed.

(** A resolved name stays resolved, to the same pointer and without a
    further lookup, for the rest of the life of the process. *)
Lemma later_keeps n fn s s' :
  later rt s s' ->
  CachedFunctions s !! n = Some fn ->
  CachedFunctions s' !! n = Some fn /\ lookups n s' = lookups n s.
Proof.
  induction 1 as [s|s m fm sa sb E _ IH|s sa sb C L _ IH]; intros Cn.
  - now split.
  - apply GetStaticMethodPointer_inv in E as ->.
    destruct (IH (cached_after_resolve n fn m s Cn)) as (C' & L').
    split; [exact C'|]. rewrite L'. now apply (lookups_after_resolve n fn).
  - rewrite <- C in Cn. destruct (IH Cn) as (C' & L'). split; [exact C'|]. now rewrite L'.
Qed.

End Lifetime.

(** C2. Resolving an entry-point name that the catalogue knows returns the
    pointer that [get_function_pointer] answers for the name; resolving it a
    second time returns the same pointer from [CachedFunctions], leaves the
    state as it is, and the log holds exactly one lookup of the name.  The
    entry stays for the life of the process: after any later run of
    resolutions (of this or other names) and of steps that do not touch the
    gateway, the name is still answered with that pointer, the state is
    unchanged by the answer, and the log still holds that one lookup.  The
    state the first call starts in is one in which cache and log agree and
    the cache holds what the runtime answered, as it is at process start and
    stays from then on. *)
Theorem GetStaticMethodPointer_memoized (rt : Runtime) (methodName : string) (s : Bridge) :
  memo_inv s -> cache_inv rt s -> resolves rt methodName ->
  exists fn s1,
    GetStaticMethodPointer rt methodName s = Ok (fn, s1)
    /\ get_function_pointer rt methodName = (0, fn)
    /\ GetStaticMethodPointer rt methodName s1 = Ok (fn, s1)
    /\ CachedFunctions s1 !! methodName = Some fn
    /\ lookups methodName s1 = 1%nat
    /\ memo_inv s1
    /\ cache_inv rt s1
    /\ forall s2,
         later rt s1 s2 ->
         GetStaticMethodPointer rt methodName s2 = Ok (fn, s2)
         /\ CachedFunctions s2 !! methodName = Some fn
         /\ lookups methodName s2 = 1%nat.
Proof.
  intros I J R.
  destruct (GetStaticMethodPointer_resolves rt methodName s R) as (fn & E & C).
  exists fn, (after_resolve rt methodName s).
  pose proof (memo_inv_after_resolve rt methodName s I) as I1.
  pose proof (cache_inv_after_resolve rt methodName s fn _ J E) as J1.
  assert (lookups methodName (after_resolve rt methodName s) = 1%nat) as L1
      by (rewrite (I1 methodName), C; reflexivity).
  split; [exact E|]. split; [exact (J1 _ _ C)|].
  split; [now apply GetStaticMethodPointer_cached|].
  split; [exact C|]. split; [exact L1|]. split; [exact I1|]. split; [exact J1|].
  intros s2 Y. destruct (later_keeps rt methodName fn _ _ Y C) as (C2 & L2).
  split; [now apply GetStaticMethodPointer_cached|]. split; [exact C2|]. now rewrite L2.
Qed.

(** From process start: the pointer of [GetManagedClassFromType] is the one
    the sample runtime answers, and it is still served, with one lookup in
    the log, after the wrapper of class 100 was created in between, which
    resolves four names and makes six managed calls. *)
Lemma GetStaticMethodPointer_memoized_witness :
  exists s1 s2,
    GetStaticMethodPointer sample_runtime "GetManagedClassFromType" initial = Ok (4119, s1)
    /\ GetStaticMethodPointer sample_runtime "GetManagedClassFromType" s1 = Ok (4119, s1)
    /\ lookups "GetManagedClassFromType" s1 = 1%nat
    /\ GetOrCreateClass sample_runtime 100 s1 = Ok (Some 0%nat, s2)
    /\ GetStaticMethodPointer sample_runtime "GetManagedClassFromType" s2 = Ok (4119, s2)
    /\ lookups "GetManagedClassFromType" s2 = 1%nat.
Proof.
  destruct (GetStaticMethodPointer_memoized sample_runtime "GetManagedClassFromType" initial
              memo_inv_initial (cache_inv_initial sample_runtime) eq_refl)
    as (fn & s1 & E1 & A & E2 & _ & L1 & _ & _ & Life).
  injection A as <-.
  assert (exists s2, GetOrCreateClass sample_runtime 100 s1 = Ok (Some 0%nat, s2))
    as (s2 & EG).
  { assert (s1 = after_resolve sample_runtime "GetManagedClassFromType" initial) as ->
        by (eapply GetStaticMethodPointer_inv, E1).
    eexists. vm_compute. reflexivity. }
  destruct (Life s2 (GetOrCreateClass_later sample_runtime _ _ _ _ EG)) as (E3 & _ & L3).
  exists s1, s2. repeat (split; [assumption|]). assumption.
Defined.

(** ** Weak handles *)



(** ** Classes of a loaded assembly whose classes are not mirrored yet *)

(** The class 31 of the sample assembly, asked for before the classes of
    the assembly were mirrored.  The handle is canonical and not registered,
    and the assembly 900 has its wrapper, loaded and with an empty class map.
    [GetOrCreateClass] makes the wrapper of 31 and registers it, then has the
    assembly mirror its classes, which makes a wrapper of 31 once more: its
    registration fails the assertion of the identity map. *)
Lemma GetOrCreateClass_class_of_uncached_assembly :
  classHandles sample_loaded !! 31 = None
  /\ canonical sample_owned_runtime 31
  /\ assemblyHandles sample_loaded !! 900 = Some 0%nat
  /\ assemblyObjects sample_loaded !! 0%nat = Some (MAssembly.mk 900 true false ∅)
  /\ GetOrCreateClass sample_owned_runtime 31 sample_loaded = Fail AssertFailed.
Proof. split; [|split; [|split; [|split]]]; vm_compute; reflexivity. Qed.


(** ** Exceptions whose classes still have to be wrapped *)

Section Wrapping.
Context (rt : Runtime) (ToString : handle -> string).

(** Creation of a wrapper for a canonical handle whose assembly has no
    wrapper, in full: one fresh class object, one registration, nothing else
    of the objects touched. *)
Lemma GetOrCreateClass_unowned_fresh typeHandle s r s' :
  typeHandle <> nullptr ->
  classHandles s !! typeHandle = None ->
  canonical rt typeHandle ->
  assemblyHandles s !! (GetManagedClassFromType rt typeHandle).2 = None ->
  GetOrCreateClass rt typeHandle s = Ok (r, s') ->
  r = Some (length (classObjects s))
  /\ classHandles s' = <[typeHandle := length (classObjects s)]> (classHandles s)
  /\ (exists c, classObjects s' = (classObjects s ++ [c])%list
                /\ MClass._handle c = typeHandle
                /\ MClass._hasCachedProperties c = false
                /\ MClass._properties c = [])
  /\ assemblyHandles s' = assemblyHandles s
  /\ exceptionObjects s' = exceptionObjects s
  /\ nextException s' = nextException s.
Proof.
  intros Hn L Hc Ha. unfold GetOrCreateClass, canonical in *.
  destruct (Z.eqb_spec typeHandle nullptr) as [?|_]; [contradiction|].
  rewrite bind_gets, L. intros E.
  inv_bind E as described s1 E1. apply CallStaticMethod_inv in E1 as [-> ->].
  destruct (GetManagedClassFromType rt typeHandle) as [classInfo assemblyHandle] eqn:G.
  cbn [fst snd] in *. unfold GetAssembly in E. rewrite bind_gets in E.
  pose proof (after_call_same rt "GetManagedClassFromType" [typeHandle] s)
    as (A1 & A2 & _ & A4 & A5).
  rewrite A2, Ha, Hc in E.
  inv_bind E as klass s2 EN.
  apply New_MClass_inv in EN
    as (K & _ & _ & C & (c & O & Hh & _ & Fp & _ & _ & Pp & _) & B2 & _ & B4 & B5).
  rewrite after_call_classObjects in K, O. rewrite A1 in C. rewrite A2 in B2.
  rewrite A4 in B4. rewrite A5 in B5.
  rewrite bind_ret, Z.eqb_refl in E. cbn [negb] in E. rewrite bind_ret in E.
  inv_bind E as u5 s5 E5. inv_bind E as u6 s6 E6. inv_bind E as u7 s7 E7.
  injection E as <- <-.
  apply MCore_GC_FreeMemory_inv in E5 as ->.
  apply MCore_GC_FreeMemory_inv in E6 as ->.
  apply MCore_GC_FreeMemory_inv in E7 as ->.
  set (n := NativeClassDefinitions.name classInfo) in *.
  set (f := NativeClassDefinitions.fullname classInfo) in *.
  set (ns := NativeClassDefinitions.namespace_ classInfo) in *.
  assert (same_objects s2 (after_free rt ns (after_free rt f (after_free rt n s2)))) as F.
  { eapply same_objects_trans; [apply (after_free_same rt n)|].
    eapply same_objects_trans; [apply (after_free_same rt f)|apply (after_free_same rt ns)]. }
  destruct F as (F1 & F2 & _ & F4 & F5).
  rewrite !after_free_classObjects, F1, F2, F4, F5. subst klass.
  split; [reflexivity|]. split; [exact C|].
  split; [exists c; split; [exact O|]; split; [exact Hh|]; split; assumption|].
  split; [exact B2|]. split; [exact B4|exact B5].
Qed.

Lemma wrappable_same s s' :
  same_objects s s' ->
  (forall h, mirrored rt s h -> mirrored rt s' h) ->
  forall h, wrappable rt s h -> wrappable rt s' h.
Proof.
  intros (SH & SA & _) M h [Mi|(L & C & A)]; [left; now apply M|].
  right. rewrite SH, SA. now repeat split.
Qed.

(** [MCore::Object::GetClass] on an object whose class is wrappable: the
    wrapper is found or made, and the class is mirrored from then on. *)
Lemma MCore_Object_GetClass_wraps s obj :
  Forall (resolves rt)
    ["GetObjectType"; "GetManagedClassFromType"; "TypeIsValueType"; "TypeIsEnum";
     "FreeMemory"] ->
  GetObjectType rt obj <> nullptr ->
  wrappable rt s (GetObjectType rt obj) ->
  exists s' k c,
    MCore_Object_GetClass rt obj s = Ok (Some k, s')
    /\ exceptionObjects s' = exceptionObjects s
    /\ nextException s' = nextException s
    /\ classObjects s' !! k = Some c
    /\ MClass._handle c = GetObjectType rt obj
    /\ consistent rt k c
    /\ (forall h, wrappable rt s h -> wrappable rt s' h).
Proof.
  intros R Hn Wr.
  apply Forall_cons in R as [R1 R]. destruct Wr as [Mi|(L & C & A)].
  - destruct (MCore_Object_GetClass_spec rt s obj R1 Hn Mi)
      as (s' & k & c & E & S & O & D & H & I).
    exists s', k, c. split; [exact E|]. destruct S as (SH & SA & SO & SE & SN).
    split; [exact SE|]. split; [exact SN|]. split; [exact D|]. split; [exact H|].
    split; [exact I|]. apply wrappable_same; [now repeat split|].
    now apply mirrored_same.
  - unfold MCore_Object_GetClass.
    rewrite (bind_Ok _ _ _ _ _ (CallStaticMethod_resolves rt _ _ _ _ R1)).
    set (t := GetObjectType rt obj) in *.
    set (s0 := after_call rt "GetObjectType" [obj] s).
    pose proof (after_call_same rt "GetObjectType" [obj] s) as (SH & SA & _ & SE & SN).
    pose proof (after_call_classObjects rt "GetObjectType" [obj] s) as SO.
    fold s0 in SH, SA, SE, SN, SO.
    assert (classHandles s0 !! t = None) as L0 by now rewrite SH.
    assert (assemblyHandles s0 !! (GetManagedClassFromType rt t).2 = None) as A0
        by now rewrite SA.
    destruct (GetOrCreateClass_creates rt t s0 Hn L0 C A0 R) as (s' & E).
    destruct (GetOrCreateClass_unowned_fresh t s0 _ s' Hn L0 C A0 E)
      as (_ & CH & (c & O & Hc & Fp & Pp) & AH & XE & XN).
    exists s', (length (classObjects s0)), c.
    assert (classObjects s' !! length (classObjects s0) = Some c) as D.
    { rewrite O, lookup_app_r, Nat.sub_diag by lia. reflexivity. }
    split; [exact E|]. split; [congruence|]. split; [congruence|]. split; [exact D|].
    split; [exact Hc|]. split; [unfold consistent; now rewrite Fp|].
    intros h [(k0 & c0 & L1 & D1 & H1 & I1)|(L1 & C1 & A1)].
    + left. exists k0, c0. rewrite CH, O, SH, SO.
      split; [rewrite lookup_insert_ne; [exact L1|]; intros <-; congruence|].
      split; [now apply lookup_app_l_Some|]. now split.
    + destruct (decide (h = t)) as [->|N].
      * left. exists (length (classObjects s0)), c. rewrite CH.
        split; [apply lookup_insert_eq|]. split; [exact D|]. split; [exact Hc|].
        unfold consistent. now rewrite Fp.
      * right. rewrite CH, AH, SH, SA. rewrite lookup_insert_ne by congruence.
        now repeat split.
Qed.

(** The constructor up to its recursive call, for a wrappable class. *)
Lemma MException_ctor_reads_wraps fuel this obj message stackTrace inner s :
  Forall (resolves rt)
    ["GetObjectType"; "GetManagedClassFromType"; "TypeIsValueType"; "TypeIsEnum";
     "FreeMemory"] ->
  resolves rt "GetClassProperties" -> resolves rt "InvokeMethod" ->
  managed_exception rt ToString obj message stackTrace inner ->
  wrappable rt s (GetObjectType rt obj) ->
  exists s1,
    exceptionObjects s1 = exceptionObjects s
    /\ nextException s1 = nextException s
    /\ (forall h, wrappable rt s h -> wrappable rt s1 h)
    /\ MException_ctor rt ToString (S fuel) this obj s
       = (let* InnerException :=
            (if negb (inner =? nullptr) then
               let* p := alloc_exception in
               let* _ := MException_ctor rt ToString fuel p inner in
               ret (Some p)
             else ret None) in
          modify (fun s => set_exceptionObjects
                             (<[this := MException.mk message stackTrace InnerException]>
                                (exceptionObjects s)) s)) s1.
Proof.
  intros R R2 R4 (On & Tn & Dec & Hm & Hs & Hi) Wr.
  assert (resolves rt "FreeMemory") as R3.
  { apply Forall_cons in R as [_ R]. apply Forall_cons in R as [_ R].
    apply Forall_cons in R as [_ R]. apply Forall_cons in R as [_ R].
    now apply Forall_cons in R as [R3 _]. }
  apply managed_property_getter in Hm as (gm & Gm & Vm).
  apply managed_property_getter in Hs as (gs & Gs & Vs).
  apply managed_property_Some in Hi as (gi & Gi & Vi).
  destruct (MCore_Object_GetClass_wraps s obj R Tn Wr)
    as (sa & k & c & Ea & Xa & Na & Da & Ha & Ia & Wa).
  rewrite <- Ha in Dec, Gm, Gs, Gi.
  destruct (get_exception_property_spec rt sa k c obj "Message" gm R2 R3 R4 Da Ia Dec Gm)
    as (sb & cb & Eb & Sb & Mb & Db & Hb & Ib).
  rewrite <- Hb in Dec, Gs, Gi.
  destruct (get_exception_property_spec rt sb k cb obj "StackTrace" gs R2 R3 R4 Db Ib Dec Gs)
    as (sc & cc & Ec & Sc & Mc & Dc & Hc & Ic).
  rewrite <- Hc in Dec, Gi.
  destruct (get_exception_property_spec rt sc k cc obj "InnerException" gi R2 R3 R4 Dc Ic Dec Gi)
    as (sd & cd & Ed & Sd & Md & Dd & Hd & Id).
  exists sd.
  pose proof Sb as (_ & _ & _ & Xb & Nb). pose proof Sc as (_ & _ & _ & Xc & Nc).
  pose proof Sd as (_ & _ & _ & Xd & Nd).
  split; [congruence|]. split; [congruence|]. split.
  - intros h W. apply (wrappable_same sc sd Sd Md), (wrappable_same sb sc Sc Mc),
      (wrappable_same sa sb Sb Mb), Wa, W.
  - rewrite MException_ctor_S. unfold ASSERT.
    destruct (Z.eqb_spec obj nullptr) as [?|_]; [contradiction|]. cbn [negb].
    rewrite bind_ret, (bind_Ok _ _ _ _ _ Ea), (bind_Ok _ _ _ _ _ Eb),
      (bind_Ok _ _ _ _ _ Ec), (bind_Ok _ _ _ _ _ Ed).
    rewrite Vm, Vs, Vi. reflexivity.
Qed.

Lemma wrappable_ext s s' :
  classHandles s' = classHandles s -> classObjects s' = classObjects s ->
  assemblyHandles s' = assemblyHandles s ->
  forall h, wrappable rt s h -> wrappable rt s' h.
Proof.
  intros SH SO SA h [Mi|(L & C & A)].
  - left. now apply (mirrored_ext rt s s').
  - right. rewrite SH, SA. now repeat split.
Qed.

Lemma MException_ctor_chain_wraps :
  Forall (resolves rt)
    ["GetObjectType"; "GetManagedClassFromType"; "TypeIsValueType"; "TypeIsEnum";
     "FreeMemory"] ->
  resolves rt "GetClassProperties" -> resolves rt "InvokeMethod" ->
  forall chain obj s this fuel,
    chain <> [] ->
    managed_chain rt ToString obj chain ->
    Forall (fun x => wrappable rt s (GetObjectType rt x.1.1)) chain ->
    nextException s = S this ->
    (length chain <= fuel)%nat ->
    exists s',
      MException_ctor rt ToString fuel this obj s = Ok (tt, s')
      /\ exceptionObjects s' = native_chain this chain ∪ exceptionObjects s
      /\ nextException s' = (this + length chain)%nat
      /\ (forall h, wrappable rt s h -> wrappable rt s' h).
Proof.
  intros R R2 R4.
  induction chain as [|[[o m] t] rest IH]; intros obj s this fuel Hne MC Wr Nx Hf;
    [contradiction|].
  destruct fuel as [|fuel]; [simpl in Hf; lia|].
  destruct MC as (-> & inner & ME & MC).
  apply Forall_cons in Wr as [Wo Wrest]. simpl in Wo.
  destruct (MException_ctor_reads_wraps fuel this o m t inner s R R2 R4 ME Wo)
    as (s1 & SE & SN & W1 & ->).
  destruct rest as [|[[o' m'] t'] rest'].
  - simpl in MC. subst inner. cbn [Z.eqb negb nullptr]. rewrite bind_ret.
    eexists. split; [reflexivity|]. simpl_bridge.
    split; [|split].
    + simpl. rewrite SE, <- insert_union_l. now rewrite (left_id_L ∅ (∪)).
    + simpl. lia.
    + intros h W. eapply wrappable_ext; [| | |apply W1, W]; reflexivity.
  - assert (inner = o') as -> by (now destruct MC as (-> & _)).
    assert (o' <> nullptr) as On.
    { destruct MC as (_ & i' & (On & _) & _). exact On. }
    destruct (Z.eqb_spec o' nullptr) as [?|_]; [contradiction|]. cbn [negb].
    unfold alloc_exception at 1. rewrite !bind_assoc, bind_gets.
    rewrite bind_assoc, bind_modify, bind_ret.
    set (s2 := set_nextException (S (nextException s1)) s1).
    assert (Forall (fun x => wrappable rt s2 (GetObjectType rt x.1.1))
              ((o', m', t') :: rest')) as Wr2.
    { eapply Forall_impl; [exact Wrest|]. intros x W.
      eapply (wrappable_ext s1 s2); [reflexivity | reflexivity | reflexivity | apply W1, W]. }
    assert (nextException s2 = S (nextException s1)) as Nx2 by reflexivity.
    assert (length ((o', m', t') :: rest') <= fuel)%nat as Hf2 by (simpl in *; lia).
    destruct (IH o' s2 (nextException s1) fuel ltac:(discriminate) MC Wr2 Nx2 Hf2)
      as (s3 & E3 & X3 & N3 & W3).
    rewrite bind_assoc, (bind_Ok _ _ _ _ _ E3), bind_ret.
    eexists. split; [reflexivity|]. simpl_bridge.
    split; [|split].
    + rewrite X3. subst s2. simpl_bridge. rewrite SE, SN, Nx.
      cbn [native_chain]. now rewrite insert_union_l.
    + rewrite N3, SN, Nx. simpl. lia.
    + intros h W. eapply wrappable_ext; [| | |apply W3]; [reflexivity | reflexivity | reflexivity |].
      eapply (wrappable_ext s1 s2); [reflexivity | reflexivity | reflexivity | apply W1, W].
Qed.

End Wrapping.

(** X24. The marshaler also copies a chain whose classes have no wrapper
    yet: for a chain of [n >= 1] managed exceptions whose classes are each
    either mirrored, or unregistered with a canonical handle and an assembly
    that has no wrapper, [New<MException>] returns, given fuel for [n]
    levels, after [MCore::Object::GetClass] has made the missing wrappers;
    it stores [n] records in consecutive fresh storage, the record of level
    [i] holding the message and stack trace of the [i]-th exception and
    owning the record of level [i+1], the last one owning nothing; [Delete]
    of the outermost record frees all [n]. *)
Theorem exception_chain_wraps_classes (rt : Runtime) (ToString : handle -> string)
    (s : Bridge) (e : handle) (chain : list (handle * string * string)) (fuel : nat) :
  Forall (resolves rt)
    ["GetObjectType"; "GetManagedClassFromType"; "TypeIsValueType"; "TypeIsEnum";
     "FreeMemory"; "GetClassProperties"; "InvokeMethod"] ->
  chain <> [] ->
  managed_chain rt ToString e chain ->
  Forall (fun x => wrappable rt s (GetObjectType rt x.1.1)) chain ->
  heap_fresh s ->
  (length chain <= fuel)%nat ->
  exists s1 s2,
    New_MException rt ToString fuel e s = Ok (nextException s, s1)
    /\ nextException s1 = (nextException s + length chain)%nat
    /\ (forall i o m t,
          chain !! i = Some (o, m, t) ->
          exceptionObjects s !! (nextException s + i)%nat = None
          /\ exceptionObjects s1 !! (nextException s + i)%nat
             = Some (MException.mk m t
                       (if decide (S i = length chain) then None
                        else Some (S (nextException s + i)))))
    /\ (forall q, (q < nextException s)%nat ->
                  exceptionObjects s1 !! q = exceptionObjects s !! q)
    /\ (forall h, wrappable rt s h -> wrappable rt s1 h)
    /\ Delete_MException fuel (nextException s) s1 = Ok (tt, s2)
    /\ exceptionObjects s2 = exceptionObjects s.
Proof.
  intros R Hne MC Wr Fr Hf.
  assert (Forall (resolves rt)
            ["GetObjectType"; "GetManagedClassFromType"; "TypeIsValueType"; "TypeIsEnum";
             "FreeMemory"]
          /\ resolves rt "GetClassProperties" /\ resolves rt "InvokeMethod")
    as (R5 & R2 & R4).
  { apply Forall_cons in R as [Ra R]. apply Forall_cons in R as [Rb R].
    apply Forall_cons in R as [Rc R]. apply Forall_cons in R as [Rd R].
    apply Forall_cons in R as [Re R]. apply Forall_cons in R as [Rf R].
    apply Forall_cons in R as [Rg _].
    split; [|split; assumption].
    repeat apply Forall_cons_2; [| | | | |apply Forall_nil_2]; assumption. }
  set (p := nextException s).
  set (s0 := set_nextException (S p) s).
  assert (Forall (fun x => wrappable rt s0 (GetObjectType rt x.1.1)) chain) as Wr0.
  { eapply Forall_impl; [exact Wr|]. intros x W.
    eapply (wrappable_ext rt s s0); [reflexivity | reflexivity | reflexivity | exact W]. }
  destruct (MException_ctor_chain_wraps rt ToString R5 R2 R4 chain e s0 p fuel
              Hne MC Wr0 eq_refl Hf)
    as (s1 & E1 & X1 & N1 & W1).
  assert (exceptionObjects s1 = native_chain p chain ∪ exceptionObjects s) as X by exact X1.
  exists s1, (set_exceptionObjects (exceptionObjects s) s1).
  split.
  { unfold New_MException, alloc_exception.
    rewrite !bind_assoc, bind_gets, bind_assoc, bind_modify, bind_ret.
    fold p. fold s0. now rewrite (bind_Ok _ _ _ _ _ E1). }
  split; [exact N1|]. split.
  { intros i o m t L. split; [apply Fr; lia|].
    rewrite X. apply lookup_union_Some_l. now apply (native_chain_lookup chain p i o). }
  split.
  { intros q Hq. rewrite X, lookup_union_r; [reflexivity|].
    now apply native_chain_lookup_lt. }
  split.
  { intros h W. apply W1.
    eapply (wrappable_ext rt s s0); [reflexivity | reflexivity | reflexivity | exact W]. }
  split; [|reflexivity].
  apply (Delete_MException_chain chain p fuel s1 (exceptionObjects s));
    [exact Hne | exact Hf | exact X | exact Fr].
Qed.

(** From the empty bridge: the class of the three chained exceptions of the
    sample runtime is wrapped on the way. *)
Lemma exception_chain_wraps_classes_witness :
  classHandles initial !! 100 = None
  /\ exists s1 s2,
       New_MException sample_runtime sample_ToString 3 1001 initial = Ok (0%nat, s1)
       /\ exceptionObjects s1 !! 0%nat = Some (MException.mk "outer" "at A" (Some 1%nat))
       /\ exceptionObjects s1 !! 2%nat = Some (MException.mk "inner" "at C" None)
       /\ Delete_MException 3 0%nat s1 = Ok (tt, s2)
       /\ exceptionObjects s2 = exceptionObjects initial.
Proof.
  split; [reflexivity|].
  assert (Forall decodable (GetClassProperties sample_runtime 100)) as Dec.
  { repeat apply Forall_cons_2; [| | |apply Forall_nil_2];
      (split; [intros _; exists Public; reflexivity | intros C; exfalso; apply C; reflexivity]). }
  assert (wrappable sample_runtime initial 100) as Wr.
  { right. split; [reflexivity|]. split; reflexivity. }
  destruct (exception_chain_wraps_classes sample_runtime sample_ToString initial 1001
              [(1001, "outer", "at A"); (1002, "middle", "at B"); (1003, "inner", "at C")] 3)
    as (s1 & s2 & E1 & _ & Rec & _ & _ & E2 & Back).
  - repeat apply Forall_cons_2; [| | | | | | |apply Forall_nil_2]; reflexivity.
  - discriminate.
  - split; [reflexivity|]. exists 1002. split.
    { split; [discriminate|]. split; [discriminate|]. split; [exact Dec|].
      split; [reflexivity|]. split; reflexivity. }
    split; [reflexivity|]. exists 1003. split.
    { split; [discriminate|]. split; [discriminate|]. split; [exact Dec|].
      split; [reflexivity|]. split; reflexivity. }
    split; [reflexivity|]. exists nullptr. split; [|reflexivity].
    split; [discriminate|]. split; [discriminate|]. split; [exact Dec|].
    split; [reflexivity|]. split; reflexivity.
  - repeat apply Forall_cons_2; [| | |apply Forall_nil_2]; exact Wr.
  - intros q _. reflexivity.
  - simpl. lia.
  - exists s1, s2. split; [exact E1|].
    split; [exact (proj2 (Rec 0%nat 1001 "outer" "at A" eq_refl))|].
    split; [exact (proj2 (Rec 2%nat 1003 "inner" "at C" eq_refl))|].
    split; [exact E2|exact Back].
Defined.
